(** * Financial-Research-Agent: the dashboard's client-side contract

    A shallow embedding of the three front-end sources

      - [src/api/agentApi.js]            (module [agentApi])
      - [components/ResearchAgent.jsx]   (module [ResearchAgent])
      - [components/FloatingAgent.jsx]   (module [FloatingAgent])

    and the properties the specification states about them, followed by
    further properties of the same code.

    JavaScript values are modelled as an inductive type, strings as lists
    of UTF-16 code units, exceptions as an error sum, React state as a
    record that every handler transforms, and an [async] handler as the
    pair of its synchronous prefix and its continuation after the single
    [await]. *)

From Stdlib Require Import ZArith NArith List String Ascii Bool Lia DecimalString.
From Stdlib Require DecimalN.
From stdpp Require Import base option list gmap.

Import ListNotations.
Local Open Scope N_scope.
#[local] Set Warnings "-register-all".

(** * JavaScript strings *)

(** A string is its sequence of UTF-16 code units. *)
Definition jsstring := list N.

(** Literals of the sources that are plain ASCII. *)
Fixpoint str (s : string) : jsstring :=
  match s with
  | EmptyString => []
  | String a s' => N_of_ascii a :: str s'
  end.

Arguments str _ : simpl never.

Definition LF : N := 10.

Definition jsstring_eqb (a b : jsstring) : bool := bool_decide (a = b).

(** [WhiteSpace] and [LineTerminator] of ECMAScript: what [trim] strips and
    what the class [\s] contains. *)
Definition is_space (c : N) : bool :=
  (9 <=? c) && (c <=? 13)
  || (c =? 32) || (c =? 160) || (c =? 5760)
  || (8192 <=? c) && (c <=? 8202)
  || (c =? 8232) || (c =? 8233) || (c =? 8239) || (c =? 8287)
  || (c =? 12288) || (c =? 65279).

Fixpoint trimStart (s : jsstring) : jsstring :=
  match s with
  | c :: s' => if is_space c then trimStart s' else s
  | [] => []
  end.

Definition trimEnd (s : jsstring) : jsstring := rev (trimStart (rev s)).

(** [String.prototype.trim] *)
Definition trim (s : jsstring) : jsstring := trimEnd (trimStart s).

Definition is_upper (c : N) : bool := (65 <=? c) && (c <=? 90).
Definition is_lower (c : N) : bool := (97 <=? c) && (c <=? 122).
Definition is_letter (c : N) : bool := is_upper c || is_lower c.

(** Upper-casing of one code unit.  On the ASCII range this is
    [String.prototype.toUpperCase]; a unit from 128 on is kept, which is
    right for the only strings the sources upper-case (a regular-expression
    capture made of ASCII letters and dots, see [capture_ascii] below) and
    for the case-insensitive comparison of a unit with an ASCII pattern
    character: ECMAScript's [Canonicalize] never maps a unit from 128 on to
    one below 128. *)
Definition upper_unit (c : N) : N := if is_lower c then c - 32 else c.

Definition toUpperCase (s : jsstring) : jsstring := map upper_unit s.

(** [s.startsWith(p)], returning the rest of [s] after the prefix. *)
Fixpoint strip_prefix (p s : jsstring) : option jsstring :=
  match p, s with
  | [], _ => Some s
  | a :: p', b :: s' => if a =? b then strip_prefix p' s' else None
  | _ :: _, [] => None
  end.

(** [String.prototype.replace] with a string pattern and the empty string
    as the replacement: the first occurrence of [pat] is removed, and [s]
    is returned as it is when there is none. *)
Fixpoint remove_first (pat s : jsstring) : jsstring :=
  match strip_prefix pat s with
  | Some rest => rest
  | None => match s with
            | [] => []
            | c :: s' => c :: remove_first pat s'
            end
  end.

(** The longest prefix of [s] whose units satisfy [p], and the rest. *)
Fixpoint span (p : N -> bool) (s : jsstring) : jsstring * jsstring :=
  match s with
  | c :: s' => if p c then let '(a, b) := span p s' in (c :: a, b) else ([], s)
  | [] => ([], [])
  end.

(** [strip_prefix] up to the case of ASCII letters. *)
Fixpoint strip_ci (p s : jsstring) : option jsstring :=
  match p, s with
  | [], _ => Some s
  | a :: p', b :: s' =>
      if upper_unit b =? upper_unit a then strip_ci p' s' else None
  | _ :: _, [] => None
  end.

(** Decimal digits of a non-negative integer, as [Number::toString] prints
    an HTTP status. *)
Definition decimal (n : N) : jsstring :=
  str (NilEmpty.string_of_uint (N.to_uint n)).

(** * JavaScript values *)

(** A number enters the handlers only from a parsed response body, and they
    observe two things of it: [ToBoolean] (false for zero) and [ToString].
    A number is modelled by these two observations. *)
Record number := Number {
  number_truthy : bool;
  number_toString : jsstring
}.

Inductive value : Type :=
| VUndefined
| VNull
| VBool (b : bool)
| VNum (n : number)
| VStr (s : jsstring)
| VArr (items : list value)
| VObj (props : list (jsstring * value)).

(** [ToBoolean] *)
Definition truthy (v : value) : bool :=
  match v with
  | VUndefined | VNull => false
  | VBool b => b
  | VNum n => number_truthy n
  | VStr s => match s with [] => false | _ => true end
  | VArr _ | VObj _ => true
  end.

(** [a || b] *)
Definition js_or (a b : value) : value := if truthy a then a else b.

(** [Array.isArray] *)
Definition isArray (v : value) : bool :=
  match v with VArr _ => true | _ => false end.

(** The property [k] in the property table of an object, [undefined] when
    the object has none. *)
Fixpoint assoc (k : jsstring) (props : list (jsstring * value)) : value :=
  match props with
  | [] => VUndefined
  | (k', v) :: rest => if jsstring_eqb k k' then v else assoc k rest
  end.

(** ** Exceptions *)

Record exn := Exn {
  exn_name : jsstring;
  exn_message : jsstring
}.

(** [new Error(msg)] *)
Definition Error (msg : jsstring) : exn := Exn (str "Error") msg.

Inductive result (A : Type) : Type :=
| Ok (a : A)
| Throw (e : exn).
Arguments Ok {A} a.
Arguments Throw {A} e.

Definition bind {A B} (r : result A) (f : A -> result B) : result B :=
  match r with
  | Ok a => f a
  | Throw e => Throw e
  end.

Notation "'let*' x ':=' r 'in' k" := (bind r (fun x => k))
  (at level 10, x name, r at level 100, k at level 200).

(** The text of an engine [TypeError] is implementation-defined; V8's
    wording is used.  No property below depends on the wording. *)
Definition nullish_read (v : value) (k : jsstring) : exn :=
  Exn (str "TypeError")
      (str "Cannot read properties of "
       ++ (match v with VNull => str "null" | _ => str "undefined" end)
       ++ str " (reading '" ++ k ++ str "')").

Definition not_a_function (expr : jsstring) : exn :=
  Exn (str "TypeError") (expr ++ str " is not a function").

(** [v.k] for a key [k] that no built-in prototype defines (every key the
    sources read from a response is such a key: data, steps, type, ...). *)
Definition get (v : value) (k : jsstring) : result value :=
  match v with
  | VUndefined | VNull => Throw (nullish_read v k)
  | VObj props => Ok (assoc k props)
  | _ => Ok VUndefined
  end.

(** [v?.k] *)
Definition get_opt (v : value) (k : jsstring) : value :=
  match v with
  | VObj props => assoc k props
  | _ => VUndefined
  end.

(** [res.data?.k] *)
Definition data_field (res : value) (k : jsstring) : result value :=
  let* data := get res (str "data") in Ok (get_opt data k).

(** [v == null]: the value is [undefined] or [null]. *)
Definition nullish (v : value) : bool :=
  match v with VUndefined | VNull => true | _ => false end.

(** The field [k] of the [data] of a response, [undefined] when the
    response has no [data] or the data has no [k]. *)
Definition response_field (res : value) (k : jsstring) : value :=
  get_opt (get_opt res (str "data")) k.

(** The elements of an array, and none for any other value. *)
Definition items_of (v : value) : list value :=
  match v with VArr items => items | _ => [] end.

(** An own property with the key [k]. *)
Definition has_own (k : jsstring) (props : list (jsstring * value)) : bool :=
  existsb (fun p => jsstring_eqb k (fst p)) props.

(** The wording of the engine's error is V8's. *)
Definition not_primitive : exn :=
  Exn (str "TypeError") (str "Cannot convert object to primitive value").

(** [ToString].  An array prints as its elements joined with commas.  A
    plain object prints through [Object.prototype.toString], as
    "[object Object]", unless it has an own property [toString]: a value
    here is parsed JSON, or built by a handler from parsed JSON, so the
    own property is no function and hides the inherited method, the
    inherited [valueOf] returns the object itself, and the conversion
    throws a TypeError. *)
Fixpoint toString (v : value) : result jsstring :=
  match v with
  | VUndefined => Ok (str "undefined")
  | VNull => Ok (str "null")
  | VBool true => Ok (str "true")
  | VBool false => Ok (str "false")
  | VNum n => Ok (number_toString n)
  | VStr s => Ok s
  | VArr items =>
      (fix join_comma (l : list value) : result jsstring :=
         match l with
         | [] => Ok []
         | [x] => match x with
                  | VUndefined | VNull => Ok []
                  | _ => toString x
                  end
         | x :: rest =>
             let* first := match x with
                           | VUndefined | VNull => Ok []
                           | _ => toString x
                           end in
             let* others := join_comma rest in
             Ok (first ++ str "," ++ others)
         end) items
  | VObj props =>
      if has_own (str "toString") props then Throw not_primitive
      else Ok (str "[object Object]")
  end.

(** [Array.prototype.join(sep)]: the elements are converted from left to
    right, undefined and null elements print as the empty string, and the
    first conversion that throws ends the call. *)
Definition join_item (v : value) : result jsstring :=
  match v with
  | VUndefined | VNull => Ok []
  | _ => toString v
  end.

Fixpoint join (sep : jsstring) (items : list value) : result jsstring :=
  match items with
  | [] => Ok []
  | [x] => join_item x
  | x :: rest =>
      let* first := join_item x in
      let* others := join sep rest in
      Ok (first ++ sep ++ others)
  end.

(** The values [ToString] converts: those in which no object with an own
    property [toString] is met, at any depth of arrays. *)
Fixpoint printable (v : value) : bool :=
  match v with
  | VArr items => forallb printable items
  | VObj props => negb (has_own (str "toString") props)
  | _ => true
  end.

(** * The API client: [src/api/agentApi.js] *)

Module agentApi.

(** The arguments of one [fetch]: the URL and the [init] object.  [body] is
    the object handed to [JSON.stringify]. *)
Record request := Request {
  url : jsstring;
  method : jsstring;
  headers : list (jsstring * jsstring);
  body : value
}.

(** What the client reads of a [Response]: [res.ok], [res.status] and the
    outcome of [await res.json()]. *)
Record response := Response {
  ok : bool;
  status : N;
  json : result value
}.

(** An [async] client function: it settles, or it awaits one [fetch] and
    goes on with what the network gave (a response, or a rejection). *)
Inductive call (A : Type) : Type :=
| Settle (r : result A)
| Fetch (rq : request) (k : result response -> call A).
Arguments Settle {A} r.
Arguments Fetch {A} rq k.

Definition network := request -> result response.

(** Running a call against a network: the settled result and the requests
    sent, in order. *)
Fixpoint run {A} (net : network) (c : call A) : result A * list request :=
  match c with
  | Settle r => (r, [])
  | Fetch rq k => let '(r, sent) := run net (k (net rq)) in (r, rq :: sent)
  end.

Definition API_BASE_URL : jsstring := str "http://127.0.0.1:8000/api/agents".

Definition json_headers : list (jsstring * jsstring) :=
  [(str "Content-Type", str "application/json")].

(** A parameter with the default [= null]. *)
Definition default_null (v : value) : value :=
  match v with VUndefined => VNull | _ => v end.

Definition runResearchAgent (ticker query : value) : call value :=
  let query := default_null query in
  Fetch {| url := API_BASE_URL ++ str "/research";
           method := str "POST";
           headers := json_headers;
           body := VObj [(str "ticker", ticker); (str "query", query)] |}
    (fun fetched => Settle (
       let* res := fetched in
       if negb (ok res)
       then Throw (Error (str "Research agent error: " ++ decimal (status res)))
       else json res)).

Definition runSentimentAgent (texts sources : value) : call value :=
  let sources := default_null sources in
  Fetch {| url := API_BASE_URL ++ str "/sentiment";
           method := str "POST";
           headers := json_headers;
           body := VObj [(str "texts", texts); (str "sources", sources)] |}
    (fun fetched => Settle (
       let* res := fetched in
       if negb (ok res)
       then Throw (Error (str "Sentiment agent error: " ++ decimal (status res)))
       else json res)).

Definition runPortfolioAgent (tickers watchlistId : value) : call value :=
  let watchlistId := default_null watchlistId in
  Fetch {| url := API_BASE_URL ++ str "/portfolio";
           method := str "POST";
           headers := json_headers;
           body := VObj [(str "tickers", tickers);
                         (str "watchlist_id", watchlistId)] |}
    (fun fetched => Settle (
       let* res := fetched in
       if negb (ok res)
       then Throw (Error (str "Portfolio agent error: " ++ decimal (status res)))
       else json res)).

Definition runLLM (model prompt : value) : call value :=
  Fetch {| url := API_BASE_URL ++ str "/llm";
           method := str "POST";
           headers := json_headers;
           body := VObj [(str "model", model); (str "prompt", prompt)] |}
    (fun fetched => Settle (
       let* res := fetched in
       if negb (ok res)
       then Throw (Error (str "LLM API error: " ++ decimal (status res)))
       else json res)).

Definition runGeminiLLM (prompt : value) : call value :=
  runLLM (VStr (str "gemini-pro")) prompt.

Definition runGroqLLM (prompt : value) : call value :=
  runLLM (VStr (str "groq-llama3")) prompt.

(** The four logical operations of the client, with their arguments. *)
Inductive operation : Type :=
| Research (ticker query : value)
| Sentiment (texts sources : value)
| Portfolio (tickers watchlistId : value)
| LLM (model prompt : value).

Definition perform (op : operation) : call value :=
  match op with
  | Research t q => runResearchAgent t q
  | Sentiment t s => runSentimentAgent t s
  | Portfolio t w => runPortfolioAgent t w
  | LLM m p => runLLM m p
  end.

(** The name an operation carries in its error message. *)
Definition operation_name (op : operation) : jsstring :=
  match op with
  | Research _ _ => str "Research agent"
  | Sentiment _ _ => str "Sentiment agent"
  | Portfolio _ _ => str "Portfolio agent"
  | LLM _ _ => str "LLM API"
  end.

End agentApi.

(** * Event handlers as state transformers *)

(** A handler runs on the component's state [S].  It ends normally, or a
    JavaScript exception leaves it (which [try]/[catch] can intercept), or
    a state updater that it queued throws while React renders: that error
    is raised outside the handler, no [catch] of the handler sees it, and
    the component is unmounted. *)
Inductive outcome (S A : Type) : Type :=
| Done (a : A) (s : S)
| Raised (e : exn) (s : S)
| Crashed (e : exn).
Arguments Done {S A} a s.
Arguments Raised {S A} e s.
Arguments Crashed {S A} e.

Definition action (S A : Type) : Type := S -> outcome S A.

Definition ret {S A} (a : A) : action S A := fun s => Done a s.

Definition seq {S A B} (m : action S A) (f : A -> action S B) : action S B :=
  fun s =>
    match m s with
    | Done a s' => f a s'
    | Raised e s' => Raised e s'
    | Crashed e => Crashed e
    end.

(** An expression that may throw. *)
Definition eval {S A} (r : result A) : action S A :=
  fun s =>
    match r with
    | Ok a => Done a s
    | Throw e => Raised e s
    end.

(** [try { body } catch (e) { handler }] *)
Definition try_catch {S A} (body : action S A) (handler : exn -> action S A)
  : action S A :=
  fun s =>
    match body s with
    | Done a s' => Done a s'
    | Raised e s' => handler e s'
    | Crashed e => Crashed e
    end.

(** [if (c) { m }] *)
Definition when {S} (c : bool) (m : action S unit) : action S unit :=
  if c then m else ret tt.

(** [items.forEach(f)] *)
Fixpoint forEach {S A} (f : A -> action S unit) (items : list A)
  : action S unit :=
  match items with
  | [] => ret tt
  | x :: rest => seq (f x) (fun _ => forEach f rest)
  end.

(** A state setter given an updater function [(prev) => next]: React runs
    the updater when it renders; an updater that throws crashes the view. *)
Definition update {S} (updater : S -> result S) : action S unit :=
  fun s =>
    match updater s with
    | Ok s' => Done tt s'
    | Throw e => Crashed e
    end.

(** A state setter given the next value. *)
Definition modify {S} (f : S -> S) : action S unit :=
  fun s => Done tt (f s).

Notation "'do' x <- m 'in' k" := (seq m (fun x => k))
  (at level 10, x name, m at level 100, k at level 200).
Notation "m ;; k" := (seq m (fun _ => k))
  (at level 100, k at level 200, right associativity).

(** * Regular expressions

    The fragment of ECMAScript patterns the sources use, all with the flag
    [i] and without [u] or [g], and the backtracking matcher of the
    language specification in continuation style. *)

Module RegExp.

(** A pattern for one code unit. *)
Inductive atom : Type :=
| Chr (c : N)             (* a pattern character *)
| Range (lo hi : N)       (* the class [lo-hi], of upper-case letters *)
| Space.                  (* the class \s *)

Inductive regex : Type :=
| Empty
| Atom (a : atom)
| Plus (a : atom)         (* a+, greedy *)
| Seq (r1 r2 : regex)
| Alt (r1 r2 : regex)
| Group (n : nat) (r : regex).

(** [Canonicalize] under the flag [i] (see [upper_unit]). *)
Definition canonicalize (c : N) : N := upper_unit c.

(** A unit matches when its canonical form is that of the pattern character,
    or of a member of the class.  The members of a range of upper-case
    letters and the white-space units are their own canonical forms. *)
Definition atom_matches (a : atom) (c : N) : bool :=
  match a with
  | Chr p => canonicalize c =? canonicalize p
  | Range lo hi => (lo <=? canonicalize c) && (canonicalize c <=? hi)
  | Space => is_space c
  end.

(** The state of a match: the input still to read, the index reached, and
    the captures made so far. *)
Definition cont : Type :=
  jsstring -> nat -> gmap nat jsstring -> option (nat * gmap nat jsstring).

(** The iterations of [a+] after the first: one more unit if the rest of
    the pattern then matches, else the rest of the pattern from here. *)
Fixpoint star (a : atom) (k : cont) (s : jsstring) (pos : nat)
  (caps : gmap nat jsstring) : option (nat * gmap nat jsstring) :=
  match s with
  | c :: s' =>
      if atom_matches a c
      then match star a k s' (S pos) caps with
           | Some r => Some r
           | None => k s pos caps
           end
      else k s pos caps
  | [] => k s pos caps
  end.

Fixpoint matcher (r : regex) (k : cont) {struct r} : cont :=
  fun s pos caps =>
    match r with
    | Empty => k s pos caps
    | Atom a =>
        match s with
        | c :: s' => if atom_matches a c then k s' (S pos) caps else None
        | [] => None
        end
    | Plus a =>
        match s with
        | c :: s' => if atom_matches a c then star a k s' (S pos) caps else None
        | [] => None
        end
    | Seq r1 r2 => matcher r1 (matcher r2 k) s pos caps
    | Alt r1 r2 =>
        match matcher r1 k s pos caps with
        | Some m => Some m
        | None => matcher r2 k s pos caps
        end
    | Group n r' =>
        matcher r'
          (fun s' pos' caps' => k s' pos' (<[n := take (pos' - pos) s]> caps'))
          s pos caps
    end.

(** The continuation at the end of a pattern: the match is done. *)
Definition final : cont := fun _ e caps => Some (e, caps).

(** The array [exec] returns: [m.index], and [m[0]], [m[1]], ... as the
    entries 0, 1, ... of [captures]; a group that took no part is absent. *)
Record match_result := MatchResult {
  index : nat;
  captures : gmap nat jsstring
}.

(** The match is tried at each index from [pos] on; [s] is the input from
    [pos]. *)
Fixpoint search (r : regex) (s : jsstring) (pos : nat) : option match_result :=
  match matcher r final s pos ∅ with
  | Some (e, caps) =>
      Some {| index := pos; captures := <[0%nat := take (e - pos) s]> caps |}
  | None =>
      match s with
      | [] => None
      | _ :: s' => search r s' (S pos)
      end
  end.

(** [s.match(r)] for a pattern without the flag [g]. *)
Definition exec (r : regex) (s : jsstring) : option match_result :=
  search r s 0.

Definition literal (s : jsstring) : regex :=
  fold_right (fun c r => Seq (Atom (Chr c)) r) Empty s.

End RegExp.

(** * [components/ResearchAgent.jsx] *)

Module ResearchAgent.

Record message := Message {
  id : Z;
  type : jsstring;
  content : value
}.

(** The component's [useState] cells. *)
Record State := mkState {
  messages : list message;
  steps : value;
  finalAns : value;
  loading : bool;
  exporting : bool;
  query : jsstring;
  ticker : jsstring;
  collapsedSteps : gmap N value
}.

Definition initial : State :=
  {| messages := []; steps := VArr []; finalAns := VStr [];
     loading := false; exporting := false;
     query := []; ticker := []; collapsedSteps := ∅ |}.

Definition setMessages (f : list message -> list message) (st : State) : State :=
  mkState (f (messages st)) (steps st) (finalAns st) (loading st)
          (exporting st) (query st) (ticker st) (collapsedSteps st).

Definition setSteps (v : value) (st : State) : State :=
  mkState (messages st) v (finalAns st) (loading st)
          (exporting st) (query st) (ticker st) (collapsedSteps st).

Definition setFinalAns (v : value) (st : State) : State :=
  mkState (messages st) (steps st) v (loading st)
          (exporting st) (query st) (ticker st) (collapsedSteps st).

Definition setLoading (b : bool) (st : State) : State :=
  mkState (messages st) (steps st) (finalAns st) b
          (exporting st) (query st) (ticker st) (collapsedSteps st).

Definition setExporting (b : bool) (st : State) : State :=
  mkState (messages st) (steps st) (finalAns st) (loading st)
          b (query st) (ticker st) (collapsedSteps st).

Definition setQuery (s : jsstring) (st : State) : State :=
  mkState (messages st) (steps st) (finalAns st) (loading st)
          (exporting st) s (ticker st) (collapsedSteps st).

Definition setTicker (s : jsstring) (st : State) : State :=
  mkState (messages st) (steps st) (finalAns st) (loading st)
          (exporting st) (query st) s (collapsedSteps st).

Definition setCollapsedSteps (f : gmap N value -> gmap N value) (st : State)
  : State :=
  mkState (messages st) (steps st) (finalAns st) (loading st)
          (exporting st) (query st) (ticker st) (f (collapsedSteps st)).

(** [prev[index]] on the object of collapse flags. *)
Definition flag_entry (m : gmap N value) (index : N) : value :=
  default VUndefined (m !! index).

(** [collapsed={!!collapsedSteps[index]}], what a [StepItem] is shown with. *)
Definition collapsed (m : gmap N value) (index : N) : bool :=
  truthy (flag_entry m index).

Definition toggleStep (index : N) (st : State) : State :=
  setCollapsedSteps
    (fun prev => <[index := VBool (negb (truthy (flag_entry prev index)))]> prev)
    st.

(** [!s.trim()] *)
Definition blank (s : jsstring) : bool :=
  match trim s with [] => true | _ => false end.

(** ** [runAgent] *)

(** Up to the [await]: the guard, the user's message, the reset of the
    trace, and the request that is sent.  [now] is the reading of
    [Date.now()].  [None] is the early [return]. *)
Definition runAgent_start (now : Z) (st : State)
  : option (State * agentApi.call value) :=
  if blank (query st) || blank (ticker st) then None
  else
    let userMessage :=
      {| id := now;
         type := str "user";
         content := VStr (str "Ticker: " ++ ticker st ++ [LF]
                          ++ str "Query: " ++ query st) |} in
    let st := setMessages (fun prev => prev ++ [userMessage]) st in
    let st := setSteps (VArr []) st in
    let st := setFinalAns (VStr []) st in
    let st := setLoading true st in
    Some (st, agentApi.runResearchAgent (VStr (ticker st)) (VStr (query st))).

(** From the [await] on: [awaited] is what the call settled with, [now] the
    reading of [Date.now()] in the updater that appends a message. *)
Definition runAgent_settle (awaited : result value) (now : Z)
  : action State unit :=
  try_catch
    (do res <- eval awaited in
     do steps <- eval (data_field res (str "steps")) in
     when (truthy steps) (modify (setSteps steps)) ;;
     do ai_summary <- eval (data_field res (str "ai_summary")) in
     when (truthy ai_summary)
       (modify (setFinalAns ai_summary) ;;
        modify (setMessages (fun prev =>
          prev ++ [{| id := now + 1; type := str "agent";
                      content := ai_summary |}]))))
    (fun error =>
       modify (setMessages (fun prev =>
         prev ++ [{| id := now + 2; type := str "error";
                     content := VStr (str "Research Agent crashed. Try again.") |}])))
  ;;
  modify (setLoading false).

(** ** [runGemini] and [runGroq] *)

Definition runGemini_start (st : State)
  : option (State * agentApi.call value) :=
  if blank (query st) then None
  else Some (setLoading true st, agentApi.runGeminiLLM (VStr (query st))).

(** There is no [try] here: a rejected call leaves the handler at the
    [await].  The message object is built inside the updater, so
    [res.response] is read while React renders. *)
Definition runGemini_settle (awaited : result value) (now : Z)
  : action State unit :=
  do res <- eval awaited in
  update (fun st =>
    let* response := get res (str "response") in
    Ok (setMessages (fun prev =>
          prev ++ [{| id := now; type := str "agent"; content := response |}])
        st)) ;;
  modify (setLoading false).

Definition runGroq_start (st : State)
  : option (State * agentApi.call value) :=
  if blank (query st) then None
  else Some (setLoading true st, agentApi.runGroqLLM (VStr (query st))).

Definition runGroq_settle (awaited : result value) (now : Z)
  : action State unit :=
  do res <- eval awaited in
  update (fun st =>
    let* response := get res (str "response") in
    Ok (setMessages (fun prev =>
          prev ++ [{| id := now; type := str "agent"; content := response |}])
        st)) ;;
  modify (setLoading false).

(** ** The handlers, run to their end

    A handler with nothing else happening between its two halves: the call
    it sends is run against the network [net]. *)

Definition runAgent (net : agentApi.network) (now now' : Z)
  : action State unit :=
  fun st =>
    match runAgent_start now st with
    | None => Done tt st
    | Some (st', call) =>
        runAgent_settle (fst (agentApi.run net call)) now' st'
    end.

Definition runGemini (net : agentApi.network) (now : Z) : action State unit :=
  fun st =>
    match runGemini_start st with
    | None => Done tt st
    | Some (st', call) =>
        runGemini_settle (fst (agentApi.run net call)) now st'
    end.

Definition runGroq (net : agentApi.network) (now : Z) : action State unit :=
  fun st =>
    match runGroq_start st with
    | None => Done tt st
    | Some (st', call) =>
        runGroq_settle (fst (agentApi.run net call)) now st'
    end.

(** ** [handleExportPdf] *)

(** What the handler touches outside the component: the console, the
    blocking [alert] dialogs, and the files offered for download. *)
Record Browser := mkBrowser {
  console_errors : list exn;
  alerts : list jsstring;
  downloads : list jsstring
}.

(** The library calls of the [try] block, in the order they are made, each
    with what it does in this run: it returns, or it throws. *)
Record pdf_calls := PdfCalls {
  html2canvas : result unit;
  toDataURL : result unit;
  new_jsPDF : result unit;
  getImageProperties : result unit;
  getWidth : result unit;
  addImage : result unit;
  save : result unit
}.

Definition on_state (f : State -> State) (w : State * Browser)
  : State * Browser := (f (fst w), snd w).

Definition console_error (e : exn) (w : State * Browser) : State * Browser :=
  (fst w, mkBrowser (console_errors (snd w) ++ [e]) (alerts (snd w))
                    (downloads (snd w))).

Definition alert (text : jsstring) (w : State * Browser) : State * Browser :=
  (fst w, mkBrowser (console_errors (snd w)) (alerts (snd w) ++ [text])
                    (downloads (snd w))).

Definition download (file : jsstring) (w : State * Browser) : State * Browser :=
  (fst w, mkBrowser (console_errors (snd w)) (alerts (snd w))
                    (downloads (snd w) ++ [file])).

(** Up to the [await]; [mounted] says whether [pdfRef.current] is set. *)
Definition handleExportPdf_start (mounted : bool) (st : State) : option State :=
  if negb mounted then None else Some (setExporting true st).

Definition handleExportPdf_settle (lib : pdf_calls)
  : action (State * Browser) unit :=
  try_catch
    (eval (html2canvas lib) ;;
     eval (toDataURL lib) ;;
     eval (new_jsPDF lib) ;;
     eval (getImageProperties lib) ;;
     eval (getWidth lib) ;;
     eval (addImage lib) ;;
     eval (save lib) ;;
     modify (download (str "research-report.pdf")))
    (fun e =>
       modify (console_error e) ;;
       modify (alert (str "Failed to export PDF")))
  ;;
  modify (on_state (setExporting false)).

Definition handleExportPdf (mounted : bool) (lib : pdf_calls)
  : action (State * Browser) unit :=
  fun w =>
    match handleExportPdf_start mounted (fst w) with
    | None => Done tt w
    | Some st' => handleExportPdf_settle lib (st', snd w)
    end.

(** ** [StepItem] and [ChartCard] *)

(** The operand [a && <element>] of a JSX expression: the element when [a]
    is truthy, else [a] itself. *)
Inductive slot (A : Type) : Type :=
| Mounted (a : A)
| Falsy (v : value).
Arguments Mounted {A} a.
Arguments Falsy {A} v.

Inductive chart_view : Type :=
| NoChartData
| LineChart (data xKey yKey : value).

(** [v.length]: the length of an array or a string, [undefined] on
    another value, a [TypeError] on [undefined] and [null]. *)
Definition get_length (v : value) : result (option nat) :=
  match v with
  | VUndefined | VNull => Throw (nullish_read v (str "length"))
  | VArr items => Ok (Some (length items))
  | VStr s => Ok (Some (length s))
  | _ => Ok None
  end.

(** The three tests of the guard are made from left to right, and
    [data.length] is read only when the first two have failed. *)
Definition ChartCard (data xKey yKey : value) : result chart_view :=
  if negb (truthy data) then Ok NoChartData
  else if negb (isArray data) then Ok NoChartData
  else
    let* len := get_length data in
    match len with
    | Some 0%nat => Ok NoChartData
    | _ => Ok (LineChart data xKey yKey)
    end.

Record step_body := StepBody {
  markdown : slot value;
  chart : slot chart_view
}.

Record step_view := StepView {
  step_number : N;
  title : value;
  toggle_label : jsstring;
  body : option step_body
}.

(** [a === b] against a string literal *)
Definition strict_eq_str (a : value) (lit : jsstring) : bool :=
  match a with VStr s => jsstring_eqb s lit | _ => false end.

(** The children are rendered with their parent: an exception in
    [ChartCard] is an exception of the step. *)
Definition StepItem (step : value) (index : N) (collapsed : bool)
  : result step_view :=
  let* type := get step (str "type") in
  let* isChart :=
    if strict_eq_str type (str "chart")
    then get step (str "chartData")
    else Ok (VBool false) in
  let* body :=
    if negb collapsed
    then
      let* content := get step (str "content") in
      let* chart :=
        if truthy isChart
        then
          let* xKey := get step (str "xKey") in
          let* yKey := get step (str "yKey") in
          let* view := ChartCard isChart (js_or xKey (VStr (str "x")))
                                 (js_or yKey (VStr (str "y"))) in
          Ok (Mounted view)
        else Ok (Falsy isChart) in
      Ok (Some {| markdown := if truthy content then Mounted content
                              else Falsy content;
                  chart := chart |})
    else Ok None in
  Ok {| step_number := index + 1;
        title := js_or type (VStr (str "step"));
        toggle_label := if collapsed then str "Expand" else str "Collapse";
        body := body |}.

(** ** A session of the component *)

(** What happens to a mounted component, one event at a time: edits of the
    two inputs, clicks, and the settling of calls that are in flight. *)
Inductive event : Type :=
| Type_query (s : jsstring)
| Type_ticker (s : jsstring)
| Toggle (index : N)
| RunAgent_click (now : Z)
| RunAgent_settles (awaited : result value) (now : Z)
| RunGemini_click
| RunGemini_settles (awaited : result value) (now : Z)
| RunGroq_click
| RunGroq_settles (awaited : result value) (now : Z)
| Export_click
| Export_settles (lib : pdf_calls).

(** What a handler leaves behind: [None] once the view has crashed. *)
Definition after {S A} (o : outcome S A) : option S :=
  match o with
  | Done _ s => Some s
  | Raised _ s => Some s
  | Crashed _ => None
  end.

Definition started {A} (st : State) (o : option (State * A)) : State :=
  match o with
  | Some (st', _) => st'
  | None => st
  end.

Definition step (w : State * Browser) (ev : event) : option (State * Browser) :=
  let st := fst w in
  let in_state (o : option State) := st' ← o; Some (st', snd w) in
  match ev with
  | Type_query s => Some (on_state (setQuery s) w)
  | Type_ticker s => Some (on_state (setTicker s) w)
  | Toggle i => Some (on_state (toggleStep i) w)
  | RunAgent_click now =>
      Some (started st (runAgent_start now st), snd w)
  | RunAgent_settles awaited now =>
      in_state (after (runAgent_settle awaited now st))
  | RunGemini_click => Some (started st (runGemini_start st), snd w)
  | RunGemini_settles awaited now =>
      in_state (after (runGemini_settle awaited now st))
  | RunGroq_click => Some (started st (runGroq_start st), snd w)
  | RunGroq_settles awaited now =>
      in_state (after (runGroq_settle awaited now st))
  | Export_click => Some (default st (handleExportPdf_start true st), snd w)
  | Export_settles lib => after (handleExportPdf_settle lib w)
  end.

Fixpoint session (w : State * Browser) (evs : list event)
  : option (State * Browser) :=
  match evs with
  | [] => Some w
  | ev :: rest =>
      match step w ev with
      | Some w' => session w' rest
      | None => None
      end
  end.

(** ** Notions the properties are stated with *)

(** What a chart shows for its data: the line chart when the data is an
    array with an element, the placeholder "No chart data" otherwise. *)
Definition chart_shown (data xKey yKey : value) : chart_view :=
  match data with
  | VArr (_ :: _) => LineChart data xKey yKey
  | _ => NoChartData
  end.

Definition calls_in_order (lib : pdf_calls) : list (result unit) :=
  [html2canvas lib; toDataURL lib; new_jsPDF lib; getImageProperties lib;
   getWidth lib; addImage lib; save lib].

(** The exception of the first call that throws, if one does. *)
Fixpoint first_failure (calls : list (result unit)) : option exn :=
  match calls with
  | [] => None
  | Ok _ :: rest => first_failure rest
  | Throw e :: _ => Some e
  end.

(** The events of a research run: its start and its settling. *)
Definition research_event (ev : event) : bool :=
  match ev with
  | RunAgent_click _ | RunAgent_settles _ _ => true
  | _ => false
  end.

(** The trace and the answer on display are those of the run that settled
    with [awaited]: each is empty, or is what that run's response holds. *)
Definition belongs_to (awaited : result value) (st : State) : Prop :=
  match awaited with
  | Ok res =>
      (steps st = VArr [] \/ steps st = response_field res (str "steps"))
      /\ (finalAns st = VStr []
          \/ finalAns st = response_field res (str "ai_summary"))
  | Throw _ => steps st = VArr [] /\ finalAns st = VStr []
  end.

(** The reading of [Date.now()] an event makes, if it makes one. *)
Definition clock_reading (ev : event) : option Z :=
  match ev with
  | RunAgent_click now | RunAgent_settles _ now
  | RunGemini_settles _ now | RunGroq_settles _ now => Some now
  | _ => None
  end.

(** The id of [m] is above every id of [log]. *)
Definition fresh_id (log : list message) (m : message) : Prop :=
  Forall (fun m' => (id m' < id m)%Z) log.

(** Each message's id is above the ids of all messages before it. *)
Fixpoint ids_increase (log : list message) : Prop :=
  match log with
  | [] => True
  | m :: rest => Forall (fun m' => (id m < id m')%Z) rest /\ ids_increase rest
  end.

(** The readings of the clock along [evs] are spaced: each is above
    [bound], and the next ones are more than two above it. *)
Fixpoint spaced (bound : Z) (evs : list event) : Prop :=
  match evs with
  | [] => True
  | ev :: rest =>
      match clock_reading ev with
      | Some now => (bound < now)%Z /\ spaced (now + 2) rest
      | None => spaced bound rest
      end
  end.

(** ** Sample responses *)

Definition tool_step (text : string) : value :=
  VObj [(str "type", VStr (str "tool")); (str "content", VStr (str text))].

(** [{data: {steps: [{type: "tool", content: "fetched price"}],
             ai_summary: "Buy signal"}}] *)
Definition response_with_summary : value :=
  VObj [(str "data",
         VObj [(str "steps", VArr [tool_step "fetched price"]);
               (str "ai_summary", VStr (str "Buy signal"))])].

(** [{data: {steps: [{type: "tool", content: "fetched news"}]}}] *)
Definition response_steps_only : value :=
  VObj [(str "data", VObj [(str "steps", VArr [tool_step "fetched news"])])].

(** [{data: {recommendations: ["Buy", "Hold"]}}] *)
Definition response_recommendations : value :=
  VObj [(str "data",
         VObj [(str "recommendations",
                VArr [VStr (str "Buy"); VStr (str "Hold")])])].

Definition fresh_page : State * Browser := (initial, mkBrowser [] [] []).

(** ** [AgentMessage] and what the component returns *)

Inductive bubble : Type :=
| UserBubble (content : value)      (* on the right, plain text *)
| AgentBubble (content : value)     (* on the left, rendered as markdown *)
| ErrorBubble (content : value).    (* in the centre, plain text *)

(** [null] for a type that is none of the three. *)
Definition AgentMessage (type : jsstring) (content : value) : option bubble :=
  if jsstring_eqb type (str "user") then Some (UserBubble content)
  else if jsstring_eqb type (str "agent") then Some (AgentBubble content)
  else if jsstring_eqb type (str "error") then Some (ErrorBubble content)
  else None.

(** The [StepItem]s of the trace, the one at [index] first. *)
Fixpoint step_items (items : list value) (index : N) (flags : gmap N value)
  : result (list step_view) :=
  match items with
  | [] => Ok []
  | step :: rest =>
      let* item := StepItem step index (collapsed flags index) in
      let* others := step_items rest (index + 1) flags in
      Ok (item :: others)
  end.

(** [steps.map((step, index) => <StepItem ... />)] on the state cell, which
    holds whatever a response gave as [data.steps]. *)
Definition steps_map (steps : value) (flags : gmap N value)
  : result (list step_view) :=
  match steps with
  | VArr items => step_items items 0 flags
  | VUndefined | VNull => Throw (nullish_read steps (str "map"))
  | _ => Throw (not_a_function (str "steps.map"))
  end.

(** What the component functions return: the two buttons whose label and
    [disabled] depend on the state, the two inputs, the chat pane (each
    message under its key) and the trace pane.  A view records the values
    handed to React and to [ReactMarkdown] as children; what these make of
    a child is not modelled.  An exception of [render] is one the
    component functions themselves throw; [steps.length] is read before
    [steps.map], and a plain object never passes both (its [map] is no
    function), so that [get_length] treats an object's [length] as absent
    does not show. *)
Record workspace := Workspace {
  export_label : jsstring;
  export_disabled : bool;
  ticker_value : jsstring;
  query_value : jsstring;
  run_label : jsstring;
  run_disabled : bool;
  chat_hint : bool;
  chat : list (Z * option bubble);
  typing : bool;
  steps_hint : bool;
  trace : list step_view;
  skeleton : bool
}.

Definition render (st : State) : result workspace :=
  let* steps_length := get_length (steps st) in
  let* trace := steps_map (steps st) (collapsedSteps st) in
  Ok {| export_label := if exporting st then str "Exporting..."
                        else str "Export as PDF";
        export_disabled := exporting st;
        ticker_value := ticker st;
        query_value := query st;
        run_label := if loading st then str "Running..."
                     else str "Run Research Agent";
        run_disabled := loading st;
        chat_hint := (length (messages st) =? 0)%nat && negb (loading st);
        chat := map (fun msg => (id msg, AgentMessage (type msg) (content msg)))
                    (messages st);
        typing := loading st;
        steps_hint := match steps_length with
                      | Some 0%nat => negb (loading st)
                      | _ => false
                      end;
        trace := trace;
        skeleton := loading st |}.

(** [onKeyDown] of the query field: Enter starts a run, whatever the
    loading flag says. *)
Definition onKeyDown (key : jsstring) (now : Z) (st : State)
  : option (State * agentApi.call value) :=
  if jsstring_eqb key (str "Enter") then runAgent_start now st else None.

(** The three types the handlers give a message. *)
Definition known_type (t : jsstring) : Prop :=
  t = str "user" \/ t = str "agent" \/ t = str "error".

(** The final answer is empty, or it is the content of an agent's message
    of the log. *)
Definition answer_in_log (st : State) : Prop :=
  finalAns st = VStr []
  \/ exists m, In m (messages st) /\ type m = str "agent"
               /\ content m = finalAns st.

(** A step the trace pane can render: any value but [null]. *)
Definition renderable_steps (steps : value) : Prop :=
  exists items, steps = VArr items /\ Forall (fun s => nullish s = false) items.

(** The events in which a call that was in flight settles. *)
Definition settles (ev : event) : bool :=
  match ev with
  | RunAgent_settles _ _ | RunGemini_settles _ _ | RunGroq_settles _ _ => true
  | _ => false
  end.

(** How the id and the type of a message follow from the event that logs
    it: the reading of the clock the event makes, plus 0 for the user's
    message of a click on the run button and for the answer of the Gemini
    or the Groq call, plus 1 for the summary of a research run, plus 2 for
    the failure of a research run; no other event logs a message. *)
Definition id_rule (ev : event) (m : message) : Prop :=
  match ev with
  | RunAgent_click now => id m = now /\ type m = str "user"
  | RunAgent_settles awaited now =>
      (id m = (now + 1)%Z /\ type m = str "agent"
       /\ exists res, awaited = Ok res
                      /\ content m = response_field res (str "ai_summary"))
      \/ (id m = (now + 2)%Z /\ type m = str "error"
          /\ content m = VStr (str "Research Agent crashed. Try again."))
  | RunGemini_settles awaited now | RunGroq_settles awaited now =>
      id m = now /\ type m = str "agent"
      /\ exists res, awaited = Ok res
                     /\ content m = get_opt res (str "response")
  | _ => False
  end.

End ResearchAgent.

(** * [components/FloatingAgent.jsx] *)

Module FloatingAgent.

Import RegExp.

Record message := Message {
  type : value;
  content : value
}.

Record State := mkState {
  open : bool;
  messages : list message;
  input : jsstring;
  isThinking : bool
}.

Definition initial : State :=
  {| open := false; messages := []; input := []; isThinking := false |}.

Definition setOpen (b : bool) (st : State) : State :=
  mkState b (messages st) (input st) (isThinking st).

Definition setMessages (f : list message -> list message) (st : State) : State :=
  mkState (open st) (f (messages st)) (input st) (isThinking st).

Definition setInput (s : jsstring) (st : State) : State :=
  mkState (open st) (messages st) s (isThinking st).

Definition setIsThinking (b : bool) (st : State) : State :=
  mkState (open st) (messages st) (input st) b.

(** [/([A-Z]+\.(NS|BO))/i] *)
Definition ticker_pattern : regex :=
  Group 1 (Seq (Plus (Range 65 90))
          (Seq (Atom (Chr 46))
               (Group 2 (Alt (literal (str "NS")) (literal (str "BO")))))).

(** [/analyze\s+([A-Z]+)/i] *)
Definition analyze_pattern : regex :=
  Seq (literal (str "analyze"))
      (Seq (Plus Space) (Group 1 (Plus (Range 65 90)))).

(** [m[n]] *)
Definition capture (m : match_result) (n : nat) : value :=
  match captures m !! n with
  | Some s => VStr s
  | None => VUndefined
  end.

(** [s.replace(pattern, empty)] with an entry of a match as the pattern: a
    string, or [undefined] for an entry that is absent, which [replace]
    converts to the string "undefined".  No entry of a match is an object,
    so this conversion does not throw. *)
Definition replace_empty (s : jsstring) (pattern : option jsstring) : jsstring :=
  remove_first (default (str "undefined") pattern) s.

(** [v?.toUpperCase()] on a capture *)
Definition opt_toUpperCase (v : value) : value :=
  match v with
  | VStr s => VStr (toUpperCase s)
  | _ => VUndefined
  end.

(** Where an input is sent: to the research operation, or to the generic
    LLM operation. *)
Inductive route : Type :=
| ToResearch (ticker query : value)
| ToLLM (model prompt : value).

Definition default_query : jsstring := str "Provide a comprehensive analysis".

Definition classify (userInput : jsstring) : route :=
  let tickerMatch :=
    match exec ticker_pattern userInput with
    | Some m => Some m
    | None => exec analyze_pattern userInput
    end in
  match tickerMatch with
  | Some m =>
      let ticker := js_or (opt_toUpperCase (capture m 1)) (capture m 1) in
      let query :=
        js_or (VStr (trim (replace_empty userInput (captures m !! 0%nat))))
              (VStr default_query) in
      ToResearch ticker query
  | None => ToLLM (VStr (str "auto")) (VStr userInput)
  end.

Definition request_of (r : route) : agentApi.call value :=
  match r with
  | ToResearch ticker query => agentApi.runResearchAgent ticker query
  | ToLLM model prompt => agentApi.runLLM model prompt
  end.

Definition blank (s : jsstring) : bool :=
  match trim s with [] => true | _ => false end.

(** ** [sendMessage] *)

(** Up to the [await]: the guard, the user's message, and the choice of the
    operation.  [None] is the early [return]. *)
Definition sendMessage_start (st : State) : option (State * route) :=
  if blank (input st) then None
  else
    let userMsg := {| type := VStr (str "user"); content := VStr (input st) |} in
    let userInput := trim (input st) in
    let st := setMessages (fun prev => prev ++ [userMsg]) st in
    let st := setInput [] st in
    let st := setIsThinking true st in
    Some (st, classify userInput).

Definition append (m : message) : State -> State :=
  setMessages (fun prev => prev ++ [m]).

(** [res.data.steps.forEach(...)]: each message object is built inside its
    updater, where [s.type] is read. *)
Definition show_steps (steps : value) : action State unit :=
  match steps with
  | VArr items =>
      forEach (fun s =>
        update (fun st =>
          let* type := get s (str "type") in
          let* content := get s (str "content") in
          Ok (append {| type := js_or type (VStr (str "step"));
                        content := content |} st)))
        items
  | _ => eval (Throw (not_a_function (str "res.data.steps.forEach")))
  end.

(** [res.data.recommendations.join("\n")] *)
Definition join_lines (recommendations : value) : result jsstring :=
  match recommendations with
  | VArr items => join [LF] items
  | _ => Throw (not_a_function (str "res.data.recommendations.join"))
  end.

Definition research_branch (awaited : result value) : action State unit :=
  do res <- eval awaited in
  do steps <- eval (data_field res (str "steps")) in
  when (truthy steps) (show_steps steps) ;;
  do ai_summary <- eval (data_field res (str "ai_summary")) in
  do summary' <- eval (data_field res (str "summary")) in
  let summary := js_or ai_summary summary' in
  if truthy summary
  then modify (append {| type := VStr (str "agent"); content := summary |})
  else
    do recommendations <- eval (data_field res (str "recommendations")) in
    when (truthy recommendations)
      (update (fun st =>
         let* lines := join_lines recommendations in
         Ok (append {| type := VStr (str "agent");
                       content := VStr (str "**Recommendations:**" ++ [LF]
                                        ++ lines) |} st))).

Definition llm_branch (awaited : result value) : action State unit :=
  do res <- eval awaited in
  do success <- eval (get res (str "success")) in
  do response <- eval (get res (str "response")) in
  if truthy success && truthy response
  then modify (append {| type := VStr (str "agent"); content := response |})
  else
    do error <- eval (get res (str "error")) in
    modify (append {| type := VStr (str "error");
                      content := js_or error
                                   (VStr (str "Failed to get response")) |}).

(** The warning sign U+26A0 with the variation selector U+FE0F. *)
Definition warning_sign : jsstring := [9888; 65039].

(** [err.message || "Agent failed. Try again."] *)
Definition describe (err : exn) : jsstring :=
  match exn_message err with
  | [] => str "Agent failed. Try again."
  | msg => msg
  end.

(** From the [await] on, for the operation [r] chosen before it. *)
Definition sendMessage_settle (r : route) (awaited : result value)
  : action State unit :=
  try_catch
    (match r with
     | ToResearch _ _ => research_branch awaited
     | ToLLM _ _ => llm_branch awaited
     end)
    (fun err =>
       modify (append {| type := VStr (str "error");
                         content := VStr (warning_sign ++ str " Error: "
                                          ++ describe err) |}))
  ;;
  modify (setIsThinking false).

Definition sendMessage (net : agentApi.network) : action State unit :=
  fun st =>
    match sendMessage_start st with
    | None => Done tt st
    | Some (st', r) =>
        sendMessage_settle r (fst (agentApi.run net (request_of r))) st'
    end.

(** ** Notions the properties are stated with *)

(** *** The two recognizers, in words *)

(** A non-empty run of ASCII letters. *)
Definition letters (L : jsstring) : Prop :=
  L <> [] /\ Forall (fun c => is_letter c = true) L.

(** Letters, a dot, and the market suffix NS or BO in either case. *)
Definition ticker_token (m : jsstring) : Prop :=
  exists L suf,
    m = L ++ [46] ++ suf /\ letters L
    /\ (toUpperCase suf = str "NS" \/ toUpperCase suf = str "BO").

(** The word "analyze" in either case, white space, and the letters [T]. *)
Definition analyze_phrase (m T : jsstring) : Prop :=
  exists A W,
    m = A ++ W ++ T /\ toUpperCase A = str "ANALYZE"
    /\ W <> [] /\ Forall (fun c => is_space c = true) W /\ letters T.

(** [m] is the first ticker token of [s], between [pre] and [post]. *)
Definition first_ticker (s pre m post : jsstring) : Prop :=
  s = pre ++ m ++ post /\ ticker_token m
  /\ forall pre' m' post',
       s = pre' ++ m' ++ post' -> ticker_token m' ->
       (length pre <= length pre')%nat.

Definition no_ticker (s : jsstring) : Prop :=
  forall pre m post, s = pre ++ m ++ post -> ~ ticker_token m.

(** [post] does not go on with a letter. *)
Definition free_end (post : jsstring) : Prop :=
  match post with c :: _ => is_letter c = false | [] => True end.

(** [m] is the first phrase "analyze T" of [s], with all the letters that
    follow taken into [T]. *)
Definition first_analyze (s pre m T post : jsstring) : Prop :=
  s = pre ++ m ++ post /\ analyze_phrase m T
  /\ free_end post
  /\ forall pre' m' T' post',
       s = pre' ++ m' ++ post' -> analyze_phrase m' T' ->
       (length pre <= length pre')%nat.

Definition no_analyze (s : jsstring) : Prop :=
  forall pre m T post, s = pre ++ m ++ post -> ~ analyze_phrase m T.

(** The query that is sent: the remainder, or the default when it is
    empty. *)
Definition query_or_default (q : jsstring) : jsstring :=
  match q with [] => default_query | _ :: _ => q end.

(** *** The two recognizers, as scans

    What each pattern decides at the start of [s], written without the
    matcher, and the search for the first index where it succeeds.  The
    properties below relate the matcher to these, and these to the
    recognizers in words. *)

Definition ticker_here (s : jsstring) : option jsstring :=
  let '(L, rest) := span is_letter s in
  match L with
  | [] => None
  | _ :: _ =>
      match strip_ci [46] rest with
      | None => None
      | Some r1 =>
          match (match strip_ci (str "NS") r1 with
                 | Some r2 => Some r2
                 | None => strip_ci (str "BO") r1
                 end) with
          | Some _ => Some (take (length L + 3) s)
          | None => None
          end
      end
  end.

Definition analyze_here (s : jsstring) : option (jsstring * jsstring) :=
  match strip_ci (str "analyze") s with
  | None => None
  | Some r0 =>
      let '(W, r1) := span is_space r0 in
      match W with
      | [] => None
      | _ :: _ =>
          let '(T, _) := span is_letter r1 in
          match T with
          | [] => None
          | _ :: _ => Some (take (7 + length W + length T) s, T)
          end
      end
  end.

Fixpoint scan {A} (here : jsstring -> option A) (s : jsstring)
  : option (jsstring * A) :=
  match here s with
  | Some a => Some ([], a)
  | None =>
      match s with
      | [] => None
      | c :: s' =>
          match scan here s' with
          | Some (pre, a) => Some (c :: pre, a)
          | None => None
          end
      end
  end.

(** The message a step of the response is shown as. *)
Definition step_message (s : value) : message :=
  {| type := js_or (get_opt s (str "type")) (VStr (str "step"));
     content := get_opt s (str "content") |}.

(** What the research branch appends after the steps; [lines] is the list
    of recommendations joined with newlines. *)
Definition research_tail (res : value) (lines : jsstring) : list message :=
  let summary := js_or (response_field res (str "ai_summary"))
                       (response_field res (str "summary")) in
  if truthy summary
  then [{| type := VStr (str "agent"); content := summary |}]
  else if truthy (response_field res (str "recommendations"))
  then [{| type := VStr (str "agent");
           content := VStr (str "**Recommendations:**" ++ [LF] ++ lines) |}]
  else [].

(** ** [MessageBubble] and what the component returns *)

Inductive bubble : Type :=
| UserBubble (content : value)
| AgentBubble (content : value)               (* markdown *)
| ErrorBubble (content : value)
| StepBubble (label content : value).         (* the type in bold, markdown *)

Definition strict_eq_str (a : value) (lit : jsstring) : bool :=
  match a with VStr s => jsstring_eqb s lit | _ => false end.

Definition MessageBubble (type content : value) : bubble :=
  if strict_eq_str type (str "user") then UserBubble content
  else if strict_eq_str type (str "agent") then AgentBubble content
  else if strict_eq_str type (str "error") then ErrorBubble content
  else StepBubble type content.

Record panel := Panel {
  visible : bool;
  bubbles : list bubble;
  thinking : bool;
  input_value : jsstring
}.

Definition render (st : State) : panel :=
  {| visible := open st;
     bubbles := map (fun m => MessageBubble (type m) (content m)) (messages st);
     thinking := isThinking st;
     input_value := input st |}.

(** The floating button and the close button. *)
Definition toggle_panel (st : State) : State := setOpen (negb (open st)) st.
Definition close_panel (st : State) : State := setOpen false st.

(** [onKeyDown] of the input: Enter sends. *)
Definition onKeyDown (key : jsstring) (net : agentApi.network)
  : action State unit :=
  if jsstring_eqb key (str "Enter") then sendMessage net else ret tt.

(** No white space at either end. *)
Definition trimmed (q : jsstring) : Prop :=
  match q with c :: _ => is_space c = false | [] => True end
  /\ match rev q with c :: _ => is_space c = false | [] => True end.

(** An upper-case ASCII letter or a dot. *)
Definition upper_or_dot (c : N) : bool := is_upper c || (c =? 46).

(** [st'] is [st] with messages appended to its log. *)
Definition grows (st st' : State) : Prop :=
  open st' = open st /\ input st' = input st /\ isThinking st' = isThinking st
  /\ exists new, messages st' = messages st ++ new.

(** An action that only appends messages, however it ends. *)
Definition appends_only {A} (m : action State A) : Prop :=
  forall st,
    match m st with
    | Done _ st' | Raised _ st' => grows st st'
    | Crashed _ => True
    end.

(** The request [fetch] receives from the research operation for a ticker
    and a query, and from the generic LLM operation for a model and a
    prompt. *)
Definition research_request (ticker query : jsstring) : agentApi.request :=
  agentApi.Request
    (agentApi.API_BASE_URL ++ str "/research") (str "POST")
    [(str "Content-Type", str "application/json")]
    (VObj [(str "ticker", VStr ticker); (str "query", VStr query)]).

Definition llm_request (model prompt : jsstring) : agentApi.request :=
  agentApi.Request
    (agentApi.API_BASE_URL ++ str "/llm") (str "POST")
    [(str "Content-Type", str "application/json")]
    (VObj [(str "model", VStr model); (str "prompt", VStr prompt)]).

(** [sendMessage] routes the inputs that trim to [s] by [r], sending [rq]:
    on every state whose input is not blank and trims to [s], and against
    every network, it logs the input as typed, clears it, calls the
    operation of [r], which sends the one request [rq], and goes on with
    what the call settled with on the branch of [r]. *)
Definition routes_to (s : jsstring) (r : route) (rq : agentApi.request) : Prop :=
  forall (st : State) (net : agentApi.network),
    blank (input st) = false ->
    trim (input st) = s ->
    sendMessage_start st
    = Some (setIsThinking true
              (setInput []
                 (append {| type := VStr (str "user");
                            content := VStr (input st) |} st)), r)
    /\ snd (agentApi.run net (request_of r)) = [rq]
    /\ sendMessage net st
       = sendMessage_settle r (fst (agentApi.run net (request_of r)))
           (setIsThinking true
              (setInput []
                 (append {| type := VStr (str "user");
                            content := VStr (input st) |} st))).

End FloatingAgent.

(** * Properties of the API client *)

Section ApiClient.

Import agentApi.

Variable net : network.

(** C3.  Every operation of the client (research, sentiment, portfolio,
    llm) sends exactly one request, whatever the network answers.  When
    the response's status is not a success the operation throws an error
    whose message is the operation's name, then " error: ", then the status
    in decimal; when it is a success the operation settles with what
    [res.json()] gave, unchanged.  A rejected [fetch] is passed on.  There
    is no second request on any path: no retry and no cache. *)
Theorem api_client_contract (op : operation) :
  exists rq,
    snd (run net (perform op)) = [rq]
    /\ match net rq with
       | Throw e => fst (run net (perform op)) = Throw e
       | Ok res =>
           if ok res
           then fst (run net (perform op)) = json res
           else fst (run net (perform op))
                = Throw (Error (operation_name op ++ str " error: "
                                ++ decimal (status res)))
       end.
Proof.
  destruct op; simpl;
    (eexists; split; [reflexivity|]; simpl;
     match goal with |- context [net ?rq] => destruct (net rq) as [res|e] end;
     simpl; [destruct (ok res)|]; reflexivity).
Qed.

(** The two presets are the generic operation with the model fixed. *)
Lemma presets_delegate prompt :
  runGeminiLLM prompt = perform (LLM (VStr (str "gemini-pro")) prompt)
  /\ runGroqLLM prompt = perform (LLM (VStr (str "groq-llama3")) prompt).
Proof. split; reflexivity. Qed.

End ApiClient.

(** A server error on the research operation. *)
Example research_status_500 :
  agentApi.run (fun _ => Ok (agentApi.Response false 500 (Ok VNull)))
    (agentApi.runResearchAgent (VStr (str "TCS")) VUndefined)
  = (Throw (Error (str "Research agent error: 500")),
     [agentApi.Request (str "http://127.0.0.1:8000/api/agents/research")
        (str "POST") [(str "Content-Type", str "application/json")]
        (VObj [(str "ticker", VStr (str "TCS")); (str "query", VNull)])]).
Proof. reflexivity. Qed.

(** * Properties of [ResearchAgent] *)

Section ResearchAgentFacts.

Import ResearchAgent.

(** ** Collapsing a step *)

Lemma toggleStep_entry i st :
  flag_entry (collapsedSteps (toggleStep i st)) i
  = VBool (negb (collapsed (collapsedSteps st) i)).
Proof.
  unfold toggleStep, flag_entry, collapsed; simpl.
  rewrite lookup_insert_eq. reflexivity.
Qed.

Lemma toggleStep_other i j st :
  j <> i -> collapsedSteps (toggleStep i st) !! j = collapsedSteps st !! j.
Proof.
  intros Hne. unfold toggleStep; simpl.
  rewrite lookup_insert_ne; [reflexivity | congruence].
Qed.

Lemma toggleStep_flips i st :
  collapsed (collapsedSteps (toggleStep i st)) i
  = negb (collapsed (collapsedSteps st) i).
Proof.
  unfold collapsed at 1. rewrite toggleStep_entry. reflexivity.
Qed.

(** C9.  Toggling a step twice brings the flag the step is shown with, the
    boolean coercion of its entry in the map, back to what it was, and no
    entry of another index changes. *)
Theorem toggleStep_twice (i : N) (st : State) :
  collapsed (collapsedSteps (toggleStep i (toggleStep i st))) i
  = collapsed (collapsedSteps st) i
  /\ forall j, j <> i ->
       collapsedSteps (toggleStep i (toggleStep i st)) !! j
       = collapsedSteps st !! j.
Proof.
  split.
  - rewrite !toggleStep_flips. apply negb_involutive.
  - intros j Hne. rewrite !toggleStep_other by assumption. reflexivity.
Qed.

Lemma toggleStep_twice_witness :
  collapsed (collapsedSteps (toggleStep 3 (toggleStep 3 initial))) 3 = false
  /\ collapsedSteps (toggleStep 3 (toggleStep 3 initial)) !! 4 = None.
Proof.
  destruct (toggleStep_twice 3 initial) as [Hsame Hother].
  split; [exact Hsame|].
  exact (Hother 4 ltac:(discriminate)).
Defined.

(** A step is shown expanded until it is toggled. *)
Lemma expanded_by_default i : collapsed (collapsedSteps initial) i = false.
Proof. reflexivity. Qed.

(** Toggling touches nothing but the map of flags. *)
Lemma toggleStep_frame i st :
  messages (toggleStep i st) = messages st
  /\ steps (toggleStep i st) = steps st
  /\ finalAns (toggleStep i st) = finalAns st
  /\ loading (toggleStep i st) = loading st.
Proof. repeat split. Qed.

(** ** Rendering a step *)

Lemma get_present (v : value) k w :
  get v k = Ok w -> w = get_opt v k.
Proof. destruct v; simpl; intros H; inversion H; reflexivity. Qed.

Lemma get_after_get (v : value) k w k' :
  get v k = Ok w -> get v k' = Ok (get_opt v k').
Proof. destruct v; simpl; intros H; inversion H; reflexivity. Qed.

Lemma ChartCard_total data xKey yKey :
  ChartCard data xKey yKey = Ok (chart_shown data xKey yKey).
Proof.
  destruct data as [| | [|] | n | [|c s] | [|item items] | props];
    try reflexivity.
  unfold ChartCard; simpl. destruct (number_truthy n); reflexivity.
Qed.

Lemma chart_shown_placeholder data xKey yKey :
  data = VUndefined \/ (forall items, data <> VArr items) \/ data = VArr [] ->
  chart_shown data xKey yKey = NoChartData.
Proof.
  intros [-> | [Hna | ->]]; try reflexivity.
  destruct data as [| | | | | [|item items] |]; try reflexivity.
  exfalso; exact (Hna _ eq_refl).
Qed.

(** Expanded, a chart step without [chartData] mounts no chart at all. *)
Example chart_step_without_data :
  exists view b,
    StepItem (VObj [(str "type", VStr (str "chart"))]) 0 false = Ok view
    /\ body view = Some b /\ chart b = Falsy VUndefined.
Proof. do 2 eexists. repeat split. Qed.

(** A step that is [null] in the array makes [StepItem] throw: the claim
    is about steps that have a type. *)
Example StepItem_null : exists e, StepItem VNull 0 false = Throw e.
Proof. eexists; reflexivity. Qed.

End ResearchAgentFacts.

(** * Failures *)

Ltac run_handler :=
  cbv [seq try_catch eval modify update when ret]; simpl.

Section Failures.

Import ResearchAgent.

Lemma export_settle_fails (lib : pdf_calls) (st : State) (br : Browser) (e : exn) :
  first_failure (calls_in_order lib) = Some e ->
  handleExportPdf_settle lib (st, br)
  = Done tt (setExporting false st,
             mkBrowser (console_errors br ++ [e])
                       (alerts br ++ [str "Failed to export PDF"])
                       (downloads br)).
Proof.
  destruct lib as [c1 c2 c3 c4 c5 c6 c7].
  unfold calls_in_order, handleExportPdf_settle; simpl.
  intros Hfail.
  repeat match goal with
         | c : result unit |- _ =>
             destruct c as [[]|?]; simpl in Hfail;
             [ | injection Hfail as ->; run_handler; reflexivity ]
         end.
  discriminate Hfail.
Qed.

(** C8.  When a call of the export throws (the rasterization, or any step
    of building and writing the document), the export operation as a
    whole, [handleExportPdf] on a mounted pane, or the click followed by
    the settling in a session, ends normally: the exception is caught,
    logged on the console and shown in one blocking alert; no file is
    offered, the exporting flag, set while the export runs, is false
    again, and every other cell of the state (messages, steps, final
    answer, loading, inputs, collapse flags) is as it was before the
    click.  The second half of the handler does the same from whatever
    state it finds when other events came in between. *)
Theorem export_failure_contained
  (lib : pdf_calls) (st : State) (br : Browser) (e : exn) :
  first_failure (calls_in_order lib) = Some e ->
  exists st' br',
    handleExportPdf true lib (st, br) = Done tt (st', br')
    /\ session (st, br) [Export_click; Export_settles lib] = Some (st', br')
    /\ handleExportPdf_start true st = Some (setExporting true st)
    /\ handleExportPdf_settle lib (setExporting true st, br) = Done tt (st', br')
    /\ console_errors br' = console_errors br ++ [e]
    /\ alerts br' = alerts br ++ [str "Failed to export PDF"]
    /\ downloads br' = downloads br
    /\ exporting st' = false
    /\ messages st' = messages st
    /\ steps st' = steps st
    /\ finalAns st' = finalAns st
    /\ loading st' = loading st
    /\ query st' = query st
    /\ ticker st' = ticker st
    /\ collapsedSteps st' = collapsedSteps st
    /\ forall st0 br0,
         handleExportPdf_settle lib (st0, br0)
         = Done tt (setExporting false st0,
                    mkBrowser (console_errors br0 ++ [e])
                              (alerts br0 ++ [str "Failed to export PDF"])
                              (downloads br0)).
Proof.
  intros Hfail.
  exists (setExporting false (setExporting true st)),
         (mkBrowser (console_errors br ++ [e])
                    (alerts br ++ [str "Failed to export PDF"])
                    (downloads br)).
  split.
  { unfold handleExportPdf. cbn [handleExportPdf_start negb fst snd].
    apply (export_settle_fails lib _ _ _ Hfail). }
  split.
  { cbn [session step handleExportPdf_start negb fst snd default].
    rewrite (export_settle_fails lib _ _ _ Hfail). reflexivity. }
  split; [reflexivity|].
  split; [apply (export_settle_fails lib _ _ _ Hfail)|].
  repeat (split; [reflexivity|]).
  intros st0 br0. apply (export_settle_fails lib _ _ _ Hfail).
Qed.

Lemma export_failure_contained_witness :
  exists st' br',
    handleExportPdf true
      (PdfCalls (Throw (Error (str "tainted canvas"))) (Ok tt) (Ok tt) (Ok tt)
                (Ok tt) (Ok tt) (Ok tt))
      (setMessages (fun _ => [Message 1 (str "user") (VStr (str "hi"))])
         initial,
       mkBrowser [] [] [])
    = Done tt (st', br')
    /\ console_errors br' = [Error (str "tainted canvas")]
    /\ alerts br' = [str "Failed to export PDF"]
    /\ downloads br' = []
    /\ exporting st' = false
    /\ messages st' = [Message 1 (str "user") (VStr (str "hi"))].
Proof.
  destruct (export_failure_contained
              (PdfCalls (Throw (Error (str "tainted canvas"))) (Ok tt) (Ok tt)
                        (Ok tt) (Ok tt) (Ok tt) (Ok tt))
              (setMessages (fun _ => [Message 1 (str "user") (VStr (str "hi"))])
                 initial)
              (mkBrowser [] [] [])
              (Error (str "tainted canvas")) eq_refl)
    as (st' & br' & Hrun & _ & _ & _ & Hc & Ha & Hd & Hx & Hm & _).
  exists st', br'. repeat split; assumption.
Defined.

(** The whole handler, on a page where the rasterization throws; and on a
    page whose pane is not mounted, where it does nothing. *)
Example export_tainted_canvas :
  handleExportPdf true
    (PdfCalls (Throw (Error (str "tainted canvas"))) (Ok tt) (Ok tt) (Ok tt)
              (Ok tt) (Ok tt) (Ok tt))
    fresh_page
  = Done tt
      (initial,
       mkBrowser [Error (str "tainted canvas")]
                 [str "Failed to export PDF"] []).
Proof. reflexivity. Qed.

Example export_unmounted lib w : handleExportPdf false lib w = Done tt w.
Proof. reflexivity. Qed.

(** An export in which no call throws offers the file and raises no alert. *)
Lemma export_success lib st br :
  first_failure (calls_in_order lib) = None ->
  handleExportPdf_settle lib (st, br)
  = Done tt (setExporting false st,
             mkBrowser (console_errors br) (alerts br)
                       (downloads br ++ [str "research-report.pdf"])).
Proof.
  destruct lib as [c1 c2 c3 c4 c5 c6 c7].
  unfold calls_in_order, handleExportPdf_settle; simpl.
  intros Hfail.
  repeat match goal with
         | c : result unit |- _ =>
             destruct c as [[]|?]; simpl in Hfail; [ | discriminate Hfail ]
         end.
  reflexivity.
Qed.

(** ** Transport errors *)

(** [runAgent] catches whatever the call throws: one error message, and
    loading is false again. *)
Lemma runAgent_catches e now st :
  runAgent_settle (Throw e) now st
  = Done tt
      (setLoading false
         (setMessages (fun prev =>
            prev ++ [{| id := now + 2; type := str "error";
                        content := VStr (str "Research Agent crashed. Try again.") |}])
            st)).
Proof. reflexivity. Qed.

(** So does [sendMessage] of the floating agent, on both of its routes. *)
Lemma sendMessage_catches r e st :
  FloatingAgent.sendMessage_settle r (Throw e) st
  = Done tt
      (FloatingAgent.setIsThinking false
         (FloatingAgent.append
            {| FloatingAgent.type := VStr (str "error");
               FloatingAgent.content :=
                 VStr (FloatingAgent.warning_sign ++ str " Error: "
                       ++ FloatingAgent.describe e) |}
            st)).
Proof. destruct r; reflexivity. Qed.

(** [runGemini] and [runGroq] have no [try]: the error leaves the handler
    and the state stays as it was when the request was sent. *)
Lemma runGemini_rethrows e now st :
  runGemini_settle (Throw e) now st = Raised e st
  /\ runGroq_settle (Throw e) now st = Raised e st.
Proof. split; reflexivity. Qed.

(** A backend that answers every request with the status 500. *)
Example runAgent_status_500 (now now' : Z) :
  runAgent (fun _ => Ok (agentApi.Response false 500 (Ok VNull))) now now'
    (setTicker (str "TCS") (setQuery (str "hi") initial))
  = Done tt
      (mkState
         [ {| id := now; type := str "user";
              content := VStr (str "Ticker: TCS" ++ [LF] ++ str "Query: hi") |};
           {| id := now' + 2; type := str "error";
              content := VStr (str "Research Agent crashed. Try again.") |} ]
         (VArr []) (VStr []) false false (str "hi") (str "TCS") ∅).
Proof. reflexivity. Qed.

(** C4, at the failing input: the query "hi", the Gemini button, and a
    backend that answers with the status 500.  The client throws "LLM API
    error: 500"; the handler lets it escape, appends no message, and
    leaves loading true. *)
Theorem runGemini_status_500 (now : Z) :
  runGemini (fun _ => Ok (agentApi.Response false 500 (Ok VNull))) now
    (setQuery (str "hi") initial)
  = Raised (Error (str "LLM API error: 500"))
      (mkState [] (VArr []) (VStr []) true false (str "hi") [] ∅).
Proof. reflexivity. Qed.

Example runGroq_status_500 (now : Z) :
  runGroq (fun _ => Ok (agentApi.Response false 500 (Ok VNull))) now
    (setQuery (str "hi") initial)
  = Raised (Error (str "LLM API error: 500"))
      (mkState [] (VArr []) (VStr []) true false (str "hi") [] ∅).
Proof. reflexivity. Qed.

(** ** Answers of the LLM operation *)

(** The floating agent tells a failed answer from a good one. *)
Lemma sendMessage_llm_answer model prompt res st :
  nullish res = false ->
  FloatingAgent.sendMessage_settle (FloatingAgent.ToLLM model prompt) (Ok res) st
  = Done tt
      (FloatingAgent.setIsThinking false
         (FloatingAgent.append
            (if truthy (get_opt res (str "success"))
                && truthy (get_opt res (str "response"))
             then {| FloatingAgent.type := VStr (str "agent");
                     FloatingAgent.content := get_opt res (str "response") |}
             else {| FloatingAgent.type := VStr (str "error");
                     FloatingAgent.content :=
                       js_or (get_opt res (str "error"))
                             (VStr (str "Failed to get response")) |})
            st)).
Proof.
  intros Hres. unfold FloatingAgent.sendMessage_settle, FloatingAgent.llm_branch.
  destruct res; try discriminate Hres; run_handler; try reflexivity.
  destruct (truthy (assoc (str "success") props)
            && truthy (assoc (str "response") props)); reflexivity.
Qed.

(** C5, at the failing input: the query "hi", the Gemini button, and the
    answer [{success: false, error: "rate limited"}].  The handler appends
    an agent-typed message whose content is [undefined], and no
    error-typed message. *)
Theorem runGemini_rate_limited (now : Z) :
  runGemini
    (fun _ => Ok (agentApi.Response true 200
                    (Ok (VObj [(str "success", VBool false);
                               (str "error", VStr (str "rate limited"))]))))
    now (setQuery (str "hi") initial)
  = Done tt
      (mkState [ {| id := now; type := str "agent"; content := VUndefined |} ]
         (VArr []) (VStr []) false false (str "hi") [] ∅).
Proof. reflexivity. Qed.

(** Whatever the answer holds, the two handlers append it as an agent's
    message. *)
Lemma runGemini_settle_ok res now st :
  nullish res = false ->
  runGemini_settle (Ok res) now st
  = Done tt
      (setLoading false
         (setMessages (fun prev =>
            prev ++ [{| id := now; type := str "agent";
                        content := get_opt res (str "response") |}]) st))
  /\ runGroq_settle (Ok res) now st = runGemini_settle (Ok res) now st.
Proof.
  intros Hres. split; [|reflexivity].
  destruct res; try discriminate Hres; reflexivity.
Qed.

(** The same answer in the floating agent gives the error message the
    specification asks for. *)
Example sendMessage_rate_limited :
  FloatingAgent.sendMessage
    (fun _ => Ok (agentApi.Response true 200
                    (Ok (VObj [(str "success", VBool false);
                               (str "error", VStr (str "rate limited"))]))))
    (FloatingAgent.setInput (str "hi") FloatingAgent.initial)
  = Done tt
      (FloatingAgent.mkState false
         [ {| FloatingAgent.type := VStr (str "user");
              FloatingAgent.content := VStr (str "hi") |};
           {| FloatingAgent.type := VStr (str "error");
              FloatingAgent.content := VStr (str "rate limited") |} ]
         [] false).
Proof. vm_compute. reflexivity. Qed.

End Failures.

(** * Research results, runs and ids *)

Section ResearchResults.

Import ResearchAgent.

Lemma get_nonnullish (v : value) k :
  nullish v = false -> get v k = Ok (get_opt v k).
Proof. destruct v; simpl; intros H; try discriminate H; reflexivity. Qed.

Lemma data_field_nonnullish res k :
  nullish res = false -> data_field res k = Ok (response_field res k).
Proof.
  intros H. unfold data_field, response_field.
  rewrite (get_nonnullish _ _ H). reflexivity.
Qed.

Lemma runAgent_settle_ok res now st :
  nullish res = false ->
  runAgent_settle (Ok res) now st
  = Done tt
      (setLoading false
         ((if truthy (response_field res (str "ai_summary"))
           then fun st =>
                  setMessages (fun prev =>
                    prev ++ [{| id := now + 1; type := str "agent";
                                content := response_field res (str "ai_summary") |}])
                    (setFinalAns (response_field res (str "ai_summary")) st)
           else fun st => st)
            ((if truthy (response_field res (str "steps"))
              then setSteps (response_field res (str "steps"))
              else fun st => st) st))).
Proof.
  intros H. unfold runAgent_settle.
  cbv [seq try_catch eval modify when ret].
  rewrite !(data_field_nonnullish _ _ H).
  destruct (truthy (response_field res (str "steps")));
  destruct (truthy (response_field res (str "ai_summary"))); reflexivity.
Qed.

Lemma show_steps_items items st :
  Forall (fun s => nullish s = false) items ->
  FloatingAgent.show_steps (VArr items) st
  = Done tt (FloatingAgent.setMessages
               (fun prev => prev ++ map FloatingAgent.step_message items) st).
Proof.
  intros Hall. revert st. induction Hall as [|s items Hs _ IH]; intros st.
  - destruct st; unfold FloatingAgent.setMessages; simpl.
    rewrite app_nil_r. reflexivity.
  - simpl. cbv [seq update]. fold (@forEach FloatingAgent.State value).
    rewrite !(get_nonnullish _ _ Hs). simpl.
    change (forEach _ items) with (FloatingAgent.show_steps (VArr items)).
    rewrite IH. unfold FloatingAgent.append, FloatingAgent.setMessages; simpl.
    rewrite <- app_assoc. reflexivity.
Qed.

Lemma sendMessage_research_ok t q res lines st :
  nullish res = false ->
  truthy (response_field res (str "steps")) = false
  \/ isArray (response_field res (str "steps")) = true ->
  Forall (fun s => nullish s = false)
         (items_of (response_field res (str "steps"))) ->
  truthy (js_or (response_field res (str "ai_summary"))
                (response_field res (str "summary"))) = true
  \/ truthy (response_field res (str "recommendations")) = false
  \/ (isArray (response_field res (str "recommendations")) = true
      /\ join [LF] (items_of (response_field res (str "recommendations")))
         = Ok lines) ->
  FloatingAgent.sendMessage_settle (FloatingAgent.ToResearch t q) (Ok res) st
  = Done tt
      (FloatingAgent.setIsThinking false
         (FloatingAgent.setMessages
            (fun prev =>
               prev ++ map FloatingAgent.step_message
                         (items_of (response_field res (str "steps")))
                    ++ FloatingAgent.research_tail res lines) st)).
Proof.
  intros Hres Hsteps Hitems Hrecs.
  unfold FloatingAgent.sendMessage_settle, FloatingAgent.research_branch,
    FloatingAgent.research_tail.
  cbv [seq try_catch eval modify when ret].
  rewrite !(data_field_nonnullish _ _ Hres).
  set (stepsv := response_field res (str "steps")) in *.
  set (summary := js_or _ _) in *.
  set (recs := response_field res (str "recommendations")) in *.
  assert (Hshow :
    (if truthy stepsv then FloatingAgent.show_steps stepsv
     else fun s => Done tt s) st
    = Done tt (FloatingAgent.setMessages
                 (fun prev => prev ++ map FloatingAgent.step_message
                                        (items_of stepsv)) st)).
  { destruct Hsteps as [Hf | Ha].
    - rewrite Hf. destruct stepsv; try discriminate Hf;
        destruct st; unfold FloatingAgent.setMessages; simpl;
        rewrite app_nil_r; reflexivity.
    - destruct stepsv; try discriminate Ha. simpl.
      apply show_steps_items. exact Hitems. }
  rewrite Hshow.
  destruct (truthy summary) eqn:Hsum.
  - unfold FloatingAgent.append, FloatingAgent.setMessages,
      FloatingAgent.setIsThinking; simpl.
    rewrite <- app_assoc. reflexivity.
  - destruct Hrecs as [Habs | [Hf | [Ha Hj]]]; [discriminate Habs | |].
    + rewrite Hf. unfold FloatingAgent.setMessages,
        FloatingAgent.setIsThinking; simpl. rewrite app_nil_r. reflexivity.
    + destruct recs; try discriminate Ha. cbn [items_of] in Hj. simpl.
      unfold update, FloatingAgent.join_lines. rewrite Hj.
      unfold FloatingAgent.append, FloatingAgent.setMessages,
        FloatingAgent.setIsThinking; simpl.
      rewrite <- app_assoc. reflexivity.
Qed.

Lemma runAgent_settle_null res e now st :
  get res (str "data") = Throw e ->
  runAgent_settle (Ok res) now st = runAgent_settle (Throw e) now st.
Proof.
  intros H. unfold runAgent_settle, data_field.
  cbv [seq try_catch eval modify when ret]. rewrite H. reflexivity.
Qed.

Lemma nullish_or_not (v : value) k :
  (exists e, get v k = Throw e) \/ nullish v = false.
Proof. destruct v; simpl; eauto. Qed.

Lemma runAgent_start_clears now st st' call :
  runAgent_start now st = Some (st', call) ->
  steps st' = VArr [] /\ finalAns st' = VStr [] /\ loading st' = true
  /\ messages st'
     = messages st ++ [{| id := now; type := str "user";
                          content := VStr (str "Ticker: " ++ ticker st ++ [LF]
                                           ++ str "Query: " ++ query st) |}]
  /\ call = agentApi.runResearchAgent (VStr (ticker st)) (VStr (query st)).
Proof.
  unfold runAgent_start.
  destruct (blank (query st) || blank (ticker st)); [discriminate|].
  intros H; injection H as <- <-. repeat split.
Qed.

Lemma runAgent_settle_belongs awaited now st st' :
  steps st = VArr [] -> finalAns st = VStr [] ->
  after (runAgent_settle awaited now st) = Some st' ->
  belongs_to awaited st'.
Proof.
  intros Hs Hf.
  destruct awaited as [res|e].
  - destruct (nullish_or_not res (str "data")) as [[e He] | Hres].
    + rewrite (runAgent_settle_null _ _ _ _ He), runAgent_catches. simpl.
      intros H; injection H as <-. simpl. split; left; assumption.
    + rewrite (runAgent_settle_ok _ _ _ Hres). simpl.
      intros H; injection H as <-. simpl.
      destruct (truthy (response_field res (str "steps")));
      destruct (truthy (response_field res (str "ai_summary"))); simpl;
        split; auto.
  - rewrite runAgent_catches. simpl. intros H; injection H as <-.
    simpl. split; assumption.
Qed.

Lemma export_state lib st br :
  exists br', handleExportPdf_settle lib (st, br)
              = Done tt (setExporting false st, br').
Proof.
  destruct lib as [c1 c2 c3 c4 c5 c6 c7]. unfold handleExportPdf_settle; simpl.
  repeat match goal with
         | c : result unit |- _ =>
             destruct c as [[]|?];
             [ | cbv [seq try_catch eval modify when ret]; simpl;
                 eexists; reflexivity ]
         end.
  eexists; reflexivity.
Qed.

Lemma llm_settle_state awaited now st st' :
  after (runGemini_settle awaited now st) = Some st'
  \/ after (runGroq_settle awaited now st) = Some st' ->
  steps st' = steps st /\ finalAns st' = finalAns st
  /\ exists new, messages st' = messages st ++ new
       /\ Forall (fun m => id m = now) new.
Proof.
  assert (Hsame : runGroq_settle awaited now st = runGemini_settle awaited now st)
    by reflexivity.
  rewrite Hsame. intros [H | H];
    (destruct awaited as [res|e]; simpl in H;
     [ unfold runGemini_settle in H; cbv [seq eval update modify] in H;
       destruct (get res (str "response")) as [response|e]; simpl in H;
       [ injection H as <-; simpl; repeat split; eexists; split;
         [reflexivity | repeat constructor]
       | discriminate H ]
     | injection H as <-; repeat split; exists []; split;
       [symmetry; apply app_nil_r | constructor] ]).
Qed.


Lemma step_frame w ev w' :
  research_event ev = false -> step w ev = Some w' ->
  steps (fst w') = steps (fst w) /\ finalAns (fst w') = finalAns (fst w).
Proof.
  destruct w as [st br].
  destruct ev; simpl; try discriminate; intros _ H;
    try (injection H as <-; simpl; split; reflexivity).
  - unfold runGemini_start in H. destruct (blank (query st));
      injection H as <-; split; reflexivity.
  - destruct (after (runGemini_settle awaited now st)) as [st'|] eqn:Hst;
      [|discriminate H]. injection H as <-. simpl.
    destruct (llm_settle_state awaited now st st' (or_introl Hst)) as (? & ? & _).
    split; assumption.
  - unfold runGroq_start in H. destruct (blank (query st));
      injection H as <-; split; reflexivity.
  - destruct (after (runGroq_settle awaited now st)) as [st'|] eqn:Hst;
      [|discriminate H]. injection H as <-. simpl.
    destruct (llm_settle_state awaited now st st' (or_intror Hst)) as (? & ? & _).
    split; assumption.
  - destruct (export_state lib st br) as [br' Hrun]. rewrite Hrun in H.
    injection H as <-. split; reflexivity.
Qed.

Lemma session_app w evs1 evs2 :
  session w (evs1 ++ evs2)
  = match session w evs1 with
    | Some w' => session w' evs2
    | None => None
    end.
Proof.
  revert w. induction evs1 as [|ev evs1 IH]; intros w; simpl; [reflexivity|].
  destruct (step w ev); [apply IH | reflexivity].
Qed.

Lemma session_frame w evs w' :
  forallb (fun ev => negb (research_event ev)) evs = true ->
  session w evs = Some w' ->
  steps (fst w') = steps (fst w) /\ finalAns (fst w') = finalAns (fst w).
Proof.
  revert w. induction evs as [|ev evs IH]; intros w; simpl.
  - intros _ H; injection H as <-. split; reflexivity.
  - intros Hall H. apply andb_prop in Hall as [Hev Hall].
    apply negb_true_iff in Hev.
    destruct (step w ev) as [w1|] eqn:Hstep; [|discriminate H].
    destruct (step_frame _ _ _ Hev Hstep) as [Hs Hf].
    destruct (IH _ Hall H) as [Hs' Hf'].
    split; congruence.
Qed.

(** C6, as amended.  A research run clears the trace and the answer, and
    sends its request from the state in which both are empty.  When no
    other research run starts or settles between the start of a run and
    its settling (edits, toggles, LLM calls and exports may), the trace and
    the answer on display after it settles are each empty or taken from
    that run's response. *)
Theorem research_run_owns_trace :
  (forall now st st' call,
      runAgent_start now st = Some (st', call) ->
      steps st' = VArr [] /\ finalAns st' = VStr []
      /\ call = agentApi.runResearchAgent (VStr (ticker st)) (VStr (query st)))
  /\ (forall w now mid awaited now' w',
        runAgent_start now (fst w) <> None ->
        forallb (fun ev => negb (research_event ev)) mid = true ->
        session w (RunAgent_click now :: mid ++ [RunAgent_settles awaited now'])
        = Some w' ->
        belongs_to awaited (fst w')).
Proof.
  split.
  - intros now st st' call H.
    destruct (runAgent_start_clears _ _ _ _ H) as (? & ? & _ & _ & ?).
    repeat split; assumption.
  - intros [st br] now mid awaited now' w' Hstart Hmid. simpl in Hstart.
    cbn [session step fst snd].
    destruct (runAgent_start now st) as [[st1 call]|] eqn:Hst;
      [|contradiction Hstart; reflexivity].
    destruct (runAgent_start_clears _ _ _ _ Hst) as (Hs & Hf & _).
    simpl. rewrite session_app.
    destruct (session (st1, br) mid) as [[st2 br2]|] eqn:Hmid';
      [|discriminate].
    destruct (session_frame _ _ _ Hmid Hmid') as [Hs2 Hf2]. simpl in Hs2, Hf2.
    simpl.
    destruct (after (runAgent_settle awaited now' st2)) as [st3|] eqn:Hset;
      [|discriminate].
    simpl. intros H; injection H as <-. simpl.
    apply (runAgent_settle_belongs awaited now' st2); congruence.
Qed.

Lemma research_run_owns_trace_witness :
  exists w',
    session (setQuery (str "outlook") (setTicker (str "TCS") initial),
             mkBrowser [] [] [])
      (RunAgent_click 1
       :: [Toggle 0; RunGemini_click]
       ++ [RunAgent_settles (Ok response_with_summary) 2])
    = Some w'
    /\ belongs_to (Ok response_with_summary) (fst w').
Proof.
  eexists. split; [vm_compute; reflexivity|].
  destruct research_run_owns_trace as [_ Hrun].
  refine (Hrun (setQuery (str "outlook") (setTicker (str "TCS") initial),
                mkBrowser [] [] [])
               1%Z [Toggle 0; RunGemini_click] (Ok response_with_summary) 2%Z
               _ _ eq_refl _);
    try (vm_compute; reflexivity); vm_compute; discriminate.
Defined.

(** C6, a counterexample.  Enter is pressed twice; the first run answers
    with steps and a summary, the second with steps only.  The trace on
    display is then the second run's and the answer the first run's. *)
Lemma overlapping_runs_mix :
  exists st br,
    session fresh_page
      [Type_ticker (str "TCS"); Type_query (str "outlook");
       RunAgent_click 1; RunAgent_click 2;
       RunAgent_settles (Ok response_with_summary) 3;
       RunAgent_settles (Ok response_steps_only) 4]
    = Some (st, br)
    /\ steps st = VArr [tool_step "fetched news"]
    /\ finalAns st = VStr (str "Buy signal")
    /\ ~ belongs_to (Ok response_with_summary) st
    /\ ~ belongs_to (Ok response_steps_only) st.
Proof.
  do 2 eexists. split; [vm_compute; reflexivity|].
  split; [reflexivity|]. split; [reflexivity|].
  split; intros [H1 H2]; vm_compute in H1, H2.
  - destruct H1 as [H|H]; discriminate H.
  - destruct H2 as [H|H]; discriminate H.
Qed.

Lemma runAgent_settle_messages awaited now st st' :
  after (runAgent_settle awaited now st) = Some st' ->
  exists new, messages st' = messages st ++ new
    /\ (length new <= 1)%nat
    /\ Forall (fun m => (now + 1 <= id m <= now + 2)%Z) new.
Proof.
  assert (Hcatch : forall e,
    after (runAgent_settle (Throw e) now st) = Some st' ->
    exists new, messages st' = messages st ++ new
      /\ (length new <= 1)%nat
      /\ Forall (fun m => (now + 1 <= id m <= now + 2)%Z) new).
  { intros e. rewrite runAgent_catches. simpl. intros H; injection H as <-.
    simpl. eexists. split; [reflexivity|]. split; [simpl; lia|].
    repeat constructor; simpl; lia. }
  destruct awaited as [res|e]; [|apply Hcatch].
  destruct (nullish_or_not res (str "data")) as [[e He] | Hres].
  - rewrite (runAgent_settle_null _ _ _ _ He). apply Hcatch.
  - rewrite (runAgent_settle_ok _ _ _ Hres). simpl.
    intros H; injection H as <-.
    destruct (truthy (response_field res (str "steps")));
    destruct (truthy (response_field res (str "ai_summary"))); simpl;
      first [ exists []; split; [symmetry; apply app_nil_r|];
              split; [simpl; lia | constructor]
            | eexists; split; [reflexivity|]; split; [simpl; lia|];
              repeat constructor; simpl; lia ].
Qed.

Lemma step_messages w ev w' :
  step w ev = Some w' ->
  exists new,
    messages (fst w') = messages (fst w) ++ new
    /\ (length new <= 1)%nat
    /\ Forall (fun m => exists now, clock_reading ev = Some now
                          /\ (now <= id m <= now + 2)%Z) new.
Proof.
  assert (Hnone : forall (st st' : State),
    messages st' = messages st ->
    exists new, messages st' = messages st ++ new /\ (length new <= 1)%nat
      /\ Forall (fun m => exists now, clock_reading ev = Some now
                            /\ (now <= id m <= now + 2)%Z) new).
  { intros st st' H. exists []. rewrite app_nil_r.
    split; [exact H|]. split; [simpl; lia | constructor]. }
  destruct w as [st br].
  destruct ev; simpl; intros H;
    try (injection H as <-; apply Hnone; reflexivity).
  - injection H as <-. simpl. unfold runAgent_start.
    destruct (blank (query st) || blank (ticker st)); simpl;
      [apply Hnone; reflexivity|].
    eexists. split; [reflexivity|]. split; [simpl; lia|].
    repeat constructor. exists now. simpl. split; [reflexivity | lia].
  - destruct (after (runAgent_settle awaited now st)) as [st'|] eqn:Hst;
      [|discriminate H]. injection H as <-. simpl.
    destruct (runAgent_settle_messages _ _ _ _ Hst) as (new & Hm & Hl & Hid).
    exists new. split; [exact Hm|]. split; [exact Hl|].
    eapply Forall_impl; [exact Hid|]. simpl.
    intros m Hm'. exists now. split; [reflexivity | lia].
  - injection H as <-. simpl. unfold runGemini_start.
    destruct (blank (query st)); apply Hnone; reflexivity.
  - destruct (after (runGemini_settle awaited now st)) as [st'|] eqn:Hst;
      [|discriminate H]. injection H as <-. simpl.
    destruct (llm_settle_state awaited now st st' (or_introl Hst))
      as (_ & _ & new & Hm & Hid).
    exists new. split; [exact Hm|]. split.
    + clear -Hst Hm.
      destruct awaited as [res|e]; simpl in Hst.
      * unfold runGemini_settle in Hst. cbv [seq eval update modify] in Hst.
        destruct (get res (str "response")); simpl in Hst; [|discriminate Hst].
        injection Hst as <-. simpl in Hm.
        apply app_inv_head in Hm. subst new. simpl; lia.
      * injection Hst as <-. rewrite <- (app_nil_r (messages st)) in Hm at 1.
        apply app_inv_head in Hm. subst new. simpl; lia.
    + eapply Forall_impl; [exact Hid|]. simpl.
      intros m Hm'. exists now. split; [reflexivity | lia].
  - injection H as <-. simpl. unfold runGroq_start.
    destruct (blank (query st)); apply Hnone; reflexivity.
  - destruct (after (runGroq_settle awaited now st)) as [st'|] eqn:Hst;
      [|discriminate H]. injection H as <-. simpl.
    destruct (llm_settle_state awaited now st st' (or_intror Hst))
      as (_ & _ & new & Hm & Hid).
    exists new. split; [exact Hm|]. split.
    + clear -Hst Hm.
      destruct awaited as [res|e]; simpl in Hst.
      * unfold runGroq_settle in Hst. cbv [seq eval update modify] in Hst.
        destruct (get res (str "response")); simpl in Hst; [|discriminate Hst].
        injection Hst as <-. simpl in Hm.
        apply app_inv_head in Hm. subst new. simpl; lia.
      * injection Hst as <-. rewrite <- (app_nil_r (messages st)) in Hm at 1.
        apply app_inv_head in Hm. subst new. simpl; lia.
    + eapply Forall_impl; [exact Hid|]. simpl.
      intros m Hm'. exists now. split; [reflexivity | lia].
  - destruct (export_state lib st br) as [br' Hrun]. rewrite Hrun in H.
    injection H as <-. apply Hnone; reflexivity.
Qed.

Lemma step_messages_rule w ev w' :
  step w ev = Some w' ->
  exists new,
    messages (fst w') = messages (fst w) ++ new
    /\ (length new <= 1)%nat
    /\ Forall (id_rule ev) new.
Proof.
  assert (Hnone : forall (st st' : State),
    messages st' = messages st ->
    exists new, messages st' = messages st ++ new /\ (length new <= 1)%nat
      /\ Forall (id_rule ev) new).
  { intros st st' H. exists []. rewrite app_nil_r.
    split; [exact H|]. split; [simpl; lia | constructor]. }
  assert (Hllm : forall awaited now (st st' : State),
    after (runGemini_settle awaited now st) = Some st' ->
    exists new, messages st' = messages st ++ new /\ (length new <= 1)%nat
      /\ Forall (fun m => id m = now /\ type m = str "agent"
                          /\ exists res, awaited = Ok res
                               /\ content m = get_opt res (str "response"))
                new).
  { intros awaited now st st' Hst. destruct awaited as [res|e]; simpl in Hst.
    - unfold runGemini_settle in Hst. cbv [seq eval update modify] in Hst.
      destruct (get res (str "response")) as [response|e] eqn:Hget;
        simpl in Hst; [|discriminate Hst].
      injection Hst as <-. simpl. eexists. split; [reflexivity|].
      split; [simpl; lia|]. constructor; [|constructor]. simpl.
      split; [reflexivity|]. split; [reflexivity|].
      exists res. split; [reflexivity | exact (get_present _ _ _ Hget)].
    - injection Hst as <-. exists []. rewrite app_nil_r.
      split; [reflexivity|]. split; [simpl; lia | constructor]. }
  destruct w as [st br].
  destruct ev; simpl; intros H;
    try (injection H as <-; apply Hnone; reflexivity).
  - injection H as <-. simpl. unfold runAgent_start.
    destruct (blank (query st) || blank (ticker st)); simpl;
      [apply Hnone; reflexivity|].
    eexists. split; [reflexivity|]. split; [simpl; lia|].
    constructor; [|constructor]. split; reflexivity.
  - destruct (after (runAgent_settle awaited now st)) as [st'|] eqn:Hst;
      [|discriminate H]. injection H as <-. simpl.
    assert (Hcatch : forall e,
      after (runAgent_settle (Throw e) now st) = Some st' ->
      exists new, messages st' = messages st ++ new /\ (length new <= 1)%nat
        /\ Forall (id_rule (RunAgent_settles awaited now)) new).
    { intros e. rewrite runAgent_catches. simpl. intros H; injection H as <-.
      simpl. eexists. split; [reflexivity|]. split; [simpl; lia|].
      constructor; [|constructor]. right. repeat split. }
    destruct awaited as [res|e]; [|exact (Hcatch e Hst)].
    destruct (nullish_or_not res (str "data")) as [[e He] | Hres].
    + rewrite (runAgent_settle_null _ _ _ _ He) in Hst. exact (Hcatch e Hst).
    + rewrite (runAgent_settle_ok _ _ _ Hres) in Hst. simpl in Hst.
      injection Hst as <-.
      destruct (truthy (response_field res (str "steps")));
      destruct (truthy (response_field res (str "ai_summary"))); simpl;
        first [ exists []; split; [symmetry; apply app_nil_r|];
                split; [simpl; lia | constructor]
              | eexists; split; [reflexivity|]; split; [simpl; lia|];
                (constructor; [|constructor]); left; simpl;
                (split; [reflexivity|]); (split; [reflexivity|]);
                exists res; split; reflexivity ].
  - injection H as <-. simpl. unfold runGemini_start.
    destruct (blank (query st)); apply Hnone; reflexivity.
  - destruct (after (runGemini_settle awaited now st)) as [st'|] eqn:Hst;
      [|discriminate H]. injection H as <-. simpl.
    exact (Hllm _ _ _ _ Hst).
  - injection H as <-. simpl. unfold runGroq_start.
    destruct (blank (query st)); apply Hnone; reflexivity.
  - destruct (after (runGroq_settle awaited now st)) as [st'|] eqn:Hst;
      [|discriminate H]. injection H as <-. simpl.
    exact (Hllm _ _ _ _ Hst).
  - destruct (export_state lib st br) as [br' Hrun]. rewrite Hrun in H.
    injection H as <-. apply Hnone; reflexivity.
Qed.

Lemma id_rule_offset ev m :
  id_rule ev m ->
  exists now, clock_reading ev = Some now /\ (now <= id m <= now + 2)%Z.
Proof.
  destruct ev; simpl; try contradiction.
  - intros [-> _]. eexists. split; [reflexivity | lia].
  - intros [(-> & _) | (-> & _)]; eexists; (split; [reflexivity | lia]).
  - intros [-> _]. eexists. split; [reflexivity | lia].
  - intros [-> _]. eexists. split; [reflexivity | lia].
Qed.

(** C7, as amended.  An event of the research workspace appends at most
    one message.  The id of that message is the reading of the clock the
    event makes, plus an offset fixed by the kind of the message: 0 for
    the user's message of a run and for the answer of a Gemini or Groq
    call, 1 for the summary of a research run, 2 for the failure of a
    research run.  So when that reading is above every id of the log, the
    new message's id is above the id of every message already in the
    log. *)
Theorem new_id_above_log (w : State * Browser) (ev : event) (w' : State * Browser) :
  step w ev = Some w' ->
  (forall now, clock_reading ev = Some now ->
     Forall (fun m => (id m < now)%Z) (messages (fst w))) ->
  exists new,
    messages (fst w') = messages (fst w) ++ new
    /\ (length new <= 1)%nat
    /\ Forall (id_rule ev) new
    /\ Forall (fun m => exists now, clock_reading ev = Some now
                          /\ (now <= id m <= now + 2)%Z) new
    /\ Forall (fresh_id (messages (fst w))) new.
Proof.
  intros Hstep Hclock.
  destruct (step_messages_rule _ _ _ Hstep) as (new & Hm & Hl & Hrule).
  assert (Hid : Forall (fun m => exists now, clock_reading ev = Some now
                                  /\ (now <= id m <= now + 2)%Z) new).
  { eapply Forall_impl; [exact Hrule|]. exact (id_rule_offset ev). }
  exists new. repeat split; try assumption.
  eapply Forall_impl; [exact Hid|]. simpl.
  intros m (now & Hnow & Hle). unfold fresh_id.
  eapply Forall_impl; [exact (Hclock _ Hnow)|]. simpl. intros m' Hlt. lia.
Qed.

Lemma new_id_above_log_witness :
  exists new,
    messages
      (started (setMessages (fun _ => [Message 5 (str "user") VNull])
                  (setQuery (str "outlook") (setTicker (str "TCS") initial)))
         (runAgent_start 10
            (setMessages (fun _ => [Message 5 (str "user") VNull])
               (setQuery (str "outlook") (setTicker (str "TCS") initial)))))
    = [Message 5 (str "user") VNull] ++ new
    /\ Forall (id_rule (RunAgent_click 10)) new
    /\ Forall (fresh_id [Message 5 (str "user") VNull]) new.
Proof.
  destruct (new_id_above_log
              (setMessages (fun _ => [Message 5 (str "user") VNull])
                 (setQuery (str "outlook") (setTicker (str "TCS") initial)),
               mkBrowser [] [] [])
              (RunAgent_click 10) _ eq_refl)
    as (new & Hlog & _ & Hrule & _ & Hfresh).
  - intros now Hnow. injection Hnow as <-.
    repeat constructor.
  - exists new. split; [exact Hlog|]. split; [exact Hrule | exact Hfresh].
Defined.

Lemma ids_increase_app log new :
  ids_increase log ->
  ids_increase new ->
  Forall (fun m => fresh_id log m) new ->
  ids_increase (log ++ new).
Proof.
  intros Hlog Hnew Hfresh. induction log as [|m log IH]; simpl; [exact Hnew|].
  destruct Hlog as [Hm Hlog]. split.
  - apply Forall_app. split; [exact Hm|].
    eapply Forall_impl; [exact Hfresh|]. simpl.
    intros m' Hm'. unfold fresh_id in Hm'. inversion Hm'; assumption.
  - apply IH; [exact Hlog|].
    eapply Forall_impl; [exact Hfresh|]. simpl.
    intros m' Hm'. unfold fresh_id in *. inversion Hm'; assumption.
Qed.

Lemma at_most_one_increases (new : list message) :
  (length new <= 1)%nat -> ids_increase new.
Proof.
  destruct new as [|m [|m' new]]; simpl; intros H;
    [exact I | split; [constructor | exact I] | lia].
Qed.

(** When the readings of the clock are spaced, the ids of the log stay
    increasing along a session. *)
Lemma spaced_session_ids_increase evs w w' bound :
  ids_increase (messages (fst w)) ->
  Forall (fun m => (id m <= bound)%Z) (messages (fst w)) ->
  spaced bound evs ->
  session w evs = Some w' ->
  ids_increase (messages (fst w')).
Proof.
  revert w bound. induction evs as [|ev evs IH]; intros w bound Hinc Hb Hsp;
    simpl.
  - intros H; injection H as <-. exact Hinc.
  - destruct (step w ev) as [w1|] eqn:Hstep; [|discriminate].
    destruct (step_messages _ _ _ Hstep) as (new & Hlog & Hlen & Hids).
    simpl in Hsp. destruct (clock_reading ev) as [now|] eqn:Hclock.
    + destruct Hsp as [Hnow Hsp].
      apply (IH w1 (now + 2)%Z); [| |exact Hsp].
      * rewrite Hlog. apply ids_increase_app;
          [exact Hinc | apply at_most_one_increases; exact Hlen |].
        eapply Forall_impl; [exact Hids|]. simpl.
        intros m (now0 & Hnow0 & Hle). injection Hnow0 as <-.
        unfold fresh_id. eapply Forall_impl; [exact Hb|]. simpl.
        intros m' Hm'. lia.
      * rewrite Hlog. apply Forall_app. split.
        -- eapply Forall_impl; [exact Hb|]. simpl. intros m' Hm'. lia.
        -- eapply Forall_impl; [exact Hids|]. simpl.
           intros m (now0 & Hnow0 & Hle). injection Hnow0 as <-. lia.
    + assert (new = []) as ->.
      { destruct new as [|m new]; [reflexivity|].
        inversion Hids as [|? ? (now0 & Hnow0 & _) _]. discriminate Hnow0. }
      rewrite app_nil_r in Hlog.
      apply (IH w1 bound); [rewrite Hlog; exact Hinc | rewrite Hlog; exact Hb
                           | exact Hsp].
Qed.

(** C7, a counterexample.  A run fails at clock 1000 (error id 1002) and
    the next run starts at clock 1001: the later message has the lower
    id, though the clock went forward. *)
Lemma later_reading_lower_id :
  exists st br,
    session fresh_page
      [Type_ticker (str "TCS"); Type_query (str "outlook");
       RunAgent_click 999;
       RunAgent_settles (Throw (Error (str "Research agent error: 500"))) 1000;
       RunAgent_click 1001]
    = Some (st, br)
    /\ map id (messages st) = [999; 1002; 1001]%Z
    /\ ~ ids_increase (messages st).
Proof.
  do 2 eexists. split; [vm_compute; reflexivity|]. split; [reflexivity|].
  simpl. intros (_ & H & _). inversion H as [|? ? Hlt _]. simpl in Hlt. lia.
Qed.

(** ** Conversions to strings *)

Lemma value_nested_ind (P : value -> Prop) :
  P VUndefined -> P VNull -> (forall b, P (VBool b)) -> (forall n, P (VNum n)) ->
  (forall s, P (VStr s)) ->
  (forall items, Forall P items -> P (VArr items)) ->
  (forall props, P (VObj props)) ->
  forall v, P v.
Proof.
  intros Hu Hn Hb Hnum Hs Harr Hobj. fix IH 1.
  intros [| |b|n|s|items|props];
    [exact Hu | exact Hn | apply Hb | apply Hnum | apply Hs | | apply Hobj].
  apply Harr. induction items as [|x items IHitems]; constructor;
    [apply IH | exact IHitems].
Qed.

Lemma toString_array items : toString (VArr items) = join (str ",") items.
Proof.
  induction items as [|x rest IH]; [reflexivity|].
  destruct rest as [|y rest]; [destruct x; reflexivity|].
  change (toString (VArr (x :: y :: rest)))
    with (let* first := join_item x in
          let* others := toString (VArr (y :: rest)) in
          Ok (first ++ str "," ++ others)).
  rewrite IH. reflexivity.
Qed.

(** [join] throws exactly when an element is not printable, and it then
    throws the TypeError of the conversion. *)
Lemma join_printable_items sep items :
  Forall (fun v => match toString v with
                   | Ok _ => printable v = true
                   | Throw e => printable v = false /\ e = not_primitive
                   end) items ->
  match join sep items with
  | Ok _ => forallb printable items = true
  | Throw e => forallb printable items = false /\ e = not_primitive
  end.
Proof.
  induction 1 as [|x rest Hx _ IH]; [reflexivity|].
  assert (Hitem : match join_item x with
                  | Ok _ => printable x = true
                  | Throw e => printable x = false /\ e = not_primitive
                  end)
    by (destruct x; try reflexivity; exact Hx).
  cbn [forallb].
  destruct rest as [|y rest].
  - cbn [join forallb]. rewrite andb_true_r. exact Hitem.
  - change (join sep (x :: y :: rest))
      with (let* first := join_item x in
            let* others := join sep (y :: rest) in
            Ok (first ++ sep ++ others)).
    destruct (join_item x) as [first|e]; cbn [bind].
    + rewrite Hitem. cbn [andb].
      destruct (join sep (y :: rest)) as [others|e]; cbn [bind]; exact IH.
    + destruct Hitem as [-> ->]. split; reflexivity.
Qed.

Lemma toString_printable v :
  match toString v with
  | Ok _ => printable v = true
  | Throw e => printable v = false /\ e = not_primitive
  end.
Proof.
  induction v as [| |b|n|s|items IH|props] using value_nested_ind;
    try reflexivity.
  - destruct b; reflexivity.
  - rewrite toString_array. cbn [printable].
    apply join_printable_items. exact IH.
  - cbn [toString printable].
    destruct (has_own (str "toString") props); [split|]; reflexivity.
Qed.

Lemma join_printable sep items :
  match join sep items with
  | Ok _ => forallb printable items = true
  | Throw e => forallb printable items = false /\ e = not_primitive
  end.
Proof.
  apply join_printable_items. apply Forall_forall. intros v _.
  apply toString_printable.
Qed.

(** C1, as amended.  For a response that is not [null]:

    - [runAgent] replaces the steps list by [data.steps] when that is
      truthy; when [data.ai_summary] is truthy it appends exactly one agent
      message with it and sets the final answer to it; when none of
      [ai_summary], [summary] and [recommendations] is truthy it appends no
      message.
    - the research branch of [sendMessage], which keeps no steps list and
      no final answer, appends the steps in the order received, each as a
      message of its own type (or "step"), when [data.steps] is an array
      of entries that are not null; then exactly one agent message with
      [ai_summary], or [summary] as the fallback, when one is truthy;
      otherwise, when [recommendations] is an array whose entries all
      convert to strings, exactly one agent message whose content is
      "**Recommendations:**\n" and the list joined with newlines; when an
      entry does not convert (an object with an own property [toString],
      at any depth of arrays), the join throws its TypeError inside the
      state updater and no message is logged for the recommendations;
      and nothing more when [recommendations] is falsy, so no message at
      all when there were no steps either. *)
Theorem research_result_handling (res : value) :
  nullish res = false ->
  (forall now st, exists st',
      runAgent_settle (Ok res) now st = Done tt st'
      /\ (truthy (response_field res (str "steps")) = true ->
          steps st' = response_field res (str "steps"))
      /\ (truthy (response_field res (str "ai_summary")) = true ->
          messages st'
          = messages st
            ++ [{| id := now + 1; type := str "agent";
                   content := response_field res (str "ai_summary") |}]
          /\ finalAns st' = response_field res (str "ai_summary"))
      /\ (truthy (response_field res (str "ai_summary")) = false ->
          truthy (response_field res (str "summary")) = false ->
          truthy (response_field res (str "recommendations")) = false ->
          messages st' = messages st))
  /\ (forall ticker query st,
        truthy (response_field res (str "steps")) = false
        \/ isArray (response_field res (str "steps")) = true ->
        Forall (fun s => nullish s = false)
               (items_of (response_field res (str "steps"))) ->
        (truthy (js_or (response_field res (str "ai_summary"))
                       (response_field res (str "summary"))) = true ->
         exists st',
           FloatingAgent.sendMessage_settle
             (FloatingAgent.ToResearch ticker query) (Ok res) st = Done tt st'
           /\ FloatingAgent.messages st'
              = FloatingAgent.messages st
                ++ map FloatingAgent.step_message
                     (items_of (response_field res (str "steps")))
                ++ [{| FloatingAgent.type := VStr (str "agent");
                       FloatingAgent.content :=
                         js_or (response_field res (str "ai_summary"))
                               (response_field res (str "summary")) |}])
        /\ (truthy (js_or (response_field res (str "ai_summary"))
                          (response_field res (str "summary"))) = false ->
            forall recommendations,
              response_field res (str "recommendations") = VArr recommendations ->
              (forallb printable recommendations = true ->
               exists st' lines,
                 join [LF] recommendations = Ok lines
                 /\ FloatingAgent.sendMessage_settle
                      (FloatingAgent.ToResearch ticker query) (Ok res) st
                    = Done tt st'
                 /\ FloatingAgent.messages st'
                    = FloatingAgent.messages st
                      ++ map FloatingAgent.step_message
                           (items_of (response_field res (str "steps")))
                      ++ [{| FloatingAgent.type := VStr (str "agent");
                             FloatingAgent.content :=
                               VStr (str "**Recommendations:**" ++ [LF]
                                     ++ lines) |}])
              /\ (forallb printable recommendations = false ->
                  join [LF] recommendations = Throw not_primitive
                  /\ FloatingAgent.sendMessage_settle
                       (FloatingAgent.ToResearch ticker query) (Ok res) st
                     = Crashed not_primitive))
        /\ (truthy (js_or (response_field res (str "ai_summary"))
                          (response_field res (str "summary"))) = false ->
            truthy (response_field res (str "recommendations")) = false ->
            exists st',
              FloatingAgent.sendMessage_settle
                (FloatingAgent.ToResearch ticker query) (Ok res) st
              = Done tt st'
              /\ FloatingAgent.messages st'
                 = FloatingAgent.messages st
                   ++ map FloatingAgent.step_message
                        (items_of (response_field res (str "steps")))
              /\ (truthy (response_field res (str "steps")) = false ->
                  FloatingAgent.messages st' = FloatingAgent.messages st))).
Proof.
  intros Hres. split.
  - intros now st. rewrite (runAgent_settle_ok _ _ _ Hres).
    eexists. split; [reflexivity|].
    destruct (truthy (response_field res (str "steps")));
    destruct (truthy (response_field res (str "ai_summary")));
      simpl; repeat split; intros; try discriminate; reflexivity.
  - intros t q st Hsteps Hitems.
    split; [|split].
    + intros Hsum.
      rewrite (sendMessage_research_ok t q res [] st Hres Hsteps Hitems
                 (or_introl Hsum)).
      eexists. split; [reflexivity|]. unfold FloatingAgent.research_tail.
      rewrite Hsum. reflexivity.
    + intros Hsum recs Hrecs. pose proof (join_printable [LF] recs) as Hj.
      split; intros Hp.
      * destruct (join [LF] recs) as [lines|e] eqn:Hlines.
        2:{ destruct Hj as [Hj _]. congruence. }
        exists (FloatingAgent.setIsThinking false
                  (FloatingAgent.setMessages
                     (fun prev =>
                        prev ++ map FloatingAgent.step_message
                                  (items_of (response_field res (str "steps")))
                             ++ FloatingAgent.research_tail res lines) st)),
               lines.
        split; [reflexivity|]. split.
        -- apply (sendMessage_research_ok t q res lines st Hres Hsteps Hitems).
           right; right. rewrite Hrecs. split; [reflexivity | exact Hlines].
        -- unfold FloatingAgent.research_tail.
           rewrite Hsum, Hrecs. reflexivity.
      * destruct (join [LF] recs) as [lines|e] eqn:Hlines;
          [congruence|]. destruct Hj as [_ ->]. split; [reflexivity|].
        unfold FloatingAgent.sendMessage_settle, FloatingAgent.research_branch.
        cbv [seq try_catch eval modify when ret].
        rewrite !(data_field_nonnullish _ _ Hres).
        fold (js_or (response_field res (str "ai_summary"))
                    (response_field res (str "summary"))).
        rewrite Hsum, Hrecs.
        assert (Hshow : exists st1,
          (if truthy (response_field res (str "steps"))
           then FloatingAgent.show_steps (response_field res (str "steps"))
           else fun s => Done tt s) st = Done tt st1).
        { destruct Hsteps as [Hf | Ha].
          - rewrite Hf. eexists. reflexivity.
          - destruct (response_field res (str "steps")); try discriminate Ha.
            cbn [truthy]. rewrite (show_steps_items _ _ Hitems).
            eexists. reflexivity. }
        destruct Hshow as [st1 ->]. cbn [truthy].
        unfold update, FloatingAgent.join_lines. rewrite Hlines. reflexivity.
    + intros Hsum Hrecs.
      rewrite (sendMessage_research_ok t q res [] st Hres Hsteps Hitems
                 (or_intror (or_introl Hrecs))).
      eexists. split; [reflexivity|]. unfold FloatingAgent.research_tail.
      rewrite Hsum, Hrecs. simpl. rewrite app_nil_r. split; [reflexivity|].
      intros Hf. destruct (response_field res (str "steps"));
        try discriminate Hf; simpl; apply app_nil_r.
Qed.

Lemma research_result_handling_witness :
  exists st',
    FloatingAgent.sendMessage_settle
      (FloatingAgent.ToResearch (VStr (str "TCS")) (VStr (str "outlook")))
      (Ok response_recommendations) FloatingAgent.initial
    = Done tt st'
    /\ FloatingAgent.messages st'
       = [{| FloatingAgent.type := VStr (str "agent");
             FloatingAgent.content :=
               VStr (str "**Recommendations:**" ++ [LF] ++ str "Buy"
                     ++ [LF] ++ str "Hold") |}].
Proof.
  destruct (research_result_handling response_recommendations eq_refl)
    as [_ Hfloat].
  destruct (Hfloat (VStr (str "TCS")) (VStr (str "outlook"))
              FloatingAgent.initial (or_introl eq_refl) (List.Forall_nil _))
    as (_ & Hrecs & _).
  destruct (Hrecs eq_refl [VStr (str "Buy"); VStr (str "Hold")] eq_refl)
    as [Hgood _].
  destruct (Hgood eq_refl) as (st' & lines & Hlines & Hrun & Hmsgs).
  injection Hlines as <-.
  exists st'. split; [exact Hrun | exact Hmsgs].
Defined.

(** A recommendation that does not convert: an object with an own
    [toString].  The join throws inside the updater, and the view
    crashes. *)
Example recommendation_with_own_toString :
  FloatingAgent.sendMessage_settle
    (FloatingAgent.ToResearch (VStr (str "TCS")) (VStr (str "outlook")))
    (Ok (VObj [(str "data",
                VObj [(str "recommendations",
                       VArr [VObj [(str "toString",
                                    VNum (Number true (str "1")))]])])]))
    FloatingAgent.initial
  = Crashed not_primitive.
Proof. vm_compute. reflexivity. Qed.

(** Outside these conditions the research branch of [sendMessage] does not
    append the messages above.  Steps that are not an array are a
    [TypeError] inside the [try], so one error message is appended. *)
Example steps_not_an_array :
  FloatingAgent.sendMessage_settle
    (FloatingAgent.ToResearch (VStr (str "TCS")) (VStr (str "outlook")))
    (Ok (VObj [(str "data", VObj [(str "steps", VStr (str "none"))])]))
    FloatingAgent.initial
  = Done tt
      (FloatingAgent.mkState false
         [ {| FloatingAgent.type := VStr (str "error");
              FloatingAgent.content :=
                VStr (FloatingAgent.warning_sign
                      ++ str " Error: res.data.steps.forEach is not a function") |} ]
         [] false).
Proof. vm_compute. reflexivity. Qed.

(** A step that is [null], or recommendations that are not an array, throw
    inside a state updater: the view crashes. *)
Example null_step_crashes :
  exists e,
    FloatingAgent.sendMessage_settle
      (FloatingAgent.ToResearch (VStr (str "TCS")) (VStr (str "outlook")))
      (Ok (VObj [(str "data", VObj [(str "steps", VArr [VNull])])]))
      FloatingAgent.initial
    = Crashed e.
Proof. eexists. vm_compute. reflexivity. Qed.

Example recommendations_not_an_array_crash :
  exists e,
    FloatingAgent.sendMessage_settle
      (FloatingAgent.ToResearch (VStr (str "TCS")) (VStr (str "outlook")))
      (Ok (VObj [(str "data",
                  VObj [(str "recommendations", VStr (str "Buy"))])]))
      FloatingAgent.initial
    = Crashed e.
Proof. eexists. vm_compute. reflexivity. Qed.

(** The first example of the specification, in both components. *)
Example summary_in_workspace (now : Z) (st : State) :
  runAgent_settle (Ok response_with_summary) now st
  = Done tt
      (mkState
         (messages st ++ [{| id := now + 1; type := str "agent";
                             content := VStr (str "Buy signal") |}])
         (VArr [tool_step "fetched price"]) (VStr (str "Buy signal"))
         false (exporting st) (query st) (ticker st) (collapsedSteps st)).
Proof. reflexivity. Qed.

Example summary_in_floating_agent :
  FloatingAgent.sendMessage_settle
    (FloatingAgent.ToResearch (VStr (str "TCS")) (VStr (str "outlook")))
    (Ok response_with_summary) FloatingAgent.initial
  = Done tt
      (FloatingAgent.mkState false
         [ {| FloatingAgent.type := VStr (str "tool");
              FloatingAgent.content := VStr (str "fetched price") |};
           {| FloatingAgent.type := VStr (str "agent");
              FloatingAgent.content := VStr (str "Buy signal") |} ]
         [] false).
Proof. vm_compute. reflexivity. Qed.

(** C1, a counterexample.  On a response that holds recommendations only,
    [runAgent] appends no message; and on a response with one step and a
    summary, [sendMessage] appends two messages, the step and the summary,
    not one. *)
Lemma handlers_differ_on_research_results :
  (~ exists st' m,
       runAgent_settle (Ok response_recommendations) 0 initial = Done tt st'
       /\ messages st' = messages initial ++ [m]
       /\ type m = str "agent"
       /\ content m = VStr (str "**Recommendations:**" ++ [LF] ++ str "Buy"
                            ++ [LF] ++ str "Hold"))
  /\ (~ exists st' m,
         FloatingAgent.sendMessage_settle
           (FloatingAgent.ToResearch (VStr (str "TCS")) (VStr (str "outlook")))
           (Ok response_with_summary) FloatingAgent.initial
         = Done tt st'
         /\ FloatingAgent.messages st'
            = FloatingAgent.messages FloatingAgent.initial ++ [m]).
Proof.
  split.
  - intros (st' & m & Hrun & Hm & _).
    vm_compute in Hrun. injection Hrun as <-. discriminate Hm.
  - intros (st' & m & Hrun & Hm).
    vm_compute in Hrun. injection Hrun as <-. discriminate Hm.
Qed.

End ResearchResults.

(** * The classifier of the floating agent *)

Section Classifier.

Import RegExp FloatingAgent.


Lemma span_app p s : fst (span p s) ++ snd (span p s) = s.
Proof.
  induction s as [|c s IH]; simpl; [reflexivity|].
  destruct (p c); [|reflexivity].
  destruct (span p s) as [a b]; simpl in *. congruence.
Qed.

Lemma span_all p s : Forall (fun c => p c = true) (fst (span p s)).
Proof.
  induction s as [|c s IH]; simpl; [constructor|].
  destruct (p c) eqn:Hc; [|constructor].
  destruct (span p s) as [a b]; simpl in *. constructor; assumption.
Qed.

Lemma span_stop p s :
  match snd (span p s) with
  | c :: _ => p c = false
  | [] => True
  end.
Proof.
  induction s as [|c s IH]; simpl; [exact I|].
  destruct (p c) eqn:Hc; [|exact Hc].
  destruct (span p s) as [a b]; simpl in *. exact IH.
Qed.

Lemma span_prefix p a rest :
  Forall (fun c => p c = true) a ->
  match rest with c :: _ => p c = false | [] => True end ->
  span p (a ++ rest) = (a, rest).
Proof.
  intros Ha Hrest. induction Ha as [|c a Hc _ IH]; simpl.
  - destruct rest as [|c rest]; [reflexivity|]. simpl. rewrite Hrest. reflexivity.
  - rewrite Hc, IH. reflexivity.
Qed.

(** ** The matcher on the two patterns *)

(** When the rest of the pattern refuses every input that starts with a
    unit of the class, the iteration takes the whole run. *)
Lemma star_blocked a (k : cont) s pos caps :
  (forall c s' p, atom_matches a c = true -> k (c :: s') p caps = None) ->
  star a k s pos caps
  = k (snd (span (atom_matches a) s))
      (pos + length (fst (span (atom_matches a) s)))%nat caps.
Proof.
  intros Hk. revert pos. induction s as [|c s IH]; intros pos; simpl.
  - f_equal. lia.
  - destruct (atom_matches a c) eqn:Hc.
    + rewrite IH. destruct (span (atom_matches a) s) as [x y]; simpl.
      rewrite Nat.add_succ_r.
      destruct (k y (S (pos + length x)) caps); [reflexivity|].
      apply Hk. exact Hc.
    + simpl. f_equal. lia.
Qed.

(** When the rest of the pattern accepts after the whole run, the greedy
    iteration stops there. *)
Lemma star_total a (k : cont) s pos caps r :
  k (snd (span (atom_matches a) s))
    (pos + length (fst (span (atom_matches a) s)))%nat caps = Some r ->
  star a k s pos caps = Some r.
Proof.
  revert pos. induction s as [|c s IH]; intros pos; simpl.
  - replace (pos + 0)%nat with pos by lia. auto.
  - destruct (atom_matches a c) eqn:Hc.
    + destruct (span (atom_matches a) s) as [x y] eqn:Hsp; simpl.
      rewrite Nat.add_succ_r.
      intros H. rewrite (IH (S pos) H). reflexivity.
    + simpl. replace (pos + 0)%nat with pos by lia. auto.
Qed.

Lemma matcher_literal p (k : cont) s pos caps :
  matcher (literal p) k s pos caps
  = match strip_ci p s with
    | Some rest => k rest (pos + length p)%nat caps
    | None => None
    end.
Proof.
  revert s pos. induction p as [|a p IH]; intros s pos; simpl.
  - f_equal. lia.
  - destruct s as [|b s]; [reflexivity|].
    unfold canonicalize. destruct (upper_unit b =? upper_unit a); [|reflexivity].
    fold (literal p). rewrite IH. destruct (strip_ci p s); [|reflexivity].
    f_equal. lia.
Qed.

Lemma letter_range c : atom_matches (Range 65 90) c = is_letter c.
Proof.
  unfold atom_matches, canonicalize, upper_unit, is_letter, is_upper, is_lower.
  destruct (97 <=? c) eqn:H1; destruct (c <=? 122) eqn:H2; simpl;
  destruct (65 <=? c) eqn:H3; destruct (c <=? 90) eqn:H4; simpl;
    repeat match goal with
           | H : (_ <=? _) = true |- _ => apply N.leb_le in H
           | H : (_ <=? _) = false |- _ => apply N.leb_gt in H
           end;
    try lia;
    repeat match goal with
           | |- context [?a <=? ?b] =>
               let E := fresh in
               destruct (a <=? b) eqn:E;
               [apply N.leb_le in E | apply N.leb_gt in E]
           end; simpl; try reflexivity; lia.
Qed.

Lemma span_ext p q s : (forall c, p c = q c) -> span p s = span q s.
Proof.
  intros H. induction s as [|c s IH]; simpl; [reflexivity|].
  rewrite H, IH. reflexivity.
Qed.

Lemma letter_not_dot c : is_letter c = true -> (upper_unit c =? 46) = false.
Proof.
  unfold upper_unit, is_letter, is_upper, is_lower. intros H.
  apply N.eqb_neq.
  destruct ((97 <=? c) && (c <=? 122)) eqn:Hl.
  - apply andb_prop in Hl as [H1 H2]. apply N.leb_le in H1, H2. simpl. lia.
  - rewrite orb_false_r in H. apply andb_prop in H as [H1 H2].
    apply N.leb_le in H1, H2. simpl. lia.
Qed.

Lemma strip_ci_some p s r :
  strip_ci p s = Some r -> (length s = length p + length r)%nat.
Proof.
  revert s. induction p as [|a p IH]; intros s; simpl.
  - intros H; injection H as <-. reflexivity.
  - destruct s as [|b s]; [discriminate|].
    destruct (upper_unit b =? upper_unit a); [|discriminate].
    intros H. simpl. rewrite (IH _ H). reflexivity.
Qed.

Lemma matcher_ticker s pos :
  match ticker_here s with
  | Some m =>
      exists g2,
        matcher ticker_pattern final s pos ∅
        = Some ((pos + length m)%nat, <[1%nat := m]> (<[2%nat := g2]> ∅))
  | None => matcher ticker_pattern final s pos ∅ = None
  end.
Proof.
  unfold ticker_pattern, ticker_here. cbn [matcher].
  destruct s as [|c s]; [reflexivity|].
  cbn [span]. rewrite letter_range.
  destruct (is_letter c) eqn:Hc; [|reflexivity].
  rewrite star_blocked.
  2:{ intros c' s' p Hc'. cbn [matcher atom_matches]. unfold canonicalize.
      rewrite letter_range in Hc'. change (upper_unit 46) with 46.
      rewrite (letter_not_dot _ Hc'). reflexivity. }
  rewrite (span_ext _ _ s letter_range).
  destruct (span is_letter s) as [L rest] eqn:Hsp.
  cbn [fst snd].
  assert (Hs : s = L ++ rest).
  { pose proof (span_app is_letter s) as H. rewrite Hsp in H. auto. }
  cbn [matcher atom_matches strip_ci]. unfold canonicalize.
  change (upper_unit 46) with 46.
  destruct rest as [|d r1]; [reflexivity|].
  destruct (upper_unit d =? 46); [|reflexivity].
  rewrite !matcher_literal.
  change (length (str "NS")) with 2%nat.
  change (length (str "BO")) with 2%nat.
  assert (Hdone : forall r2,
    (strip_ci (str "NS") r1 = Some r2 \/ strip_ci (str "BO") r1 = Some r2) ->
    exists g2 : jsstring,
      final r2 (S (S pos + length L) + 2)%nat
        (<[1%nat:=take (S (S pos + length L) + 2 - pos) (c :: s)]>
           (<[2%nat:=take (S (S pos + length L) + 2 - S (S pos + length L)) r1]>
              ∅))
      = Some ((pos + length (take (length (c :: L) + 3) (c :: s)))%nat,
              <[1%nat:=take (length (c :: L) + 3) (c :: s)]> (<[2%nat:=g2]> ∅))).
  { intros r2 Hr2.
    assert (Hr1 : (length r1 = 2 + length r2)%nat).
    { destruct Hr2 as [H|H]; apply strip_ci_some in H; exact H. }
    replace (S (S pos + length L) + 2 - pos)%nat
      with (length (c :: L) + 3)%nat by (simpl; lia).
    rewrite length_take.
    assert (length (c :: s) = (length (c :: L) + 3 + length r2)%nat) as ->.
    { subst s; simpl; rewrite length_app; simpl. lia. }
    rewrite Nat.min_l by lia.
    replace (S (S pos + length L) + 2)%nat
      with (pos + (length (c :: L) + 3))%nat by (simpl; lia).
    eexists. reflexivity. }
  destruct (strip_ci (str "NS") r1) as [r2|] eqn:Hns.
  - apply (Hdone r2). left; reflexivity.
  - destruct (strip_ci (str "BO") r1) as [r2|] eqn:Hbo; [|reflexivity].
    apply (Hdone r2). right; reflexivity.
Qed.

Lemma letter_bounds c : is_letter c = true -> 65 <= c <= 122.
Proof.
  unfold is_letter, is_upper, is_lower. intros H.
  apply orb_prop in H as [H|H]; apply andb_prop in H as [H1 H2];
    apply N.leb_le in H1, H2; lia.
Qed.

Lemma space_not_letter c : is_space c = true -> is_letter c = false.
Proof.
  intros Hs. destruct (is_letter c) eqn:Hl; [|reflexivity].
  apply letter_bounds in Hl. unfold is_space in Hs.
  assert (H1 : (c <=? 13) = false) by (apply N.leb_gt; lia).
  assert (H2 : (8192 <=? c) = false) by (apply N.leb_gt; lia).
  assert (H3 : forall n, 122 < n -> (c =? n) = false)
    by (intros n Hn; apply N.eqb_neq; lia).
  assert (H4 : (c =? 32) = false) by (apply N.eqb_neq; lia).
  rewrite H1, H2, H4, !H3 in Hs by lia.
  rewrite Bool.andb_false_r in Hs. simpl in Hs. discriminate Hs.
Qed.

Lemma span_length p s :
  (length s = length (fst (span p s)) + length (snd (span p s)))%nat.
Proof. rewrite <- (span_app p s) at 1. apply length_app. Qed.

Lemma matcher_analyze s pos :
  match analyze_here s with
  | Some (m, T) =>
      matcher analyze_pattern final s pos ∅
      = Some ((pos + length m)%nat, <[1%nat := T]> ∅)
  | None => matcher analyze_pattern final s pos ∅ = None
  end.
Proof.
  unfold analyze_pattern, analyze_here. cbn [matcher].
  rewrite matcher_literal.
  destruct (strip_ci (str "analyze") s) as [r0|] eqn:Hr0; [|reflexivity].
  apply strip_ci_some in Hr0. change (length (str "analyze")) with 7%nat in *.
  destruct r0 as [|w r0]; [reflexivity|].
  cbn [span]. change (atom_matches Space w) with (is_space w).
  destruct (is_space w) eqn:Hw; [|reflexivity].
  rewrite star_blocked.
  2:{ intros c' s' p Hc'. change (is_space c' = true) in Hc'. cbn [matcher].
      rewrite letter_range, (space_not_letter _ Hc'). reflexivity. }
  change (atom_matches Space) with is_space.
  pose proof (span_length is_space r0) as HlenW.
  destruct (span is_space r0) as [W r1]. cbn [fst snd] in *.
  cbn [matcher].
  destruct r1 as [|c r1]; [reflexivity|].
  cbn [span]. rewrite letter_range.
  destruct (is_letter c) eqn:Hc; [|reflexivity].
  pose proof (span_length is_letter r1) as HlenT.
  pose proof (span_app is_letter r1) as HappT.
  erewrite star_total; [|reflexivity].
  rewrite (span_ext _ _ r1 letter_range).
  destruct (span is_letter r1) as [T rest]. cbn [fst snd] in *.
  unfold final. f_equal. f_equal.
  - rewrite length_take. cbn [length] in *. lia.
  - f_equal. subst r1.
    match goal with
    | |- take ?n _ = _ => replace n with (length (c :: T)) by (simpl; lia)
    end.
    change (c :: T ++ rest) with ((c :: T) ++ rest).
    rewrite take_app_length. reflexivity.
Qed.

(** ** Prefixes *)

Lemma strip_ci_spec p s r :
  strip_ci p s = Some r <->
  exists A, s = A ++ r /\ toUpperCase A = toUpperCase p.
Proof.
  revert s. induction p as [|a p IH]; intros s; simpl.
  - split.
    + intros H; injection H as <-. exists []. split; reflexivity.
    + intros (A & -> & HA). destruct A; [reflexivity | discriminate HA].
  - destruct s as [|b s].
    + split; [discriminate|]. intros (A & HA & Hup).
      destruct A; [discriminate Hup | discriminate HA].
    + destruct (upper_unit b =? upper_unit a) eqn:Hab.
      * apply N.eqb_eq in Hab. rewrite IH. split.
        -- intros (A & -> & HA). exists (b :: A). simpl. split; [reflexivity|].
           rewrite Hab, HA. reflexivity.
        -- intros (A & HA & Hup). destruct A as [|b' A]; [discriminate Hup|].
           simpl in HA, Hup. injection HA as <- ->. injection Hup as _ Hup.
           exists A. split; [reflexivity | exact Hup].
      * apply N.eqb_neq in Hab. split; [discriminate|].
        intros (A & HA & Hup). destruct A as [|b' A]; [discriminate Hup|].
        simpl in HA, Hup. injection HA as <- ->. injection Hup as Hb _.
        contradiction.
Qed.

Lemma strip_prefix_spec p s r : strip_prefix p s = Some r <-> s = p ++ r.
Proof.
  revert s. induction p as [|a p IH]; intros s; simpl.
  - split; [intros H; injection H as <-; reflexivity | intros ->; reflexivity].
  - destruct s as [|b s]; [split; discriminate|].
    destruct (a =? b) eqn:Hab.
    + apply N.eqb_eq in Hab. subst b. rewrite IH. split; [intros ->|]; congruence.
    + apply N.eqb_neq in Hab. split; [discriminate|]. intros H.
      injection H as -> _. contradiction.
Qed.

(** ** The first index where a recognizer succeeds *)

Lemma scan_some {A} (here : jsstring -> option A) s pre a :
  scan here s = Some (pre, a) ->
  exists rest, s = pre ++ rest /\ here rest = Some a
    /\ forall pre' rest', s = pre' ++ rest' ->
         (length pre' < length pre)%nat -> here rest' = None.
Proof.
  revert pre. induction s as [|c s IH]; intros pre; simpl.
  - destruct (here []) as [a'|] eqn:H0; [|discriminate].
    intros H; injection H as <- <-. exists []. split; [reflexivity|].
    split; [exact H0|]. intros ? ? _ Hlt. simpl in Hlt. lia.
  - destruct (here (c :: s)) as [a'|] eqn:H0.
    + intros H; injection H as <- <-. exists (c :: s). split; [reflexivity|].
      split; [exact H0|]. intros ? ? _ Hlt. simpl in Hlt. lia.
    + destruct (scan here s) as [[pre0 a0]|] eqn:Hs; [|discriminate].
      intros H; injection H as <- <-.
      destruct (IH _ eq_refl) as (rest & -> & Hrest & Hfirst).
      exists rest. split; [reflexivity|]. split; [exact Hrest|].
      intros pre' rest' Heq Hlt. destruct pre' as [|c' pre'].
      * simpl in Heq. subst rest'. exact H0.
      * simpl in Heq. injection Heq as <- Heq. apply (Hfirst pre' rest' Heq).
        simpl in Hlt. lia.
Qed.

Lemma scan_none {A} (here : jsstring -> option A) s :
  scan here s = None ->
  forall pre rest, s = pre ++ rest -> here rest = None.
Proof.
  induction s as [|c s IH]; simpl.
  - destruct (here []) eqn:H0; [discriminate|]. intros _ pre rest Heq.
    symmetry in Heq. apply app_eq_nil in Heq as [_ ->]. exact H0.
  - destruct (here (c :: s)) eqn:H0; [discriminate|].
    destruct (scan here s) as [[pre0 a0]|] eqn:Hs; [discriminate|].
    intros _ pre rest Heq. destruct pre as [|c' pre].
    + simpl in Heq. subst rest. exact H0.
    + simpl in Heq. injection Heq as _ Heq. exact (IH eq_refl pre rest Heq).
Qed.

Lemma remove_first_hit pat s r :
  strip_prefix pat s = Some r -> remove_first pat s = r.
Proof. intros H. destruct s; simpl; rewrite H; reflexivity. Qed.

Lemma remove_first_miss pat c s :
  strip_prefix pat (c :: s) = None ->
  remove_first pat (c :: s) = c :: remove_first pat s.
Proof. intros H. cbn [remove_first]. rewrite H. reflexivity. Qed.

Lemma scan_remove {A} (here : jsstring -> option A) (tok : A -> jsstring) :
  (forall s a, here s = Some a -> exists post, s = tok a ++ post) ->
  forall s pre a,
    scan here s = Some (pre, a) ->
    (forall post, here (tok a ++ post) <> None) ->
    exists post, s = pre ++ tok a ++ post
                 /\ remove_first (tok a) s = pre ++ post.
Proof.
  intros Htok s. induction s as [|c s IH]; intros pre a; cbn [scan].
  - destruct (here []) as [a'|] eqn:H0; [|discriminate].
    intros H _; injection H as <- <-.
    destruct (Htok _ _ H0) as [post Hpost]. exists post.
    split; [exact Hpost|].
    apply remove_first_hit, strip_prefix_spec. exact Hpost.
  - destruct (here (c :: s)) as [a'|] eqn:H0.
    + intros H _; injection H as <- <-.
      destruct (Htok _ _ H0) as [post Hpost]. exists post.
      split; [exact Hpost|].
      apply remove_first_hit, strip_prefix_spec. exact Hpost.
    + destruct (scan here s) as [[pre0 a0]|] eqn:Hs; [|discriminate].
      intros H Hclosed; injection H as <- <-.
      destruct (IH _ _ eq_refl Hclosed) as (post & -> & Hrm).
      exists post. split; [reflexivity|].
      rewrite remove_first_miss; [rewrite Hrm; reflexivity|].
      destruct (strip_prefix (tok a0) (c :: pre0 ++ tok a0 ++ post))
        as [r|] eqn:Hsp; [|reflexivity].
      apply strip_prefix_spec in Hsp. exfalso.
      apply (Hclosed r). rewrite <- Hsp. exact H0.
Qed.

(** ** The scans decide the recognizers in words *)

Lemma upper_unit_dot d : upper_unit d = 46 -> d = 46.
Proof.
  unfold upper_unit, is_lower.
  destruct ((97 <=? d) && (d <=? 122)) eqn:Hl; [|auto].
  apply andb_prop in Hl as [H1 H2]. apply N.leb_le in H1, H2. lia.
Qed.

Lemma toUpperCase_length s : length (toUpperCase s) = length s.
Proof. apply length_map. Qed.

Lemma letter_not_space c : is_letter c = true -> is_space c = false.
Proof.
  intros Hl. destruct (is_space c) eqn:Hs; [|reflexivity].
  rewrite (space_not_letter _ Hs) in Hl. discriminate Hl.
Qed.

Lemma ticker_here_sound s m :
  ticker_here s = Some m -> exists post, s = m ++ post /\ ticker_token m.
Proof.
  unfold ticker_here.
  pose proof (span_app is_letter s) as Happ.
  pose proof (span_all is_letter s) as Hall.
  destruct (span is_letter s) as [L rest]. cbn [fst snd] in *.
  destruct L as [|c L]; [discriminate|].
  destruct (strip_ci [46] rest) as [r1|] eqn:Hdot; [|discriminate].
  apply strip_ci_spec in Hdot as (D & -> & HD).
  destruct D as [|d [|? ?]]; try discriminate HD.
  injection HD as HD. apply upper_unit_dot in HD. subst d.
  destruct (match strip_ci (str "NS") r1 with
            | Some r2 => Some r2
            | None => strip_ci (str "BO") r1
            end) as [r2|] eqn:Hchoice; [|discriminate].
  assert (Hsuf : exists suf, r1 = suf ++ r2
            /\ (toUpperCase suf = str "NS" \/ toUpperCase suf = str "BO")).
  { destruct (strip_ci (str "NS") r1) as [r2'|] eqn:Hns.
    - injection Hchoice as ->.
      apply strip_ci_spec in Hns as (suf & -> & Hsuf). eauto.
    - apply strip_ci_spec in Hchoice as (suf & -> & Hsuf). eauto. }
  destruct Hsuf as (suf & -> & Hsuf).
  intros H. injection H as <-.
  assert (Hlen : length suf = 2%nat).
  { rewrite <- toUpperCase_length. destruct Hsuf as [-> | ->]; reflexivity. }
  match goal with
  | |- context [take ?n s] =>
      assert (Hm : take n s = (c :: L) ++ [46] ++ suf)
  end.
  { subst s. rewrite (app_assoc [46] suf r2).
    rewrite (app_assoc (c :: L) ([46] ++ suf) r2).
    rewrite take_app_length'; [reflexivity|].
    rewrite !length_app. simpl. lia. }
  rewrite Hm. exists r2. subst s. split.
  - rewrite <- !app_assoc. reflexivity.
  - exists (c :: L), suf. split; [reflexivity|]. split; [|exact Hsuf].
    split; [discriminate | exact Hall].
Qed.

Lemma ticker_here_complete m post :
  ticker_token m -> ticker_here (m ++ post) = Some m.
Proof.
  intros (L & suf & -> & [Hne Hall] & Hsuf).
  assert (Hlen : length suf = 2%nat).
  { rewrite <- toUpperCase_length. destruct Hsuf as [-> | ->]; reflexivity. }
  unfold ticker_here. rewrite <- !app_assoc.
  rewrite (span_prefix is_letter L ([46] ++ suf ++ post) Hall eq_refl).
  destruct L as [|c L]; [contradiction Hne; reflexivity|].
  cbn [app strip_ci]. change (upper_unit 46 =? upper_unit 46) with true.
  cbn iota.
  assert (Hany : (match strip_ci (str "NS") (suf ++ post) with
                  | Some r2 => Some r2
                  | None => strip_ci (str "BO") (suf ++ post)
                  end) = Some post).
  { destruct Hsuf as [Hns | Hbo].
    - assert (H : strip_ci (str "NS") (suf ++ post) = Some post)
        by (apply strip_ci_spec; exists suf; split; [reflexivity | exact Hns]).
      rewrite H. reflexivity.
    - assert (H : strip_ci (str "BO") (suf ++ post) = Some post)
        by (apply strip_ci_spec; exists suf; split; [reflexivity | exact Hbo]).
      destruct (strip_ci (str "NS") (suf ++ post)) as [r2|] eqn:Hns;
        [|exact H].
      apply strip_ci_spec in Hns as (suf' & Heq & Hup).
      assert (length suf' = 2%nat)
        by (rewrite <- toUpperCase_length, Hup; reflexivity).
      f_equal. apply (f_equal (drop 2)) in Heq.
      rewrite <- Hlen in Heq at 1. rewrite drop_app_length in Heq.
      rewrite <- H0 in Heq. rewrite drop_app_length in Heq. auto. }
  rewrite Hany. f_equal.
  change (c :: L ++ 46 :: suf ++ post) with ((c :: L) ++ [46] ++ suf ++ post).
  rewrite (app_assoc [46] suf post), (app_assoc (c :: L) ([46] ++ suf) post).
  rewrite take_app_length'; [reflexivity|].
  rewrite !length_app. simpl. lia.
Qed.

Lemma analyze_here_sound s m T :
  analyze_here s = Some (m, T) ->
  exists post, s = m ++ post /\ analyze_phrase m T /\ free_end post.
Proof.
  unfold analyze_here.
  destruct (strip_ci (str "analyze") s) as [r0|] eqn:Hr0; [|discriminate].
  apply strip_ci_spec in Hr0 as (A & -> & HA).
  change (toUpperCase (str "analyze")) with (str "ANALYZE") in HA.
  assert (HlenA : length A = 7%nat)
    by (rewrite <- toUpperCase_length, HA; reflexivity).
  pose proof (span_app is_space r0) as HappW.
  pose proof (span_all is_space r0) as HallW.
  destruct (span is_space r0) as [W r1]. cbn [fst snd] in *.
  destruct W as [|w W]; [discriminate|].
  pose proof (span_app is_letter r1) as HappT.
  pose proof (span_all is_letter r1) as HallT.
  pose proof (span_stop is_letter r1) as Hstop.
  destruct (span is_letter r1) as [T' post]. cbn [fst snd] in *.
  destruct T' as [|t T']; [discriminate|].
  intros H. injection H as <- <-. subst r1 r0.
  match goal with
  | |- context [take ?n ?l] =>
      assert (Hm : take n l = A ++ (w :: W) ++ (t :: T'))
  end.
  { rewrite (app_assoc (w :: W)), (app_assoc A).
    rewrite take_app_length'; [reflexivity|].
    rewrite !length_app. cbn [length] in *. lia. }
  rewrite Hm. exists post. split; [rewrite <- !app_assoc; reflexivity|].
  split; [|exact Hstop].
  exists A, (w :: W). split; [reflexivity|]. split; [exact HA|].
  split; [discriminate|]. split; [exact HallW|].
  split; [discriminate | exact HallT].
Qed.

Lemma analyze_here_complete m T post :
  analyze_phrase m T -> free_end post ->
  analyze_here (m ++ post) = Some (m, T).
Proof.
  intros (A & W & -> & HA & HneW & HallW & [HneT HallT]) Hpost.
  assert (HlenA : length A = 7%nat)
    by (rewrite <- toUpperCase_length, HA; reflexivity).
  unfold analyze_here. rewrite <- !app_assoc.
  assert (Hr0 : strip_ci (str "analyze") (A ++ W ++ T ++ post)
                = Some (W ++ T ++ post))
    by (apply strip_ci_spec; exists A; split; [reflexivity | exact HA]).
  rewrite Hr0.
  destruct T as [|t T]; [contradiction HneT; reflexivity|].
  destruct W as [|w W]; [contradiction HneW; reflexivity|].
  rewrite (span_prefix is_space (w :: W) ((t :: T) ++ post) HallW).
  2:{ simpl. apply letter_not_space. inversion HallT; assumption. }
  rewrite (span_prefix is_letter (t :: T) post HallT Hpost).
  f_equal. f_equal.
  rewrite (app_assoc (w :: W)), (app_assoc A).
  rewrite take_app_length';
    [first [reflexivity | rewrite <- !app_assoc; reflexivity]|].
  rewrite !length_app. cbn [length] in *. lia.
Qed.

Lemma analyze_here_closed m T post :
  analyze_phrase m T -> analyze_here (m ++ post) <> None.
Proof.
  intros (A & W & -> & HA & HneW & HallW & [HneT HallT]).
  pose proof (span_app is_letter post) as Happ.
  pose proof (span_all is_letter post) as Hall.
  pose proof (span_stop is_letter post) as Hstop.
  destruct (span is_letter post) as [P1 P2]. cbn [fst snd] in *.
  subst post.
  replace ((A ++ W ++ T) ++ P1 ++ P2) with ((A ++ W ++ (T ++ P1)) ++ P2)
    by (rewrite <- !app_assoc; reflexivity).
  rewrite (analyze_here_complete _ (T ++ P1) P2); [discriminate| |exact Hstop].
  exists A, W. split; [reflexivity|]. split; [exact HA|].
  split; [exact HneW|]. split; [exact HallW|]. split.
  - destruct T; [contradiction HneT; reflexivity | discriminate].
  - apply Forall_app. split; assumption.
Qed.

Lemma same_prefix (pre pre' rest rest' : jsstring) :
  pre ++ rest = pre' ++ rest' -> length pre = length pre' ->
  pre = pre' /\ rest = rest'.
Proof.
  revert pre'. induction pre as [|c pre IH]; intros [|c' pre'] Heq Hlen;
    try discriminate Hlen.
  - split; [reflexivity | exact Heq].
  - simpl in Heq, Hlen. injection Heq as -> Heq. injection Hlen as Hlen.
    destruct (IH _ Heq Hlen) as [-> ->]. split; reflexivity.
Qed.

(** ** The first occurrence *)

Lemma scan_ticker s :
  match scan ticker_here s with
  | Some (pre, m) => exists post, first_ticker s pre m post
  | None => no_ticker s
  end.
Proof.
  destruct (scan ticker_here s) as [[pre m]|] eqn:Hscan.
  - apply scan_some in Hscan as (rest & -> & Hrest & Hfirst).
    apply ticker_here_sound in Hrest as (post & -> & Htok).
    exists post. split; [reflexivity|]. split; [exact Htok|].
    intros pre' m' post' Heq Htok'.
    destruct (Nat.le_gt_cases (length pre) (length pre')) as [|Hlt];
      [assumption|].
    pose proof (Hfirst _ _ Heq Hlt) as Hnone.
    rewrite (ticker_here_complete _ _ Htok') in Hnone. discriminate Hnone.
  - intros pre m post Heq Htok.
    pose proof (scan_none _ _ Hscan _ _ Heq) as Hnone.
    rewrite (ticker_here_complete _ _ Htok) in Hnone. discriminate Hnone.
Qed.

Lemma first_ticker_scan s pre m post :
  first_ticker s pre m post -> scan ticker_here s = Some (pre, m).
Proof.
  intros (Heq & Htok & Hleft).
  pose proof (scan_ticker s) as Hscan.
  destruct (scan ticker_here s) as [[pre0 m0]|] eqn:Hs.
  - destruct Hscan as (post0 & Heq0 & Htok0 & Hleft0).
    pose proof (Hleft _ _ _ Heq0 Htok0).
    pose proof (Hleft0 _ _ _ Heq Htok).
    rewrite Heq in Heq0.
    destruct (same_prefix _ _ _ _ Heq0 ltac:(lia)) as [-> Hrest].
    pose proof (ticker_here_complete _ post Htok) as H1.
    rewrite Hrest, (ticker_here_complete _ post0 Htok0) in H1.
    injection H1 as ->. reflexivity.
  - exfalso. exact (Hscan _ _ _ Heq Htok).
Qed.

Lemma scan_analyze s :
  match scan analyze_here s with
  | Some (pre, (m, T)) => exists post, first_analyze s pre m T post
  | None => no_analyze s
  end.
Proof.
  destruct (scan analyze_here s) as [[pre [m T]]|] eqn:Hscan.
  - apply scan_some in Hscan as (rest & -> & Hrest & Hfirst).
    apply analyze_here_sound in Hrest as (post & -> & Hph & Hend).
    exists post. split; [reflexivity|]. split; [exact Hph|].
    split; [exact Hend|].
    intros pre' m' T' post' Heq Hph'.
    destruct (Nat.le_gt_cases (length pre) (length pre')) as [|Hlt];
      [assumption|].
    pose proof (Hfirst _ _ Heq Hlt) as Hnone.
    exfalso. exact (analyze_here_closed _ _ _ Hph' Hnone).
  - intros pre m T post Heq Hph.
    pose proof (scan_none _ _ Hscan _ _ Heq) as Hnone.
    exact (analyze_here_closed _ _ _ Hph Hnone).
Qed.

Lemma first_analyze_scan s pre m T post :
  first_analyze s pre m T post -> scan analyze_here s = Some (pre, (m, T)).
Proof.
  intros (Heq & Hph & Hend & Hleft).
  pose proof (scan_analyze s) as Hscan.
  destruct (scan analyze_here s) as [[pre0 [m0 T0]]|] eqn:Hs.
  - destruct Hscan as (post0 & Heq0 & Hph0 & Hend0 & Hleft0).
    pose proof (Hleft _ _ _ _ Heq0 Hph0).
    pose proof (Hleft0 _ _ _ _ Heq Hph).
    rewrite Heq in Heq0.
    destruct (same_prefix _ _ _ _ Heq0 ltac:(lia)) as [-> Hrest].
    pose proof (analyze_here_complete _ _ post Hph Hend) as H1.
    rewrite Hrest, (analyze_here_complete _ _ post0 Hph0 Hend0) in H1.
    injection H1 as -> ->. reflexivity.
  - exfalso. exact (Hscan _ _ _ _ Heq Hph).
Qed.

(** ** The matcher's search is the scan *)

Lemma ticker_here_take s m : ticker_here s = Some m -> take (length m) s = m.
Proof.
  intros H. apply ticker_here_sound in H as (post & -> & _).
  apply take_app_length.
Qed.

Lemma analyze_here_take s m T :
  analyze_here s = Some (m, T) -> take (length m) s = m.
Proof.
  intros H. apply analyze_here_sound in H as (post & -> & _).
  apply take_app_length.
Qed.

Lemma search_ticker s pos :
  match scan ticker_here s with
  | Some (pre, m) =>
      exists g2,
        search ticker_pattern s pos
        = Some {| index := pos + length pre;
                  captures := <[0%nat := m]> (<[1%nat := m]> (<[2%nat := g2]> ∅)) |}
  | None => search ticker_pattern s pos = None
  end.
Proof.
  revert pos. induction s as [|c s IH]; intros pos.
  - cbn [scan search]. pose proof (matcher_ticker [] pos) as Hm.
    destruct (ticker_here []) as [m|] eqn:Hh.
    + destruct Hm as [g2 ->]. exists g2.
      replace (pos + length m - pos)%nat with (length m) by lia.
      rewrite (ticker_here_take _ _ Hh), Nat.add_0_r. reflexivity.
    + rewrite Hm. reflexivity.
  - cbn [scan search]. pose proof (matcher_ticker (c :: s) pos) as Hm.
    destruct (ticker_here (c :: s)) as [m|] eqn:Hh.
    + destruct Hm as [g2 ->]. exists g2.
      replace (pos + length m - pos)%nat with (length m) by lia.
      rewrite (ticker_here_take _ _ Hh), Nat.add_0_r. reflexivity.
    + rewrite Hm. specialize (IH (S pos)).
      destruct (scan ticker_here s) as [[pre m]|].
      * destruct IH as [g2 ->]. exists g2. cbn [length].
        rewrite Nat.add_succ_r. reflexivity.
      * exact IH.
Qed.

Lemma search_analyze s pos :
  match scan analyze_here s with
  | Some (pre, (m, T)) =>
      search analyze_pattern s pos
      = Some {| index := pos + length pre;
                captures := <[0%nat := m]> (<[1%nat := T]> ∅) |}
  | None => search analyze_pattern s pos = None
  end.
Proof.
  revert pos. induction s as [|c s IH]; intros pos.
  - cbn [scan search]. pose proof (matcher_analyze [] pos) as Hm.
    destruct (analyze_here []) as [[m T]|] eqn:Hh.
    + rewrite Hm.
      replace (pos + length m - pos)%nat with (length m) by lia.
      rewrite (analyze_here_take _ _ _ Hh), Nat.add_0_r. reflexivity.
    + rewrite Hm. reflexivity.
  - cbn [scan search]. pose proof (matcher_analyze (c :: s) pos) as Hm.
    destruct (analyze_here (c :: s)) as [[m T]|] eqn:Hh.
    + rewrite Hm.
      replace (pos + length m - pos)%nat with (length m) by lia.
      rewrite (analyze_here_take _ _ _ Hh), Nat.add_0_r. reflexivity.
    + rewrite Hm. specialize (IH (S pos)).
      destruct (scan analyze_here s) as [[pre [m T]]|].
      * rewrite IH. cbn [length]. rewrite Nat.add_succ_r. reflexivity.
      * exact IH.
Qed.

Lemma js_or_upper g :
  js_or (VStr (toUpperCase g)) (VStr g) = VStr (toUpperCase g).
Proof. destruct g; reflexivity. Qed.

Lemma js_or_default q :
  js_or (VStr q) (VStr default_query) = VStr (query_or_default q).
Proof. destruct q; reflexivity. Qed.

Lemma classify_scan s :
  classify s
  = match scan ticker_here s with
    | Some (_, m) =>
        ToResearch (VStr (toUpperCase m))
          (VStr (query_or_default (trim (remove_first m s))))
    | None =>
        match scan analyze_here s with
        | Some (_, (m, T)) =>
            ToResearch (VStr (toUpperCase T))
              (VStr (query_or_default (trim (remove_first m s))))
        | None => ToLLM (VStr (str "auto")) (VStr s)
        end
    end.
Proof.
  unfold classify, exec.
  pose proof (search_ticker s 0) as Ht.
  destruct (scan ticker_here s) as [[pre m]|].
  - destruct Ht as [g2 ->].
    unfold capture, replace_empty, opt_toUpperCase. cbn [captures].
    rewrite lookup_insert_eq.
    rewrite lookup_insert_ne by discriminate. rewrite lookup_insert_eq.
    cbn [toString]. rewrite js_or_upper, js_or_default. reflexivity.
  - rewrite Ht. pose proof (search_analyze s 0) as Ha.
    destruct (scan analyze_here s) as [[pre [m T]]|].
    + rewrite Ha.
      unfold capture, replace_empty, opt_toUpperCase. cbn [captures].
      rewrite lookup_insert_eq.
      rewrite lookup_insert_ne by discriminate. rewrite lookup_insert_eq.
      cbn [toString]. rewrite js_or_upper, js_or_default. reflexivity.
    + rewrite Ha. reflexivity.
Qed.

(** What [toUpperCase] is applied to holds ASCII units only: the letters
    and the dot of a ticker token, the letters after "analyze". *)
Lemma capture_ascii :
  (forall m, ticker_token m -> Forall (fun c => c < 128) m)
  /\ (forall m T, analyze_phrase m T -> Forall (fun c => c < 128) T).
Proof.
  assert (Hletters : forall L : jsstring,
            Forall (fun c => is_letter c = true) L ->
            Forall (fun c => c < 128) L).
  { intros L HL. eapply Forall_impl; [exact HL|]. simpl.
    intros c Hc. apply letter_bounds in Hc. lia. }
  split.
  - intros m (L & suf & -> & [_ HL] & Hsuf).
    apply Forall_app. split; [exact (Hletters _ HL)|].
    apply Forall_app. split; [repeat constructor|].
    assert (Hup : Forall (fun c => c < 128) (toUpperCase suf))
      by (destruct Hsuf as [-> | ->]; repeat constructor).
    clear Hsuf. induction suf as [|c suf IH]; [constructor|].
    inversion Hup as [|? ? Hc Hrest]; subst. constructor; [|exact (IH Hrest)].
    unfold upper_unit in Hc. destruct (is_lower c) eqn:Hl; [|exact Hc].
    unfold is_lower in Hl. apply andb_prop in Hl as [_ Hl].
    apply N.leb_le in Hl. lia.
  - intros m T (A & W & _ & _ & _ & _ & [_ HT]). exact (Hletters _ HT).
Qed.

Lemma ticker_here_prefix s m :
  ticker_here s = Some m -> exists post, s = m ++ post.
Proof.
  intros H. apply ticker_here_sound in H as (post & Hs & _). eauto.
Qed.

Lemma analyze_here_prefix s (a : jsstring * jsstring) :
  analyze_here s = Some a -> exists post, s = fst a ++ post.
Proof.
  destruct a as [m T]. intros H.
  apply analyze_here_sound in H as (post & Hs & _). eauto.
Qed.

Lemma routes_research s T Q :
  classify s = ToResearch (VStr T) (VStr Q) ->
  routes_to s (classify s) (research_request T Q).
Proof.
  intros Hc st net Hblank Htrim.
  unfold sendMessage, sendMessage_start. rewrite Hblank. cbv zeta.
  rewrite Htrim. split; [reflexivity|]. split; [|reflexivity].
  rewrite Hc. reflexivity.
Qed.

Lemma routes_llm s M P :
  classify s = ToLLM (VStr M) (VStr P) ->
  routes_to s (classify s) (llm_request M P).
Proof.
  intros Hc st net Hblank Htrim.
  unfold sendMessage, sendMessage_start. rewrite Hblank. cbv zeta.
  rewrite Htrim. split; [reflexivity|]. split; [|reflexivity].
  rewrite Hc. reflexivity.
Qed.

(** C2.  The classifier tries the ticker recognizer first: when the input
    holds a ticker token (letters, a dot, NS or BO, in either case), the
    first one is upper-cased and becomes the ticker, the input without it,
    trimmed, becomes the query ("Provide a comprehensive analysis" when
    nothing is left), and [sendMessage] calls the research operation,
    which sends the POST request to /research with that ticker and that
    query.  Only when the input holds no ticker token is the phrase
    "analyze T" looked for: the first one gives the ticker [T] upper-cased
    and the query in the same way, again for the research operation.  When
    the input holds neither, [sendMessage] calls the generic LLM
    operation, which sends the POST request to /llm with the model "auto"
    and the whole input as the prompt.  In each case [sendMessage] goes on
    with what that call settled with.  One of the three cases always
    applies.  (The input the classifier sees is the trimmed text of the
    field.) *)
Theorem classifier_routes (s : jsstring) :
  (forall pre m post,
      first_ticker s pre m post ->
      classify s
      = ToResearch (VStr (toUpperCase m))
          (VStr (query_or_default (trim (pre ++ post))))
      /\ routes_to s (classify s)
           (research_request (toUpperCase m)
              (query_or_default (trim (pre ++ post)))))
  /\ (no_ticker s ->
      forall pre m T post,
        first_analyze s pre m T post ->
        classify s
        = ToResearch (VStr (toUpperCase T))
            (VStr (query_or_default (trim (pre ++ post))))
        /\ routes_to s (classify s)
             (research_request (toUpperCase T)
                (query_or_default (trim (pre ++ post)))))
  /\ (no_ticker s -> no_analyze s ->
      classify s = ToLLM (VStr (str "auto")) (VStr s)
      /\ routes_to s (classify s) (llm_request (str "auto") s))
  /\ ((exists pre m post, first_ticker s pre m post)
      \/ (no_ticker s /\ exists pre m T post, first_analyze s pre m T post)
      \/ (no_ticker s /\ no_analyze s)).
Proof.
  assert (Hno : no_ticker s -> scan ticker_here s = None).
  { intros Hno. pose proof (scan_ticker s) as H.
    destruct (scan ticker_here s) as [[pre m]|]; [|reflexivity].
    destruct H as (post & Heq & Htok & _). exfalso. exact (Hno _ _ _ Heq Htok). }
  assert (Hres : forall T Q, classify s = ToResearch (VStr T) (VStr Q) ->
            classify s = ToResearch (VStr T) (VStr Q)
            /\ routes_to s (classify s) (research_request T Q))
    by (intros T Q H; split; [exact H | exact (routes_research _ _ _ H)]).
  split; [|split; [|split]].
  - intros pre m post Hfirst. apply Hres. rewrite classify_scan.
    pose proof (first_ticker_scan _ _ _ _ Hfirst) as Hscan. rewrite Hscan.
    destruct Hfirst as (Heq & Htok & _).
    destruct (scan_remove ticker_here (fun m => m) ticker_here_prefix
                s pre m Hscan) as (post' & Heq' & Hrm).
    { intros post0 H. rewrite (ticker_here_complete _ _ Htok) in H.
      discriminate H. }
    rewrite Hrm. rewrite Heq in Heq'.
    apply app_inv_head in Heq'. apply app_inv_head in Heq'. subst post'.
    reflexivity.
  - intros Hnt pre m T post Hfirst. apply Hres.
    rewrite classify_scan, (Hno Hnt).
    pose proof (first_analyze_scan _ _ _ _ _ Hfirst) as Hscan. rewrite Hscan.
    destruct Hfirst as (Heq & Hph & _).
    destruct (scan_remove analyze_here fst analyze_here_prefix
                s pre (m, T) Hscan) as (post' & Heq' & Hrm).
    { intros post0. exact (analyze_here_closed _ _ _ Hph). }
    cbn [fst] in *. rewrite Hrm. rewrite Heq in Heq'.
    apply app_inv_head in Heq'. apply app_inv_head in Heq'. subst post'.
    reflexivity.
  - intros Hnt Hna.
    assert (Hc : classify s = ToLLM (VStr (str "auto")) (VStr s)).
    { rewrite classify_scan, (Hno Hnt).
      pose proof (scan_analyze s) as H.
      destruct (scan analyze_here s) as [[pre [m T]]|]; [|reflexivity].
      destruct H as (post & Heq & Hph & _). exfalso.
      exact (Hna _ _ _ _ Heq Hph). }
    split; [exact Hc | exact (routes_llm _ _ _ Hc)].
  - pose proof (scan_ticker s) as Ht.
    destruct (scan ticker_here s) as [[pre m]|].
    + left. destruct Ht as [post Ht]. eauto.
    + right. pose proof (scan_analyze s) as Ha.
      destruct (scan analyze_here s) as [[pre [m T]]|].
      * left. split; [exact Ht|]. destruct Ha as [post Ha]. eauto 6.
      * right. split; assumption.
Qed.

Lemma classifier_routes_witness :
  classify (str "analyze TCS")
  = ToResearch (VStr (str "TCS")) (VStr (str "Provide a comprehensive analysis"))
  /\ snd (agentApi.run (fun _ => Ok (agentApi.Response true 200 (Ok VNull)))
            (request_of (classify (str "analyze TCS"))))
     = [research_request (str "TCS") (str "Provide a comprehensive analysis")]
  /\ sendMessage (fun _ => Ok (agentApi.Response true 200 (Ok VNull)))
       (setInput (str "  analyze TCS ") initial)
     = sendMessage_settle (classify (str "analyze TCS"))
         (fst (agentApi.run (fun _ => Ok (agentApi.Response true 200 (Ok VNull)))
                 (request_of (classify (str "analyze TCS")))))
         (mkState false
            [{| type := VStr (str "user");
                content := VStr (str "  analyze TCS ") |}]
            [] true).
Proof.
  destruct (classifier_routes (str "analyze TCS")) as (_ & Hanalyze & _).
  pose proof (scan_analyze (str "analyze TCS")) as Hscan.
  assert (Hs : scan analyze_here (str "analyze TCS")
               = Some ([], (str "analyze TCS", str "TCS")))
    by (vm_compute; reflexivity).
  rewrite Hs in Hscan. destruct Hscan as [post Hfirst].
  assert (Hpost : post = []).
  { destruct Hfirst as (Heq & _).
    change (str "analyze TCS" ++ [] = str "analyze TCS" ++ post) in Heq.
    apply app_inv_head in Heq. symmetry. exact Heq. }
  subst post.
  destruct (Hanalyze (scan_ticker (str "analyze TCS")) _ _ _ _ Hfirst)
    as [Hclass Hroute].
  split; [exact Hclass|].
  destruct (Hroute (setInput (str "  analyze TCS ") initial)
                   (fun _ => Ok (agentApi.Response true 200 (Ok VNull))))
    as (_ & Hrq & Hsend).
  - vm_compute. reflexivity.
  - vm_compute. reflexivity.
  - split; [exact Hrq | exact Hsend].
Defined.

(** The examples of the specification. *)
Example classify_ticker_and_question :
  classify (str "RELIANCE.NS describe the company")
  = ToResearch (VStr (str "RELIANCE.NS")) (VStr (str "describe the company")).
Proof. vm_compute. reflexivity. Qed.

Example classify_general_question :
  classify (str "what is a stock split?")
  = ToLLM (VStr (str "auto")) (VStr (str "what is a stock split?")).
Proof. vm_compute. reflexivity. Qed.

(** [sendMessage] rejects a blank input, and classifies the trimmed input
    otherwise; the message it appends holds the input as typed. *)
Lemma sendMessage_start_classifies st :
  sendMessage_start st
  = if blank (input st) then None
    else Some (setIsThinking true
                 (setInput []
                    (append {| type := VStr (str "user");
                               content := VStr (input st) |} st)),
               classify (trim (input st))).
Proof. unfold sendMessage_start. destruct (blank (input st)); reflexivity. Qed.

End Classifier.

(** * Guards *)

Section Guards.

(** ** What [trim] leaves *)

Lemma trimStart_split s :
  exists p, s = p ++ trimStart s
    /\ Forall (fun c => is_space c = true) p
    /\ match trimStart s with c :: _ => is_space c = false | [] => True end.
Proof.
  induction s as [|c s IH]; simpl.
  - exists []. repeat split. constructor.
  - destruct (is_space c) eqn:Hc.
    + destruct IH as (p & Hs & Hp & Hh). exists (c :: p).
      split; [simpl; congruence|]. split; [constructor; assumption | exact Hh].
    + exists []. repeat split; [constructor | exact Hc].
Qed.

Lemma trimStart_nil s :
  trimStart s = [] <-> Forall (fun c => is_space c = true) s.
Proof.
  split.
  - intros H. destruct (trimStart_split s) as (p & Hs & Hp & _).
    rewrite H, app_nil_r in Hs. subst s. exact Hp.
  - induction 1 as [|c s Hc _ IH]; simpl; [reflexivity|]. rewrite Hc. exact IH.
Qed.

Lemma trim_nil s : trim s = [] <-> Forall (fun c => is_space c = true) s.
Proof.
  unfold trim, trimEnd. split.
  - intros H.
    assert (Hr : trimStart (rev (trimStart s)) = []).
    { destruct (trimStart (rev (trimStart s))) as [|c l]; [reflexivity|].
      simpl in H. destruct (rev l); discriminate H. }
    apply trimStart_nil in Hr. apply Forall_rev in Hr. rewrite rev_involutive in Hr.
    destruct (trimStart_split s) as (p & Hs & Hp & Hh).
    destruct (trimStart s) as [|c u] eqn:Hu.
    + apply trimStart_nil. exact Hu.
    + inversion Hr; subst. congruence.
  - intros H. apply trimStart_nil in H. rewrite H. reflexivity.
Qed.

Lemma blank_spec s :
  ResearchAgent.blank s = true <-> Forall (fun c => is_space c = true) s.
Proof.
  rewrite <- trim_nil. unfold ResearchAgent.blank.
  destruct (trim s); split; intros H; try reflexivity; discriminate H.
Qed.

(** X1.  A handler returns at its guard, with the state untouched and no
    request made, exactly when the text it needs consists of white space
    only (or is empty): the query or the ticker for [runAgent], the query
    for [runGemini] and [runGroq], the input for [sendMessage] of the
    floating agent. *)
Theorem blank_input_is_ignored :
  (forall now st,
      ResearchAgent.runAgent_start now st = None
      <-> Forall (fun c => is_space c = true) (ResearchAgent.query st)
          \/ Forall (fun c => is_space c = true) (ResearchAgent.ticker st))
  /\ (forall st,
        ResearchAgent.runGemini_start st = None
        <-> Forall (fun c => is_space c = true) (ResearchAgent.query st))
  /\ (forall st,
        ResearchAgent.runGroq_start st = None
        <-> Forall (fun c => is_space c = true) (ResearchAgent.query st))
  /\ (forall st,
        FloatingAgent.sendMessage_start st = None
        <-> Forall (fun c => is_space c = true) (FloatingAgent.input st))
  /\ (forall net now now' st,
        ResearchAgent.runAgent_start now st = None ->
        ResearchAgent.runAgent net now now' st = Done tt st)
  /\ (forall net st,
        FloatingAgent.sendMessage_start st = None ->
        FloatingAgent.sendMessage net st = Done tt st).
Proof.
  assert (Hguard : forall (A : Type) (s : jsstring) (x : A),
    (if ResearchAgent.blank s then None else Some x) = None
    <-> Forall (fun c => is_space c = true) s).
  { intros A s x. rewrite <- blank_spec.
    destruct (ResearchAgent.blank s); split; intros H;
      try reflexivity; discriminate H. }
  split; [|split; [|split; [|split; [|split]]]].
  - intros now st. unfold ResearchAgent.runAgent_start.
    rewrite <- !blank_spec.
    destruct (ResearchAgent.blank (ResearchAgent.query st));
    destruct (ResearchAgent.blank (ResearchAgent.ticker st)); simpl;
      split; intros H; auto; try discriminate H.
    destruct H as [H | H]; discriminate H.
  - intros st. apply Hguard.
  - intros st. apply Hguard.
  - intros st. unfold FloatingAgent.sendMessage_start.
    change (FloatingAgent.blank (FloatingAgent.input st))
      with (ResearchAgent.blank (FloatingAgent.input st)).
    apply Hguard.
  - intros net now now' st H. unfold ResearchAgent.runAgent. rewrite H.
    reflexivity.
  - intros net st H. unfold FloatingAgent.sendMessage. rewrite H. reflexivity.
Qed.

End Guards.


(** * The handlers of the workspace, from click to end *)

Section WholeHandlers.

Import ResearchAgent.

(** X2.  [runAgent] always comes to its end: whatever the network does and
    whatever the response holds, no exception leaves it and no updater
    throws.  Past the guard it logs the user's message and at most one
    reply (the summary as an agent's message, or the fixed error text),
    sets loading to false, and leaves the two inputs, the exporting flag
    and the collapse flags as they were. *)
Theorem runAgent_always_settles (net : agentApi.network) (now now' : Z) (st : State) :
  exists st',
    runAgent net now now' st = Done tt st'
    /\ if blank (query st) || blank (ticker st) then st' = st
       else
         loading st' = false
         /\ query st' = query st /\ ticker st' = ticker st
         /\ exporting st' = exporting st
         /\ collapsedSteps st' = collapsedSteps st
         /\ exists reply,
              messages st'
              = messages st
                ++ {| id := now; type := str "user";
                      content := VStr (str "Ticker: " ++ ticker st ++ [LF]
                                       ++ str "Query: " ++ query st) |}
                   :: reply
              /\ (reply = []
                  \/ (exists summary,
                        reply = [{| id := now' + 1; type := str "agent";
                                    content := summary |}]
                        /\ truthy summary = true /\ finalAns st' = summary)
                  \/ reply = [{| id := now' + 2; type := str "error";
                                 content :=
                                   VStr (str "Research Agent crashed. Try again.") |}]).
Proof.
  unfold runAgent, runAgent_start.
  destruct (blank (query st) || blank (ticker st)); [eexists; split; reflexivity|].
  cbv zeta.
  set (awaited := fst (agentApi.run net _)). clearbody awaited.
  assert (Hcatch : forall e st0,
    exists st', runAgent_settle (Throw e) now' st0 = Done tt st'
      /\ loading st' = false /\ query st' = query st0 /\ ticker st' = ticker st0
      /\ exporting st' = exporting st0
      /\ collapsedSteps st' = collapsedSteps st0
      /\ messages st'
         = messages st0
           ++ [{| id := now' + 2; type := str "error";
                  content := VStr (str "Research Agent crashed. Try again.") |}]).
  { intros e st0. rewrite runAgent_catches. eexists. split; [reflexivity|].
    repeat split. }
  assert (Hfin : forall e st0, st0 = setLoading true (setFinalAns (VStr [])
                    (setSteps (VArr []) (setMessages (fun prev => prev ++
                       [{| id := now; type := str "user";
                           content := VStr (str "Ticker: " ++ ticker st ++ [LF]
                                            ++ str "Query: " ++ query st) |}]) st))) ->
    exists st', runAgent_settle (Throw e) now' st0 = Done tt st'
    /\ loading st' = false
         /\ query st' = query st /\ ticker st' = ticker st
         /\ exporting st' = exporting st
         /\ collapsedSteps st' = collapsedSteps st
         /\ exists reply,
              messages st'
              = messages st
                ++ {| id := now; type := str "user";
                      content := VStr (str "Ticker: " ++ ticker st ++ [LF]
                                       ++ str "Query: " ++ query st) |}
                   :: reply
              /\ (reply = []
                  \/ (exists summary,
                        reply = [{| id := now' + 1; type := str "agent";
                                    content := summary |}]
                        /\ truthy summary = true /\ finalAns st' = summary)
                  \/ reply = [{| id := now' + 2; type := str "error";
                                 content :=
                                   VStr (str "Research Agent crashed. Try again.") |}])).
  { intros e st0 ->. destruct (Hcatch e (setLoading true (setFinalAns (VStr [])
                    (setSteps (VArr []) (setMessages (fun prev => prev ++
                       [{| id := now; type := str "user";
                           content := VStr (str "Ticker: " ++ ticker st ++ [LF]
                                            ++ str "Query: " ++ query st) |}]) st)))))
      as (st' & Hrun & Hl & Hq & Ht & Hx & Hc & Hm).
    exists st'. split; [exact Hrun|]. simpl in *. repeat split; try assumption.
    eexists. split; [rewrite Hm, <- app_assoc; reflexivity|]. right; right.
    reflexivity. }
  destruct awaited as [res|e]; [|eapply Hfin; reflexivity].
  destruct (nullish_or_not res (str "data")) as [[e He] | Hres].
  - rewrite (runAgent_settle_null _ _ _ _ He). eapply Hfin; reflexivity.
  - rewrite (runAgent_settle_ok _ _ _ Hres).
    eexists. split; [reflexivity|].
    destruct (truthy (response_field res (str "steps")));
    destruct (truthy (response_field res (str "ai_summary"))) eqn:Hsum; simpl;
      repeat split;
      first [ exists []; split; [reflexivity | left; reflexivity]
            | eexists; split; [rewrite <- app_assoc; reflexivity|];
              right; left; eexists; split; [reflexivity|]; split;
              [exact Hsum | reflexivity] ].
Qed.

(** X3.  Each accepted click of the workspace sends one request, with the
    texts as they were typed: the guard tests the trimmed text, but the
    ticker and the query (the prompt, for the two LLM buttons) go out
    untrimmed and in their own case. *)
Theorem workspace_requests (net : agentApi.network) (st : State) :
  (forall now st' call,
      runAgent_start now st = Some (st', call) ->
      snd (agentApi.run net call)
      = [agentApi.Request
           (agentApi.API_BASE_URL ++ str "/research") (str "POST")
           [(str "Content-Type", str "application/json")]
           (VObj [(str "ticker", VStr (ticker st));
                  (str "query", VStr (query st))])])
  /\ (forall st' call,
        runGemini_start st = Some (st', call) ->
        snd (agentApi.run net call)
        = [agentApi.Request
             (agentApi.API_BASE_URL ++ str "/llm") (str "POST")
             [(str "Content-Type", str "application/json")]
             (VObj [(str "model", VStr (str "gemini-pro"));
                    (str "prompt", VStr (query st))])])
  /\ (forall st' call,
        runGroq_start st = Some (st', call) ->
        snd (agentApi.run net call)
        = [agentApi.Request
             (agentApi.API_BASE_URL ++ str "/llm") (str "POST")
             [(str "Content-Type", str "application/json")]
             (VObj [(str "model", VStr (str "groq-llama3"));
                    (str "prompt", VStr (query st))])]).
Proof.
  split; [|split].
  - intros now st' call H.
    destruct (runAgent_start_clears _ _ _ _ H) as (_ & _ & _ & _ & ->).
    reflexivity.
  - intros st' call. unfold runGemini_start.
    destruct (blank (query st)); [discriminate|]. intros H; injection H as _ <-.
    reflexivity.
  - intros st' call. unfold runGroq_start.
    destruct (blank (query st)); [discriminate|]. intros H; injection H as _ <-.
    reflexivity.
Qed.

End WholeHandlers.


(** * The floating agent, from a sent input to the panel *)

Section FloatingAgentWhole.

Import FloatingAgent.

Lemma grows_refl st : grows st st.
Proof. repeat split. exists []. symmetry. apply app_nil_r. Qed.

Lemma grows_trans st1 st2 st3 : grows st1 st2 -> grows st2 st3 -> grows st1 st3.
Proof.
  intros (Ho & Hi & Ht & new & Hm) (Ho' & Hi' & Ht' & new' & Hm').
  repeat split; try congruence.
  exists (new ++ new'). rewrite Hm', Hm, app_assoc. reflexivity.
Qed.

Lemma grows_append m st : grows st (append m st).
Proof. repeat split. exists [m]. reflexivity. Qed.

Lemma appends_only_ret {A} (a : A) : appends_only (ret a).
Proof. intros st. apply grows_refl. Qed.

Lemma appends_only_eval {A} (r : result A) : appends_only (eval r).
Proof. intros st. unfold eval. destruct r; apply grows_refl. Qed.

Lemma appends_only_seq {A B} (m : action State A) (f : A -> action State B) :
  appends_only m -> (forall a, appends_only (f a)) -> appends_only (seq m f).
Proof.
  intros Hm Hf st. unfold seq. specialize (Hm st).
  destruct (m st) as [a st1|e st1|e]; [|exact Hm|exact I].
  specialize (Hf a st1).
  destruct (f a st1) as [b st2|e st2|e]; [| |exact I];
    exact (grows_trans _ _ _ Hm Hf).
Qed.

Lemma appends_only_when c (m : action State unit) :
  appends_only m -> appends_only (when c m).
Proof. intros Hm. destruct c; [exact Hm | apply appends_only_ret]. Qed.

Lemma appends_only_modify m : appends_only (modify (append m)).
Proof. intros st. apply grows_append. Qed.

Lemma appends_only_update (u : State -> result State) :
  (forall st st', u st = Ok st' -> grows st st') -> appends_only (update u).
Proof.
  intros Hu st. unfold update. specialize (Hu st).
  destruct (u st) as [st'|e]; [apply Hu; reflexivity | exact I].
Qed.

Lemma appends_only_forEach {A} (f : A -> action State unit) items :
  (forall x, appends_only (f x)) -> appends_only (forEach f items).
Proof.
  intros Hf. induction items as [|x items IH]; simpl.
  - apply appends_only_ret.
  - apply appends_only_seq; [apply Hf | intros _; exact IH].
Qed.

Lemma appends_only_show_steps steps : appends_only (show_steps steps).
Proof.
  destruct steps; try apply appends_only_eval.
  apply appends_only_forEach. intros s. apply appends_only_update.
  intros st st'. destruct (get s (str "type")); [|discriminate].
  destruct (get s (str "content")); [|discriminate]. simpl.
  intros H; injection H as <-. apply grows_append.
Qed.

Lemma appends_only_research awaited : appends_only (research_branch awaited).
Proof.
  unfold research_branch.
  apply appends_only_seq; [apply appends_only_eval|]. intros res.
  apply appends_only_seq; [apply appends_only_eval|]. intros steps.
  apply appends_only_seq;
    [apply appends_only_when, appends_only_show_steps|]. intros _.
  apply appends_only_seq; [apply appends_only_eval|]. intros ai_summary.
  apply appends_only_seq; [apply appends_only_eval|]. intros summary'.
  destruct (truthy (js_or ai_summary summary')); [apply appends_only_modify|].
  apply appends_only_seq; [apply appends_only_eval|]. intros recs.
  apply appends_only_when, appends_only_update.
  intros st st'. destruct (join_lines recs); [|discriminate]. simpl.
  intros H; injection H as <-. apply grows_append.
Qed.

Lemma appends_only_llm awaited : appends_only (llm_branch awaited).
Proof.
  unfold llm_branch.
  apply appends_only_seq; [apply appends_only_eval|]. intros res.
  apply appends_only_seq; [apply appends_only_eval|]. intros success.
  apply appends_only_seq; [apply appends_only_eval|]. intros response.
  destruct (truthy success && truthy response); [apply appends_only_modify|].
  apply appends_only_seq; [apply appends_only_eval|]. intros error.
  apply appends_only_modify.
Qed.

Lemma sendMessage_settle_grows r awaited st :
  match sendMessage_settle r awaited st with
  | Done _ st' =>
      open st' = open st /\ input st' = input st /\ isThinking st' = false
      /\ exists new, messages st' = messages st ++ new
  | Raised _ _ => False
  | Crashed _ => True
  end.
Proof.
  unfold sendMessage_settle.
  assert (Hbody : appends_only
            (match r with
             | ToResearch _ _ => research_branch awaited
             | ToLLM _ _ => llm_branch awaited
             end))
    by (destruct r; [apply appends_only_research | apply appends_only_llm]).
  specialize (Hbody st). unfold seq, try_catch, modify.
  destruct (match r with
            | ToResearch _ _ => research_branch awaited
            | ToLLM _ _ => llm_branch awaited
            end st) as [[] st1|e st1|e]; [| |exact I].
  - destruct Hbody as (Ho & Hi & _ & Hm). simpl. repeat split; assumption.
  - destruct Hbody as (Ho & Hi & _ & new & Hm). simpl.
    repeat split; try assumption.
    eexists. rewrite Hm, <- app_assoc. reflexivity.
Qed.

(** X4.  No exception leaves [sendMessage]: it ends normally, or (only
    past the guard) an updater it queued throws when React runs it.  When
    it ends normally past the guard, the panel is as open as before, the
    input is cleared, the thinking flag is off, and the log is the old log,
    then the user's message holding the input as typed, then the replies:
    nothing already in the log is removed or changed. *)
Theorem sendMessage_never_rejects (net : agentApi.network) (st : State) :
  match sendMessage net st with
  | Done _ st' =>
      if blank (input st) then st' = st
      else
        open st' = open st /\ input st' = [] /\ isThinking st' = false
        /\ exists replies,
             messages st'
             = messages st
               ++ {| type := VStr (str "user"); content := VStr (input st) |}
                  :: replies
  | Raised _ _ => False
  | Crashed _ => blank (input st) = false
  end.
Proof.
  unfold sendMessage, sendMessage_start.
  destruct (blank (input st)); [reflexivity|]. cbv zeta.
  match goal with
  | |- context [sendMessage_settle ?r ?a ?s] =>
      pose proof (sendMessage_settle_grows r a s) as H;
      destruct (sendMessage_settle r a s) as [[] st'|e st'|e]
  end; [|exact H|reflexivity].
  destruct H as (Ho & Hi & Ht & new & Hm). simpl in *.
  repeat split; try assumption.
  exists new. rewrite Hm, <- app_assoc. reflexivity.
Qed.

(** X5.  When the backend answers with a status that is not a success, the
    floating agent shows it: the reply is one error message that reads the
    warning sign, " Error: ", the name of the operation the input was
    routed to, " error: " and the status in decimal. *)
Theorem sendMessage_shows_status
  (net : agentApi.network) (st : State) (code : N) :
  blank (input st) = false ->
  (forall rq, exists res,
      net rq = Ok res /\ agentApi.ok res = false /\ agentApi.status res = code) ->
  sendMessage net st
  = Done tt
      (mkState (open st)
         (messages st
          ++ [ {| type := VStr (str "user"); content := VStr (input st) |};
               {| type := VStr (str "error");
                  content :=
                    VStr (warning_sign ++ str " Error: "
                          ++ match classify (trim (input st)) with
                             | ToResearch _ _ => str "Research agent"
                             | ToLLM _ _ => str "LLM API"
                             end
                          ++ str " error: " ++ decimal code) |} ])
         [] false).
Proof.
  intros Hblank Hnet. unfold sendMessage, sendMessage_start.
  rewrite Hblank. cbv zeta.
  destruct (classify (trim (input st))) as [t q|m p]; simpl;
    (match goal with |- context [net ?rq] =>
       destruct (Hnet rq) as (res & -> & Hok & Hcode) end;
     simpl; rewrite Hok, Hcode; simpl;
     rewrite sendMessage_catches;
     unfold append, setMessages, setIsThinking; simpl;
     rewrite <- app_assoc; reflexivity).
Qed.

Lemma sendMessage_shows_status_witness :
  sendMessage (fun _ => Ok (agentApi.Response false 503 (Ok VNull)))
    (setInput (str "analyze TCS") initial)
  = Done tt
      (mkState false
         [ {| type := VStr (str "user"); content := VStr (str "analyze TCS") |};
           {| type := VStr (str "error");
              content := VStr (warning_sign
                               ++ str " Error: Research agent error: 503") |} ]
         [] false).
Proof.
  refine (sendMessage_shows_status
            (fun _ => Ok (agentApi.Response false 503 (Ok VNull)))
            (setInput (str "analyze TCS") initial) 503 eq_refl _).
  intros rq. eexists. repeat split.
Defined.

(** X15.  In the floating agent a step of the response is logged under its
    own type, and the type alone decides the bubble: a step typed "user",
    "agent" or "error" is shown as a message of that kind, without a
    label; any other step is shown as a step bubble whose label is its
    type, or "step" when the type is missing or falsy. *)
Theorem step_type_decides_bubble (items : list value) (st : State) :
  Forall (fun s => nullish s = false) items ->
  exists st',
    show_steps (VArr items) st = Done tt st'
    /\ bubbles (render st')
       = bubbles (render st)
         ++ map (fun s =>
                   let type := get_opt s (str "type") in
                   let content := get_opt s (str "content") in
                   if strict_eq_str type (str "user") then UserBubble content
                   else if strict_eq_str type (str "agent")
                        then AgentBubble content
                   else if strict_eq_str type (str "error")
                        then ErrorBubble content
                   else StepBubble (js_or type (VStr (str "step"))) content)
                items.
Proof.
  intros Hall. rewrite (show_steps_items _ _ Hall).
  eexists. split; [reflexivity|]. unfold render; cbn.
  rewrite map_app, map_map. f_equal.
  apply map_ext. intros s. unfold step_message, MessageBubble; cbn.
  destruct (get_opt s (str "type")) as [| |b|n|t|l|p]; try reflexivity.
  - destruct b; reflexivity.
  - unfold js_or; cbn [truthy]. destruct (number_truthy n); reflexivity.
  - destruct t as [|c t]; reflexivity.
Qed.

Lemma step_type_decides_bubble_witness :
  exists st',
    show_steps
      (VArr [VObj [(str "type", VStr (str "error"));
                   (str "content", VStr (str "quota"))];
             VObj [(str "content", VStr (str "fetched price"))]])
      initial
    = Done tt st'
    /\ bubbles (render st')
       = [ErrorBubble (VStr (str "quota"));
          StepBubble (VStr (str "step")) (VStr (str "fetched price"))].
Proof.
  destruct (step_type_decides_bubble
              [VObj [(str "type", VStr (str "error"));
                     (str "content", VStr (str "quota"))];
               VObj [(str "content", VStr (str "fetched price"))]]
              initial)
    as (st' & Hrun & Hb).
  - repeat constructor.
  - exists st'. split; [exact Hrun|]. rewrite Hb. vm_compute. reflexivity.
Defined.

End FloatingAgentWhole.


(** * What the classifier hands to the research operation *)

Section Routes.

Import RegExp FloatingAgent.

Lemma trim_trimmed s : trimmed (trim s).
Proof.
  unfold trimmed, trim, trimEnd.
  destruct (trimStart_split s) as (_ & _ & _ & Hu).
  destruct (trimStart_split (rev (trimStart s))) as (p & Hrev & _ & Hv).
  set (u := trimStart s) in *. set (v := trimStart (rev u)) in *.
  split; [|rewrite rev_involutive; exact Hv].
  assert (Hu' : u = rev v ++ rev p).
  { rewrite <- rev_app_distr, <- Hrev, rev_involutive. reflexivity. }
  destruct (rev v) as [|c w]; [exact I|].
  rewrite Hu' in Hu. exact Hu.
Qed.

Lemma upper_unit_letter c : is_letter c = true -> is_upper (upper_unit c) = true.
Proof.
  unfold is_letter, upper_unit, is_lower, is_upper. intros H.
  destruct ((97 <=? c) && (c <=? 122)) eqn:Hl.
  - apply andb_prop in Hl as [H1 H2]. apply N.leb_le in H1, H2.
    apply andb_true_intro. split; apply N.leb_le; lia.
  - rewrite orb_false_r in H. exact H.
Qed.

Lemma toUpperCase_letters L :
  Forall (fun c => is_letter c = true) L ->
  Forall (fun c => upper_or_dot c = true) (toUpperCase L).
Proof.
  induction 1 as [|c L Hc _ IH]; simpl; constructor; [|exact IH].
  unfold upper_or_dot. rewrite (upper_unit_letter _ Hc). reflexivity.
Qed.

Lemma toUpperCase_app a b : toUpperCase (a ++ b) = toUpperCase a ++ toUpperCase b.
Proof. apply map_app. Qed.

Lemma ticker_token_upper m :
  ticker_token m ->
  toUpperCase m <> [] /\ Forall (fun c => upper_or_dot c = true) (toUpperCase m).
Proof.
  intros (L & suf & -> & [HL HLs] & Hsuf). split.
  - destruct L; [contradiction HL; reflexivity | discriminate].
  - rewrite !toUpperCase_app. apply Forall_app. split;
      [exact (toUpperCase_letters _ HLs)|].
    apply Forall_app. split; [repeat constructor|].
    destruct Hsuf as [-> | ->]; repeat constructor.
Qed.

Lemma letters_upper T :
  letters T ->
  toUpperCase T <> [] /\ Forall (fun c => upper_or_dot c = true) (toUpperCase T).
Proof.
  intros [HT HTs]. split; [|exact (toUpperCase_letters _ HTs)].
  destruct T; [contradiction HT; reflexivity | discriminate].
Qed.

Lemma query_or_default_trimmed s :
  query_or_default (trim s) <> [] /\ trimmed (query_or_default (trim s)).
Proof.
  pose proof (trim_trimmed s) as H. unfold query_or_default.
  destruct (trim s) as [|c q].
  - split; [discriminate | split; vm_compute; reflexivity].
  - split; [discriminate | exact H].
Qed.

(** X6.  Whatever the input, a request the classifier routes to the
    research operation is well formed: the ticker is a non-empty string of
    upper-case ASCII letters and dots, and the query is a non-empty string
    with no white space at either end. *)
Theorem research_route_wellformed (s : jsstring) (t q : value) :
  classify s = ToResearch t q ->
  exists T Q,
    t = VStr T /\ q = VStr Q
    /\ T <> [] /\ Forall (fun c => upper_or_dot c = true) T
    /\ Q <> [] /\ trimmed Q.
Proof.
  rewrite classify_scan.
  destruct (scan ticker_here s) as [[pre m]|] eqn:Ht.
  - intros H; injection H as <- <-.
    apply scan_some in Ht as (rest & _ & Hhere & _).
    apply ticker_here_sound in Hhere as (post & _ & Htok).
    destruct (ticker_token_upper _ Htok) as [Hne Hup].
    destruct (query_or_default_trimmed (remove_first m s)) as [Hq Htr].
    do 2 eexists. split; [reflexivity|]. split; [reflexivity|].
    split; [exact Hne|]. split; [exact Hup|]. split; [exact Hq | exact Htr].
  - destruct (scan analyze_here s) as [[pre [m T]]|] eqn:Ha; [|discriminate].
    intros H; injection H as <- <-.
    apply scan_some in Ha as (rest & _ & Hhere & _).
    apply analyze_here_sound in Hhere as (post & _ & Hph & _).
    destruct Hph as (A & W & _ & _ & _ & _ & HT).
    destruct (letters_upper _ HT) as [Hne Hup].
    destruct (query_or_default_trimmed (remove_first m s)) as [Hq Htr].
    do 2 eexists. split; [reflexivity|]. split; [reflexivity|].
    split; [exact Hne|]. split; [exact Hup|]. split; [exact Hq | exact Htr].
Qed.

Lemma research_route_wellformed_witness :
  exists T Q,
    VStr (str "TCS.NS") = VStr T /\ VStr (str "is it a buy?") = VStr Q
    /\ T <> [] /\ Forall (fun c => upper_or_dot c = true) T
    /\ Q <> [] /\ trimmed Q.
Proof.
  apply (research_route_wellformed (str "  is it a buy?  tcs.ns")).
  vm_compute. reflexivity.
Defined.

End Routes.


(** * Invariants of a session of the workspace *)

Section Sessions.

Import ResearchAgent.

Lemma runAgent_settle_effect awaited now st st' :
  after (runAgent_settle awaited now st) = Some st' ->
  query st' = query st /\ ticker st' = ticker st
  /\ exporting st' = exporting st /\ collapsedSteps st' = collapsedSteps st
  /\ (messages st' = messages st /\ finalAns st' = finalAns st
      \/ (exists c, messages st'
                    = messages st ++ [{| id := now + 1; type := str "agent";
                                         content := c |}]
                    /\ finalAns st' = c)
      \/ (messages st'
          = messages st
            ++ [{| id := now + 2; type := str "error";
                   content := VStr (str "Research Agent crashed. Try again.") |}]
          /\ finalAns st' = finalAns st)).
Proof.
  assert (Hcatch : forall e,
    after (runAgent_settle (Throw e) now st) = Some st' ->
    query st' = query st /\ ticker st' = ticker st
    /\ exporting st' = exporting st /\ collapsedSteps st' = collapsedSteps st
    /\ (messages st' = messages st /\ finalAns st' = finalAns st
        \/ (exists c, messages st'
                      = messages st ++ [{| id := now + 1; type := str "agent";
                                           content := c |}]
                      /\ finalAns st' = c)
        \/ (messages st'
            = messages st
              ++ [{| id := now + 2; type := str "error";
                     content := VStr (str "Research Agent crashed. Try again.") |}]
            /\ finalAns st' = finalAns st))).
  { intros e. rewrite runAgent_catches. simpl. intros H; injection H as <-.
    simpl. repeat split. right; right. split; reflexivity. }
  destruct awaited as [res|e]; [|apply Hcatch].
  destruct (nullish_or_not res (str "data")) as [[e He] | Hres].
  - rewrite (runAgent_settle_null _ _ _ _ He). apply Hcatch.
  - rewrite (runAgent_settle_ok _ _ _ Hres). simpl.
    intros H; injection H as <-.
    destruct (truthy (response_field res (str "steps")));
    destruct (truthy (response_field res (str "ai_summary"))); simpl;
      repeat split;
      first [ left; split; reflexivity
            | right; left; eexists; split; reflexivity ].
Qed.

Lemma llm_settle_effect awaited now st st' :
  after (runGemini_settle awaited now st) = Some st'
  \/ after (runGroq_settle awaited now st) = Some st' ->
  query st' = query st /\ ticker st' = ticker st
  /\ exporting st' = exporting st /\ collapsedSteps st' = collapsedSteps st
  /\ steps st' = steps st /\ finalAns st' = finalAns st
  /\ (messages st' = messages st
      \/ exists c, messages st'
                   = messages st ++ [{| id := now; type := str "agent";
                                        content := c |}]).
Proof.
  assert (Hsame : runGroq_settle awaited now st = runGemini_settle awaited now st)
    by reflexivity.
  rewrite Hsame. intros H. assert (H' : after (runGemini_settle awaited now st) = Some st')
    by (destruct H; assumption). clear H Hsame.
  destruct awaited as [res|e]; simpl in H'.
  - unfold runGemini_settle in H'. cbv [seq eval update modify] in H'.
    destruct (get res (str "response")) as [response|e]; simpl in H';
      [|discriminate H'].
    injection H' as <-. simpl. repeat split. right. eexists. reflexivity.
  - injection H' as <-. repeat split. left. reflexivity.
Qed.

(** What one event does to the log and to the answer. *)
Lemma step_log w ev w' :
  step w ev = Some w' ->
  exists new,
    messages (fst w') = messages (fst w) ++ new
    /\ (length new <= 1)%nat
    /\ Forall (fun m => known_type (type m)) new
    /\ (finalAns (fst w') = finalAns (fst w)
        \/ finalAns (fst w') = VStr []
        \/ exists m, In m new /\ type m = str "agent"
                     /\ content m = finalAns (fst w')).
Proof.
  assert (Hnone : forall (st st' : State),
    messages st' = messages st -> finalAns st' = finalAns st ->
    exists new,
      messages st' = messages st ++ new
      /\ (length new <= 1)%nat
      /\ Forall (fun m => known_type (type m)) new
      /\ (finalAns st' = finalAns st
          \/ finalAns st' = VStr []
          \/ exists m, In m new /\ type m = str "agent"
                       /\ content m = finalAns st')).
  { intros st st' Hm Hf. exists []. rewrite app_nil_r.
    split; [exact Hm|]. split; [simpl; lia|]. split; [constructor|].
    left; exact Hf. }
  assert (Hllm : forall awaited now (st st' : State),
    after (runGemini_settle awaited now st) = Some st'
    \/ after (runGroq_settle awaited now st) = Some st' ->
    exists new,
      messages st' = messages st ++ new
      /\ (length new <= 1)%nat
      /\ Forall (fun m => known_type (type m)) new
      /\ (finalAns st' = finalAns st
          \/ finalAns st' = VStr []
          \/ exists m, In m new /\ type m = str "agent"
                       /\ content m = finalAns st')).
  { intros awaited now st st' H.
    destruct (llm_settle_effect _ _ _ _ H)
      as (_ & _ & _ & _ & _ & Hf & [Hm | [c Hm]]).
    - apply Hnone; assumption.
    - eexists. split; [exact Hm|]. split; [simpl; lia|].
      split; [repeat constructor; right; left; reflexivity|].
      left; exact Hf. }
  destruct w as [st br].
  destruct ev; simpl; intros H;
    try (injection H as <-; apply Hnone; reflexivity).
  - injection H as <-. simpl. unfold runAgent_start.
    destruct (blank (query st) || blank (ticker st)); simpl;
      [apply Hnone; reflexivity|].
    eexists. split; [reflexivity|]. split; [simpl; lia|].
    split; [repeat constructor; left; reflexivity|].
    right; left; reflexivity.
  - destruct (after (runAgent_settle awaited now st)) as [st'|] eqn:Hst;
      [|discriminate H]. injection H as <-. simpl.
    destruct (runAgent_settle_effect _ _ _ _ Hst)
      as (_ & _ & _ & _ & [[Hm Hf] | [(c & Hm & Hf) | [Hm Hf]]]).
    + apply Hnone; assumption.
    + eexists. split; [exact Hm|]. split; [simpl; lia|].
      split; [repeat constructor; right; left; reflexivity|].
      right; right. eexists. split; [left; reflexivity|].
      split; [reflexivity | symmetry; exact Hf].
    + eexists. split; [exact Hm|]. split; [simpl; lia|].
      split; [repeat constructor; right; right; reflexivity|].
      left; exact Hf.
  - injection H as <-. simpl. unfold runGemini_start.
    destruct (blank (query st)); apply Hnone; reflexivity.
  - destruct (after (runGemini_settle awaited now st)) as [st'|] eqn:Hst;
      [|discriminate H]. injection H as <-. simpl.
    apply (Hllm awaited now). left; exact Hst.
  - injection H as <-. simpl. unfold runGroq_start.
    destruct (blank (query st)); apply Hnone; reflexivity.
  - destruct (after (runGroq_settle awaited now st)) as [st'|] eqn:Hst;
      [|discriminate H]. injection H as <-. simpl.
    apply (Hllm awaited now). right; exact Hst.
  - destruct (export_state lib st br) as [br' Hrun]. rewrite Hrun in H.
    injection H as <-. apply Hnone; reflexivity.
Qed.

(** X7.  The log of the workspace is append-only: along any session no
    message is removed, reordered or changed, and each event adds at most
    one message. *)
Theorem log_is_append_only (w : State * Browser) (evs : list event)
  (w' : State * Browser) :
  session w evs = Some w' ->
  exists new,
    messages (fst w') = messages (fst w) ++ new
    /\ (length new <= length evs)%nat.
Proof.
  revert w. induction evs as [|ev evs IH]; intros w; simpl.
  - intros H; injection H as <-. exists []. rewrite app_nil_r.
    split; [reflexivity | simpl; lia].
  - destruct (step w ev) as [w1|] eqn:Hstep; [|discriminate].
    intros H. destruct (IH _ H) as (new' & Hm' & Hl').
    destruct (step_log _ _ _ Hstep) as (new & Hm & Hl & _).
    exists (new ++ new'). rewrite Hm', Hm, app_assoc.
    split; [reflexivity|]. rewrite length_app. lia.
Qed.

Lemma log_is_append_only_witness :
  exists new,
    [Message 1 (str "user")
       (VStr (str "Ticker: TCS" ++ [LF] ++ str "Query: outlook"));
     Message 4 (str "error") (VStr (str "Research Agent crashed. Try again."))]
    = [] ++ new
    /\ (length new <= 4)%nat.
Proof.
  apply (log_is_append_only fresh_page
           [Type_ticker (str "TCS"); Type_query (str "outlook");
            RunAgent_click 1;
            RunAgent_settles (Throw (Error (str "Failed to fetch"))) 2]
           (mkState
              [Message 1 (str "user")
                 (VStr (str "Ticker: TCS" ++ [LF] ++ str "Query: outlook"));
               Message 4 (str "error")
                 (VStr (str "Research Agent crashed. Try again."))]
              (VArr []) (VStr []) false false (str "outlook") (str "TCS") ∅,
            mkBrowser [] [] [])).
  vm_compute. reflexivity.
Defined.

(** X9.  Every message the workspace logs has one of the types user, agent
    and error, so [AgentMessage] shows each message of the log as a bubble:
    its last branch, which returns null, is never taken for a message the
    component made. *)
Theorem logged_messages_are_shown (w : State * Browser) (evs : list event)
  (w' : State * Browser) :
  Forall (fun m => known_type (type m)) (messages (fst w)) ->
  session w evs = Some w' ->
  Forall (fun m => known_type (type m)
                   /\ AgentMessage (type m) (content m) <> None)
         (messages (fst w')).
Proof.
  intros Hw Hs.
  assert (Hknown : Forall (fun m => known_type (type m)) (messages (fst w'))).
  { revert w Hw Hs. induction evs as [|ev evs IH]; intros w Hw; simpl.
    - intros H; injection H as <-. exact Hw.
    - destruct (step w ev) as [w1|] eqn:Hstep; [|discriminate].
      apply IH. destruct (step_log _ _ _ Hstep) as (new & Hm & _ & Hk & _).
      rewrite Hm. apply Forall_app. split; assumption. }
  eapply Forall_impl; [exact Hknown|]. simpl.
  intros m Hm. split; [exact Hm|].
  destruct Hm as [-> | [-> | ->]]; discriminate.
Qed.

Lemma logged_messages_are_shown_witness :
  Forall (fun m => known_type (type m)
                   /\ AgentMessage (type m) (content m) <> None)
    [Message 1 (str "user")
       (VStr (str "Ticker: TCS" ++ [LF] ++ str "Query: outlook"));
     Message 3 (str "agent") (VStr (str "Buy signal"))].
Proof.
  apply (logged_messages_are_shown fresh_page
           [Type_ticker (str "TCS"); Type_query (str "outlook");
            RunAgent_click 1;
            RunAgent_settles (Ok response_with_summary) 2]
           (mkState
              [Message 1 (str "user")
                 (VStr (str "Ticker: TCS" ++ [LF] ++ str "Query: outlook"));
               Message 3 (str "agent") (VStr (str "Buy signal"))]
              (VArr [tool_step "fetched price"]) (VStr (str "Buy signal"))
              false false (str "outlook") (str "TCS") ∅,
            mkBrowser [] [] [])).
  - constructor.
  - vm_compute. reflexivity.
Defined.

(** X12.  The final answer is always empty or the content of an agent's
    message of the log: a run clears it, and a settling that sets it logs
    the same text. *)
Theorem final_answer_is_logged (w : State * Browser) (evs : list event)
  (w' : State * Browser) :
  answer_in_log (fst w) ->
  session w evs = Some w' ->
  answer_in_log (fst w').
Proof.
  revert w. induction evs as [|ev evs IH]; intros w Hw; simpl.
  - intros H; injection H as <-. exact Hw.
  - destruct (step w ev) as [w1|] eqn:Hstep; [|discriminate].
    apply IH. destruct (step_log _ _ _ Hstep) as (new & Hm & _ & _ & Hf).
    unfold answer_in_log in *. rewrite Hm.
    destruct Hf as [Hf | [Hf | (m & Hin & Ht & Hc)]].
    + rewrite Hf. destruct Hw as [Hw | (m & Hin & Ht & Hc)]; [left; exact Hw|].
      right. exists m. split; [apply in_or_app; left; exact Hin|].
      split; assumption.
    + left; exact Hf.
    + right. exists m. split; [apply in_or_app; right; exact Hin|].
      split; assumption.
Qed.

Lemma final_answer_is_logged_witness :
  answer_in_log
    (mkState
       [Message 1 (str "user")
          (VStr (str "Ticker: TCS" ++ [LF] ++ str "Query: outlook"));
        Message 3 (str "agent") (VStr (str "Buy signal"))]
       (VArr [tool_step "fetched price"]) (VStr (str "Buy signal"))
       false false (str "outlook") (str "TCS") ∅).
Proof.
  apply (final_answer_is_logged fresh_page
           [Type_ticker (str "TCS"); Type_query (str "outlook");
            RunAgent_click 1;
            RunAgent_settles (Ok response_with_summary) 2]
           (_, mkBrowser [] [] [])).
  - left. reflexivity.
  - vm_compute. reflexivity.
Defined.

End Sessions.


(** * The page of the workspace *)

Section Page.

Import ResearchAgent.

Lemma StepItem_ok step index c :
  nullish step = false ->
  exists v, StepItem step index c = Ok v
    /\ step_number v = index + 1
    /\ title v = js_or (get_opt step (str "type")) (VStr (str "step"))
    /\ toggle_label v = (if c then str "Expand" else str "Collapse")
    /\ (body v = None <-> c = true).
Proof.
  intros Hs. unfold StepItem.
  rewrite !(get_nonnullish _ _ Hs). cbn [bind].
  destruct (strict_eq_str (get_opt step (str "type")) (str "chart")); cbn [bind];
  destruct c; cbn [negb bind];
  try (destruct (truthy (get_opt step (str "chartData"))));
  rewrite ?ChartCard_total; cbn [bind truthy];
  (eexists; split; [reflexivity|]); cbn;
  (split; [reflexivity|]); (split; [reflexivity|]); (split; [reflexivity|]);
  split; congruence.
Qed.

Lemma StepItem_nullish step index c :
  nullish step = true ->
  StepItem step index c = Throw (nullish_read step (str "type")).
Proof. destruct step; try discriminate; reflexivity. Qed.

Lemma step_items_ok items flags : forall index,
  Forall (fun s => nullish s = false) items ->
  exists vs, step_items items index flags = Ok vs
    /\ length vs = length items
    /\ forall k v, vs !! k = Some v -> step_number v = index + N.of_nat k + 1.
Proof.
  induction items as [|s items IH]; intros index Hall; simpl.
  - exists []. repeat split. intros k v H. destruct k; discriminate H.
  - inversion Hall as [|? ? Hs Hrest]; subst.
    destruct (StepItem_ok s index (collapsed flags index) Hs)
      as (v & -> & Hn & _).
    destruct (IH (index + 1) Hrest) as (vs & -> & Hl & Hk). cbn [bind].
    exists (v :: vs). split; [reflexivity|]. split; [simpl; congruence|].
    intros [|k] v'; simpl.
    + intros H; injection H as <-. rewrite Hn. lia.
    + intros H. rewrite (Hk _ _ H). lia.
Qed.

Lemma step_items_fail items flags : forall index,
  ~ Forall (fun s => nullish s = false) items ->
  exists e, step_items items index flags = Throw e
            /\ exn_name e = str "TypeError".
Proof.
  induction items as [|s items IH]; intros index Hnot; simpl.
  - contradiction Hnot. constructor.
  - destruct (nullish s) eqn:Hs.
    + rewrite (StepItem_nullish _ _ _ Hs). cbn [bind].
      eexists. split; reflexivity.
    + destruct (StepItem_ok s index (collapsed flags index) Hs) as (v & -> & _).
      cbn [bind]. destruct (IH (index + 1)) as (e & -> & He).
      * intros Hrest. apply Hnot. constructor; assumption.
      * cbn [bind]. eexists. split; [reflexivity | exact He].
Qed.

Lemma steps_map_ok steps flags :
  renderable_steps steps ->
  exists vs, steps_map steps flags = Ok vs
    /\ length vs = length (items_of steps)
    /\ forall k v, vs !! k = Some v -> step_number v = N.of_nat k + 1.
Proof.
  intros (items & -> & Hall). simpl.
  destruct (step_items_ok items flags 0 Hall) as (vs & Hvs & Hl & Hk).
  exists vs. split; [exact Hvs|]. split; [exact Hl|].
  intros k v H. rewrite (Hk _ _ H). lia.
Qed.

Lemma render_fail st :
  ~ renderable_steps (steps st) ->
  exists e, render st = Throw e /\ exn_name e = str "TypeError".
Proof.
  intros Hnot. unfold render.
  destruct (steps st) as [| |b|n|s|items|props] eqn:Hsteps; simpl;
    try (eexists; split; reflexivity).
  destruct (step_items_fail items (collapsedSteps st) 0) as (e & -> & He).
  - intros Hall. apply Hnot. exists items. split; [reflexivity | exact Hall].
  - cbn [bind]. eexists. split; [reflexivity | exact He].
Qed.

Lemma render_ok st :
  renderable_steps (steps st) ->
  exists v, render st = Ok v
    /\ length (trace v) = length (items_of (steps st))
    /\ (forall k item, trace v !! k = Some item ->
                       step_number item = N.of_nat k + 1)
    /\ run_disabled v = loading st /\ typing v = loading st
    /\ skeleton v = loading st
    /\ run_label v = (if loading st then str "Running..."
                      else str "Run Research Agent")
    /\ chat v = map (fun msg => (id msg, AgentMessage (type msg) (content msg)))
                    (messages st).
Proof.
  intros Hr. unfold render.
  destruct (steps_map_ok _ (collapsedSteps st) Hr) as (vs & Hvs & Hl & Hk).
  rewrite Hvs. destruct Hr as (items & Hsteps & _). rewrite Hsteps in *.
  cbn [get_length bind]. eexists. split; [reflexivity|]. cbn.
  repeat split; assumption.
Qed.

(** X10.  The component functions of the workspace ([ResearchAgent],
    [StepItem], [ChartCard]) throw in a render exactly when the steps cell
    holds something other than an array without null and undefined
    entries, and what they throw is then a TypeError (from [steps.length],
    [steps.map] or [step.type]).  When they do not throw, the trace has
    one item per step, numbered from 1 in the order of the array. *)
Theorem render_needs_array_of_steps (st : State) :
  ((exists v, render st = Ok v) <-> renderable_steps (steps st))
  /\ (forall e, render st = Throw e -> exn_name e = str "TypeError")
  /\ (forall v, render st = Ok v ->
        length (trace v) = length (items_of (steps st))
        /\ forall k item, trace v !! k = Some item ->
                          step_number item = N.of_nat k + 1).
Proof.
  assert (Hdec : renderable_steps (steps st) \/ ~ renderable_steps (steps st)).
  { unfold renderable_steps.
    destruct (steps st) as [| |b|n|s|items|props];
      try (right; intros (items' & H & _); discriminate H).
    destruct (decide (Forall (fun s => nullish s = false) items)) as [H|H].
    - left. exists items. split; [reflexivity | exact H].
    - right. intros (items' & Heq & H'). injection Heq as <-. exact (H H'). }
  split; [|split].
  - split.
    + intros [v Hv]. destruct Hdec as [H|H]; [exact H|].
      destruct (render_fail _ H) as (e & He & _). congruence.
    + intros H. destruct (render_ok _ H) as (v & Hv & _). eauto.
  - intros e He. destruct Hdec as [H|H].
    + destruct (render_ok _ H) as (v & Hv & _). congruence.
    + destruct (render_fail _ H) as (e' & He' & Hn). congruence.
  - intros v Hv. destruct Hdec as [H|H].
    + destruct (render_ok _ H) as (v' & Hv' & Hl & Hk & _).
      assert (v' = v) by congruence. subst v'. split; assumption.
    + destruct (render_fail _ H) as (e & He & _). congruence.
Qed.

(** X11.  [runAgent] stores whatever truthy value the response gives as
    [data.steps] without looking at it.  When that value is not an array,
    or is an array with a null entry, the handler still ends normally,
    with loading off and no error message for it, and the next render of
    the workspace throws a TypeError. *)
Theorem malformed_steps_break_the_page
  (res : value) (now : Z) (st : State) :
  nullish res = false ->
  truthy (response_field res (str "steps")) = true ->
  ~ renderable_steps (response_field res (str "steps")) ->
  exists st' e,
    runAgent_settle (Ok res) now st = Done tt st'
    /\ loading st' = false
    /\ steps st' = response_field res (str "steps")
    /\ Forall (fun m => type m <> str "error")
              (drop (length (messages st)) (messages st'))
    /\ render st' = Throw e
    /\ exn_name e = str "TypeError".
Proof.
  intros Hres Htruthy Hnot.
  rewrite (runAgent_settle_ok _ _ _ Hres), Htruthy.
  set (st' := setLoading false _).
  assert (Hsteps : steps st' = response_field res (str "steps")).
  { subst st'. destruct (truthy (response_field res (str "ai_summary")));
      reflexivity. }
  destruct (render_fail st') as (e & He & Hn); [rewrite Hsteps; exact Hnot|].
  exists st', e. split; [reflexivity|].
  split; [reflexivity|]. split; [exact Hsteps|].
  split; [|split; assumption].
  subst st'. destruct (truthy (response_field res (str "ai_summary"))); simpl.
  - rewrite drop_app_length. repeat constructor. discriminate.
  - rewrite drop_all. constructor.
Qed.

Lemma malformed_steps_break_the_page_witness :
  exists st' e,
    runAgent_settle
      (Ok (VObj [(str "data", VObj [(str "steps", VStr (str "none"))])]))
      2 (setLoading true initial)
    = Done tt st'
    /\ loading st' = false
    /\ steps st' = VStr (str "none")
    /\ Forall (fun m => type m <> str "error")
              (drop (length (messages (setLoading true initial))) (messages st'))
    /\ render st' = Throw e
    /\ exn_name e = str "TypeError".
Proof.
  apply (malformed_steps_break_the_page
           (VObj [(str "data", VObj [(str "steps", VStr (str "none"))])])
           2%Z (setLoading true initial)).
  - reflexivity.
  - reflexivity.
  - intros (items & H & _). vm_compute in H. discriminate H.
Defined.

Lemma step_cells w ev w' :
  step w ev = Some w' ->
  (query (fst w') = query (fst w) \/ exists s, ev = Type_query s)
  /\ (ticker (fst w') = ticker (fst w) \/ exists s, ev = Type_ticker s)
  /\ (collapsedSteps (fst w') = collapsedSteps (fst w)
      \/ exists i, ev = Toggle i)
  /\ ((exporting (fst w') = exporting (fst w) /\ snd w' = snd w)
      \/ ev = Export_click \/ exists lib, ev = Export_settles lib)
  /\ (loading (fst w') = loading (fst w) \/ loading (fst w') = true
      \/ settles ev = true).
Proof.
  destruct w as [st br].
  destruct ev; simpl; intros H.
  - injection H as <-. simpl. repeat split; eauto.
  - injection H as <-. simpl. repeat split; eauto.
  - injection H as <-. simpl. repeat split; eauto.
  - injection H as <-. simpl. unfold runAgent_start.
    destruct (blank (query st) || blank (ticker st)); simpl;
      repeat split; eauto.
  - destruct (after (runAgent_settle awaited now st)) as [st'|] eqn:Hst;
      [|discriminate H]. injection H as <-. simpl.
    destruct (runAgent_settle_effect _ _ _ _ Hst) as (? & ? & ? & ? & _).
    repeat split; eauto.
  - injection H as <-. simpl. unfold runGemini_start.
    destruct (blank (query st)); simpl; repeat split; eauto.
  - destruct (after (runGemini_settle awaited now st)) as [st'|] eqn:Hst;
      [|discriminate H]. injection H as <-. simpl.
    destruct (llm_settle_effect awaited now st st' (or_introl Hst))
      as (? & ? & ? & ? & _).
    repeat split; eauto.
  - injection H as <-. simpl. unfold runGroq_start.
    destruct (blank (query st)); simpl; repeat split; eauto.
  - destruct (after (runGroq_settle awaited now st)) as [st'|] eqn:Hst;
      [|discriminate H]. injection H as <-. simpl.
    destruct (llm_settle_effect awaited now st st' (or_intror Hst))
      as (? & ? & ? & ? & _).
    repeat split; eauto.
  - injection H as <-. simpl. repeat split; eauto.
  - destruct (export_state lib st br) as [br' Hrun]. rewrite Hrun in H.
    injection H as <-. simpl. repeat split; eauto.
Qed.

(** X8.  Each of these cells is changed by its own events only: the query
    and the ticker by typing (a run never clears or trims the inputs), the
    collapse flags by toggling (they outlive the runs, so a step of a new
    trace starts collapsed where a step of the old one was), the exporting
    flag and the browser's console, alerts and downloads by the export. *)
Theorem cells_change_by_their_events (w : State * Browser) (evs : list event)
  (w' : State * Browser) :
  session w evs = Some w' ->
  (Forall (fun ev => forall s, ev <> Type_query s) evs ->
   query (fst w') = query (fst w))
  /\ (Forall (fun ev => forall s, ev <> Type_ticker s) evs ->
      ticker (fst w') = ticker (fst w))
  /\ (Forall (fun ev => forall i, ev <> Toggle i) evs ->
      collapsedSteps (fst w') = collapsedSteps (fst w))
  /\ (Forall (fun ev => ev <> Export_click
                        /\ forall lib, ev <> Export_settles lib) evs ->
      exporting (fst w') = exporting (fst w) /\ snd w' = snd w).
Proof.
  revert w. induction evs as [|ev evs IH]; intros w; simpl.
  - intros H; injection H as <-. repeat split.
  - destruct (step w ev) as [w1|] eqn:Hstep; [|discriminate].
    intros H. destruct (IH _ H) as (Hq & Ht & Hc & Hx).
    destruct (step_cells _ _ _ Hstep) as (Hq1 & Ht1 & Hc1 & Hx1 & _).
    split; [|split; [|split]]; intros Hall;
      inversion Hall as [|? ? Hev Hrest]; subst.
    + rewrite (Hq Hrest). destruct Hq1 as [Hq1 | [s Hs]]; [exact Hq1|].
      contradiction (Hev s).
    + rewrite (Ht Hrest). destruct Ht1 as [Ht1 | [s Hs]]; [exact Ht1|].
      contradiction (Hev s).
    + rewrite (Hc Hrest). destruct Hc1 as [Hc1 | [i Hi]]; [exact Hc1|].
      contradiction (Hev i).
    + destruct (Hx Hrest) as [Hx' Hb']. rewrite Hx', Hb'.
      destruct Hev as [Hev1 Hev2].
      destruct Hx1 as [Hx1 | [Hx1 | [lib Hx1]]]; [exact Hx1 | |].
      * contradiction.
      * contradiction (Hev2 lib).
Qed.

Lemma cells_change_by_their_events_witness :
  collapsedSteps
    (mkState
       [Message 1 (str "user")
          (VStr (str "Ticker: TCS" ++ [LF] ++ str "Query: outlook"));
        Message 3 (str "agent") (VStr (str "Buy signal"))]
       (VArr [tool_step "fetched price"]) (VStr (str "Buy signal"))
       false false (str "outlook") (str "TCS") {[ 0 := VBool true ]})
  = collapsedSteps
      (toggleStep 0 (setQuery (str "outlook") (setTicker (str "TCS") initial))).
Proof.
  refine (proj1 (proj2 (proj2
    (cells_change_by_their_events
       (toggleStep 0 (setQuery (str "outlook") (setTicker (str "TCS") initial)),
        mkBrowser [] [] [])
       [RunAgent_click 1; RunAgent_settles (Ok response_with_summary) 2]
       (_, mkBrowser [] [] []) _))) _).
  - vm_compute. reflexivity.
  - repeat constructor; discriminate.
Defined.

Lemma session_loading w evs w' :
  loading (fst w) = true ->
  forallb (fun ev => negb (settles ev)) evs = true ->
  session w evs = Some w' ->
  loading (fst w') = true.
Proof.
  revert w. induction evs as [|ev evs IH]; intros w Hl; simpl.
  - intros _ H; injection H as <-. exact Hl.
  - intros Hall. apply andb_prop in Hall as [Hev Hall].
    apply negb_true_iff in Hev.
    destruct (step w ev) as [w1|] eqn:Hstep; [|discriminate].
    apply IH; [|exact Hall].
    destruct (step_cells _ _ _ Hstep) as (_ & _ & _ & _ & [H | [H | H]]);
      congruence.
Qed.

Lemma llm_rejected net now st e st1 :
  runGemini net now st = Raised e st1 \/ runGroq net now st = Raised e st1 ->
  st1 = setLoading true st.
Proof.
  unfold runGemini, runGroq, runGemini_start, runGroq_start.
  destruct (blank (query st)); [intros [H|H]; discriminate H|].
  assert (Hsettle : forall awaited,
            runGemini_settle awaited now (setLoading true st) = Raised e st1 ->
            st1 = setLoading true st).
  { intros [res|e']; unfold runGemini_settle; cbv [seq eval update modify].
    - destruct (get res (str "response")); simpl; discriminate.
    - intros H; injection H as _ <-. reflexivity. }
  intros [H|H]; exact (Hsettle _ H).
Qed.

(** X13.  When the call of the Gemini or the Groq button is rejected, the
    handler rejects too: it logs no message and leaves loading on.  The
    workspace then stays in its loading state (the run button disabled and
    reading "Running...", the typing loader and the skeleton shown)
    through edits, toggles, exports and new clicks, until some call
    settles. *)
Theorem rejected_llm_call_keeps_loading
  (net : agentApi.network) (now : Z) (st : State) (e : exn) (st1 : State)
  (br : Browser) (evs : list event) (w' : State * Browser) :
  runGemini net now st = Raised e st1 \/ runGroq net now st = Raised e st1 ->
  forallb (fun ev => negb (settles ev)) evs = true ->
  session (st1, br) evs = Some w' ->
  messages st1 = messages st
  /\ loading (fst w') = true
  /\ forall v, render (fst w') = Ok v ->
       run_disabled v = true /\ run_label v = str "Running..."
       /\ typing v = true /\ skeleton v = true
       /\ chat_hint v = false /\ steps_hint v = false.
Proof.
  intros Hrej Hevs Hs. apply llm_rejected in Hrej. subst st1.
  split; [reflexivity|].
  assert (Hl : loading (fst w') = true)
    by exact (session_loading (setLoading true st, br) _ _ eq_refl Hevs Hs).
  split; [exact Hl|].
  intros v. unfold render.
  destruct (get_length (steps (fst w'))) as [len|]; [|discriminate].
  destruct (steps_map (steps (fst w')) (collapsedSteps (fst w'))) as [tr|];
    [|discriminate].
  cbn [bind]. intros H; injection H as <-. cbn. rewrite Hl.
  rewrite andb_false_r. repeat split. destruct len as [[|n]|]; reflexivity.
Qed.

Lemma rejected_llm_call_keeps_loading_witness :
  messages (setLoading true (setQuery (str "hi") initial))
  = messages (setQuery (str "hi") initial)
  /\ loading (setExporting true
                (toggleStep 0
                   (setQuery (str "hello") (setLoading true initial)))) = true
  /\ forall v,
       render (setExporting true
                 (toggleStep 0
                    (setQuery (str "hello") (setLoading true initial)))) = Ok v ->
       run_disabled v = true /\ run_label v = str "Running..."
       /\ typing v = true /\ skeleton v = true
       /\ chat_hint v = false /\ steps_hint v = false.
Proof.
  refine (rejected_llm_call_keeps_loading
            (fun _ => Throw (Error (str "Failed to fetch"))) 1%Z
            (setQuery (str "hi") initial) (Error (str "Failed to fetch"))
            (setLoading true (setQuery (str "hi") initial))
            (mkBrowser [] [] [])
            [Type_query (str "hello"); Toggle 0; Export_click]
            (setExporting true
               (toggleStep 0
                  (setQuery (str "hello") (setLoading true initial))),
             mkBrowser [] [] [])
            _ _ _).
  - left. reflexivity.
  - reflexivity.
  - reflexivity.
Defined.

Lemma step_items_lookup items flags : forall index vs,
  step_items items index flags = Ok vs ->
  length vs = length items
  /\ forall k s, items !! k = Some s ->
       exists v, vs !! k = Some v
         /\ StepItem s (index + N.of_nat k)
                     (collapsed flags (index + N.of_nat k)) = Ok v.
Proof.
  induction items as [|s items IH]; intros index vs; simpl.
  - intros H; injection H as <-. split; [reflexivity|].
    intros k s H. destruct k; discriminate H.
  - destruct (StepItem s index (collapsed flags index)) as [v|e] eqn:Hv;
      [|discriminate].
    cbn [bind].
    destruct (step_items items (index + 1) flags) as [vs'|e] eqn:Hvs;
      [|discriminate].
    cbn [bind]. intros H; injection H as <-.
    destruct (IH _ _ Hvs) as [Hl Hk]. split; [simpl; congruence|].
    intros [|k] s'; simpl.
    + intros H; injection H as <-. exists v. rewrite N.add_0_r.
      split; [reflexivity | exact Hv].
    + intros H. destruct (Hk _ _ H) as (v' & Hv' & Hs').
      exists v'. split; [exact Hv'|].
      replace (index + N.of_nat (S k)) with (index + 1 + N.of_nat k) by lia.
      exact Hs'.
Qed.

Lemma step_items_nonnullish items flags index vs :
  step_items items index flags = Ok vs ->
  Forall (fun s => nullish s = false) items.
Proof.
  intros H.
  destruct (decide (Forall (fun s => nullish s = false) items)) as [Hd|Hd];
    [exact Hd|].
  destruct (step_items_fail items flags index Hd) as (e & He & _). congruence.
Qed.

(** X14.  Toggling the step [i] changes one item of the page and nothing
    else: the item at [i] (when the trace has one) keeps its number and its
    title, its body goes from shown to hidden or back, and its button
    reads "Expand" when the body is hidden and "Collapse" when it is shown;
    every other item, the chat and the hints are as before. *)
Theorem toggle_changes_one_item (st : State) (i : N) (v : workspace) :
  render st = Ok v ->
  exists v',
    render (toggleStep i st) = Ok v'
    /\ chat v' = chat v /\ chat_hint v' = chat_hint v
    /\ steps_hint v' = steps_hint v
    /\ length (trace v') = length (trace v)
    /\ (forall k, N.of_nat k <> i -> trace v' !! k = trace v !! k)
    /\ (forall item,
          trace v !! N.to_nat i = Some item ->
          exists item',
            trace v' !! N.to_nat i = Some item'
            /\ step_number item' = step_number item
            /\ title item' = title item
            /\ (body item' = None <-> body item <> None)
            /\ toggle_label item'
               = match body item' with
                 | None => str "Expand"
                 | Some _ => str "Collapse"
                 end).
Proof.
  unfold render.
  destruct (get_length (steps st)) as [len|] eqn:Hlen; [|discriminate].
  cbn [bind].
  destruct (steps_map (steps st) (collapsedSteps st)) as [tr|] eqn:Htr;
    [|discriminate].
  cbn [bind]. intros H; injection H as <-.
  change (steps (toggleStep i st)) with (steps st). rewrite Hlen. cbn [bind].
  destruct (steps st) as [| |b|n|s|items|props] eqn:Hsteps;
    try discriminate Htr.
  cbn [steps_map] in *.
  pose proof (step_items_nonnullish _ _ _ _ Htr) as Hall.
  destruct (step_items_ok items (collapsedSteps (toggleStep i st)) 0 Hall)
    as (tr' & Htr' & Hl' & _).
  rewrite Htr'. cbn [bind]. eexists. split; [reflexivity|]. cbn.
  destruct (step_items_lookup _ _ _ _ Htr) as [Hl Hk].
  destruct (step_items_lookup _ _ _ _ Htr') as [_ Hk'].
  split; [reflexivity|]. split; [reflexivity|]. split; [reflexivity|].
  split; [congruence|]. split.
  - intros k Hki.
    destruct (items !! k) as [s|] eqn:Hs.
    + destruct (Hk _ _ Hs) as (a & Ha & Hsa).
      destruct (Hk' _ _ Hs) as (a' & Ha' & Hsa').
      rewrite Ha, Ha'. f_equal.
      unfold collapsed, flag_entry in Hsa'.
      rewrite toggleStep_other in Hsa' by lia.
      unfold collapsed, flag_entry in Hsa. congruence.
    + apply lookup_ge_None in Hs.
      rewrite (proj2 (lookup_ge_None tr k)) by lia.
      apply lookup_ge_None. lia.
  - intros item Hitem.
    destruct (items !! N.to_nat i) as [s|] eqn:Hs.
    2:{ apply lookup_ge_None in Hs. apply lookup_lt_Some in Hitem. lia. }
    destruct (Hk _ _ Hs) as (a & Ha & Hsa).
    destruct (Hk' _ _ Hs) as (a' & Ha' & Hsa').
    assert (a = item) by congruence. subst a.
    exists a'. split; [exact Ha'|].
    replace (0 + N.of_nat (N.to_nat i)) with i in * by lia.
    rewrite toggleStep_flips in Hsa'.
    assert (Hns : nullish s = false).
    { exact (Forall_lookup_1 _ _ _ _ Hall Hs). }
    destruct (StepItem_ok s i (collapsed (collapsedSteps st) i) Hns)
      as (x & Hx & Hn & Ht & Hb & Hbody).
    destruct (StepItem_ok s i (negb (collapsed (collapsedSteps st) i)) Hns)
      as (x' & Hx' & Hn' & Ht' & Hb' & Hbody').
    assert (x = item) by congruence. assert (x' = a') by congruence.
    subst x x'.
    split; [congruence|]. split; [congruence|].
    destruct (collapsed (collapsedSteps st) i); cbn [negb] in Hbody', Hb'.
    + split.
      * split; intros H.
        -- apply (proj1 Hbody') in H. discriminate H.
        -- contradiction H. apply (proj2 Hbody). reflexivity.
      * destruct (body a') eqn:Hba; [exact Hb'|].
        discriminate (proj1 Hbody' eq_refl).
    + split.
      * split.
        -- intros _ H. apply (proj1 Hbody) in H. discriminate H.
        -- intros _. apply (proj2 Hbody'). reflexivity.
      * rewrite (proj2 Hbody' eq_refl). exact Hb'.
Qed.

Lemma toggle_changes_one_item_witness :
  exists v',
    render (toggleStep 0 (setSteps (VArr [tool_step "fetched price"]) initial))
    = Ok v'
    /\ map body (trace v') = [None]
    /\ map toggle_label (trace v') = [str "Expand"].
Proof.
  destruct (toggle_changes_one_item
              (setSteps (VArr [tool_step "fetched price"]) initial) 0
              (Workspace (str "Export as PDF") false [] []
                 (str "Run Research Agent") false true [] false false
                 [StepView 1 (VStr (str "tool")) (str "Collapse")
                    (Some (StepBody (Mounted (VStr (str "fetched price")))
                                    (Falsy (VBool false))))]
                 false)
              eq_refl)
    as (v' & Hv' & _).
  exists v'. split; [exact Hv'|].
  vm_compute in Hv'. injection Hv' as <-. split; reflexivity.
Defined.

End Page.

(** * Chart steps in the pane *)

Section ChartSteps.

Import ResearchAgent.

(** C10, as amended.  A step whose type is "chart" always renders in the
    pane, whatever else the payload holds.  Collapsed, it shows no body.
    Expanded, with a [chartData] that is absent or otherwise falsy, the
    chart is not mounted: neither a chart nor the placeholder is shown.
    Expanded, with a truthy [chartData], the chart is mounted with that
    data, with [xKey], or "x" when [xKey] is missing (or otherwise falsy),
    and with [yKey], or "y" in the same way; the chart then shows the
    placeholder "No chart data" when the data is not an array or is an
    empty array, and the line chart when it is an array with an element.
    The chart by itself never throws, and gives the placeholder for data
    that is absent, not an array, or an empty array.  In a render of the
    workspace that does not throw, the item shown for the step at [k] is
    this [StepItem], with the collapse flag of [k]. *)
Theorem chart_step_renders (step : value) (index : N) (is_collapsed : bool) :
  get step (str "type") = Ok (VStr (str "chart")) ->
  (exists view,
      StepItem step index is_collapsed = Ok view
      /\ (is_collapsed = true -> body view = None)
      /\ (is_collapsed = false ->
          exists b,
            body view = Some b
            /\ (truthy (get_opt step (str "chartData")) = false ->
                chart b = Falsy (get_opt step (str "chartData")))
            /\ (truthy (get_opt step (str "chartData")) = true ->
                exists shown,
                  chart b = Mounted shown
                  /\ ChartCard (get_opt step (str "chartData"))
                       (js_or (get_opt step (str "xKey")) (VStr (str "x")))
                       (js_or (get_opt step (str "yKey")) (VStr (str "y")))
                     = Ok shown
                  /\ ((forall items,
                         get_opt step (str "chartData") <> VArr items)
                      \/ get_opt step (str "chartData") = VArr [] ->
                      shown = NoChartData)
                  /\ (forall item items,
                        get_opt step (str "chartData") = VArr (item :: items) ->
                        shown
                        = LineChart (get_opt step (str "chartData"))
                            (js_or (get_opt step (str "xKey")) (VStr (str "x")))
                            (js_or (get_opt step (str "yKey"))
                                   (VStr (str "y")))))))
  /\ (truthy (get_opt step (str "xKey")) = false ->
      js_or (get_opt step (str "xKey")) (VStr (str "x")) = VStr (str "x"))
  /\ (truthy (get_opt step (str "yKey")) = false ->
      js_or (get_opt step (str "yKey")) (VStr (str "y")) = VStr (str "y"))
  /\ (forall data xKey yKey,
        exists shown,
          ChartCard data xKey yKey = Ok shown
          /\ (data = VUndefined \/ (forall items, data <> VArr items)
              \/ data = VArr [] ->
              shown = NoChartData))
  /\ (forall st v items k,
        render st = Ok v ->
        steps st = VArr items ->
        items !! k = Some step ->
        exists view,
          trace v !! k = Some view
          /\ StepItem step (N.of_nat k)
               (collapsed (collapsedSteps st) (N.of_nat k)) = Ok view).
Proof.
  intros Htype. split; [|split; [|split; [|split]]].
  - unfold StepItem. rewrite Htype. simpl.
    rewrite !(get_after_get _ _ _ _ Htype). simpl.
    destruct is_collapsed; simpl.
    + eexists. split; [reflexivity|]. split; [reflexivity | discriminate].
    + rewrite ?(get_after_get _ _ _ _ Htype). simpl.
      destruct (truthy (get_opt step (str "chartData"))) eqn:Hdata; simpl.
      * rewrite ?(get_after_get _ _ _ _ Htype). simpl.
        rewrite ChartCard_total. simpl.
        eexists. split; [reflexivity|]. split; [discriminate|]. intros _.
        eexists. split; [reflexivity|]. split; [discriminate|]. intros _.
        eexists. split; [reflexivity|]. split; [reflexivity|]. split.
        -- intros H. apply chart_shown_placeholder.
           destruct H as [H | H]; [right; left; exact H | right; right; exact H].
        -- intros item items ->. reflexivity.
      * eexists. split; [reflexivity|]. split; [discriminate|]. intros _.
        eexists. split; [reflexivity|]. split; [reflexivity | discriminate].
  - unfold js_or. intros ->. reflexivity.
  - unfold js_or. intros ->. reflexivity.
  - intros data xKey yKey. exists (chart_shown data xKey yKey).
    split; [apply ChartCard_total | apply chart_shown_placeholder].
  - intros st v items k Hv Hsteps Hk. unfold render in Hv.
    destruct (get_length (steps st)) as [len|]; [|discriminate].
    cbn [bind] in Hv.
    destruct (steps_map (steps st) (collapsedSteps st)) as [tr|] eqn:Htr;
      [|discriminate].
    cbn [bind] in Hv. injection Hv as <-. cbn [trace].
    rewrite Hsteps in Htr. cbn [steps_map] in Htr.
    destruct (step_items_lookup _ _ _ _ Htr) as [_ Hlook].
    destruct (Hlook _ _ Hk) as (view & Hview & Hitem).
    exists view. split; [exact Hview|].
    rewrite N.add_0_l in Hitem. exact Hitem.
Qed.

Lemma chart_step_renders_witness :
  exists view,
    StepItem (VObj [(str "type", VStr (str "chart"));
                    (str "chartData", VArr [])]) 0 false = Ok view
    /\ exists b, body view = Some b /\ chart b = Mounted NoChartData.
Proof.
  destruct (chart_step_renders
              (VObj [(str "type", VStr (str "chart"));
                     (str "chartData", VArr [])]) 0 false eq_refl)
    as ((view & Hview & _ & Hbody) & _).
  exists view. split; [exact Hview|].
  destruct (Hbody eq_refl) as (b & Hb & _ & Hchart).
  destruct (Hchart eq_refl) as (shown & Hshown & _ & Hplace & _).
  exists b. split; [exact Hb|].
  rewrite Hshown, (Hplace (or_intror eq_refl)). reflexivity.
Defined.

(** C10, a counterexample.  A trace with the one step [{type: "chart"}],
    whose [chartData] is absent, rendered expanded in the pane: the body
    of the item holds no chart at all, so the placeholder is not shown. *)
Lemma chart_without_data_has_no_placeholder :
  exists v view b,
    render (setSteps (VArr [VObj [(str "type", VStr (str "chart"))]]) initial)
    = Ok v
    /\ trace v = [view]
    /\ body view = Some b
    /\ chart b = Falsy VUndefined
    /\ chart b <> Mounted NoChartData.
Proof.
  eexists _, _, _. split; [vm_compute; reflexivity|].
  split; [reflexivity|]. split; [reflexivity|].
  split; [reflexivity | discriminate].
Qed.

End ChartSteps.

(** * The error of an operation, read back *)

Section ErrorMessages.

Import agentApi.

Lemma str_inj a b : str a = str b -> a = b.
Proof.
  revert b. induction a as [|c a IH]; intros [|d b] H; try discriminate H;
    [reflexivity|].
  cbv [str] in H. fold str in H. injection H as Hc Hs.
  f_equal; [|exact (IH _ Hs)].
  rewrite <- (ascii_N_embedding c), <- (ascii_N_embedding d), Hc. reflexivity.
Qed.

Lemma decimal_inj n m : decimal n = decimal m -> n = m.
Proof.
  unfold decimal. intros H. apply str_inj in H.
  assert (Hu : N.to_uint n = N.to_uint m).
  { pose proof (NilEmpty.usu (N.to_uint n)) as Hn.
    rewrite H, NilEmpty.usu in Hn. injection Hn as Hn. symmetry. exact Hn. }
  rewrite <- (DecimalN.Unsigned.of_to n), <- (DecimalN.Unsigned.of_to m), Hu.
  reflexivity.
Qed.

(** X16.  The message of the error an operation throws on a status that is
    not a success tells both the operation and the status: when two such
    failures carry the same error, they are failures of the same operation
    with the same status. *)
Theorem error_message_identifies_failure
  (op op' : operation) (res res' : response) :
  ok res = false -> ok res' = false ->
  fst (run (fun _ => Ok res) (perform op))
  = fst (run (fun _ => Ok res') (perform op')) ->
  operation_name op = operation_name op' /\ status res = status res'.
Proof.
  intros Hok Hok'.
  assert (Hthrow : forall o r, ok r = false ->
            fst (run (fun _ => Ok r) (perform o))
            = Throw (Error (operation_name o ++ str " error: "
                            ++ decimal (status r)))).
  { intros o r Hr. destruct o; simpl; rewrite Hr; reflexivity. }
  rewrite (Hthrow _ _ Hok), (Hthrow _ _ Hok').
  intros H.
  apply (f_equal (fun r : result value =>
                    match r with Throw e => exn_message e | Ok _ => [] end))
    in H.
  cbn [exn_message Error] in H.
  destruct op, op'; cbn [operation_name] in *;
    try (exfalso; vm_compute in H; discriminate H);
    (split; [reflexivity|]);
    apply app_inv_head in H; apply app_inv_head in H;
    exact (decimal_inj _ _ H).
Qed.

Lemma error_message_identifies_failure_witness :
  operation_name (Research (VStr (str "TCS")) VNull)
  = operation_name (Research (VStr (str "INFY")) (VStr (str "outlook")))
  /\ status (Response false 502 (Ok VNull))
     = status (Response false 502 (Throw (Error (str "Unexpected token"))))
.
Proof.
  apply (error_message_identifies_failure
           (Research (VStr (str "TCS")) VNull)
           (Research (VStr (str "INFY")) (VStr (str "outlook")))
           (Response false 502 (Ok VNull))
           (Response false 502 (Throw (Error (str "Unexpected token")))));
    reflexivity.
Defined.

End ErrorMessages.

(** * Sending the same input twice *)

Section SecondEnter.

Import FloatingAgent.

(** X17.  The floating agent sends an input once: [sendMessage] clears the
    input before its request goes out, so a second Enter (or click), while
    the first call is in flight or after it has settled, stops at the
    guard: it sends nothing and leaves the state as it is.  This holds
    until something is typed again. *)
Theorem second_enter_sends_nothing (st : State) :
  (forall st1 r,
      sendMessage_start st = Some (st1, r) ->
      sendMessage_start st1 = None)
  /\ (forall net st',
        blank (input st) = false ->
        sendMessage net st = Done tt st' ->
        forall net', sendMessage net' st' = Done tt st').
Proof.
  split.
  - intros st1 r. unfold sendMessage_start.
    destruct (blank (input st)); [discriminate|].
    intros H; injection H as <- _. reflexivity.
  - intros net st' Hblank. unfold sendMessage at 1, sendMessage_start.
    rewrite Hblank. cbv zeta.
    match goal with
    | |- context [sendMessage_settle ?r ?a ?s] =>
        pose proof (sendMessage_settle_grows r a s) as H;
        destruct (sendMessage_settle r a s) as [[] st2|e st2|e]
    end; try discriminate.
    intros Heq; injection Heq as <-. intros net'.
    destruct H as (_ & Hi & _). simpl in Hi.
    unfold sendMessage, sendMessage_start. rewrite Hi. reflexivity.
Qed.

End SecondEnter.
